(** * pysafe: per-SAmple Feature Elimination (class [SAFE])

    A shallow embedding of [src/pysafe/__init__.py].

    - numpy numbers are rationals ([Q]); rounding error, [nan] and [inf] of
      float64 are outside the model (a result that numpy would report as
      [nan] or [inf] is the explicit value [NotFinite]);
    - a 1-d array is a [list Q], a 2-d array is the list of its rows;
    - a method of the class is a computation in a state-and-exception monad
      over the object [self]: an exception leaves the object as it was
      mutated so far, as in Python;
    - the libraries the class calls (the scanned Keras model, sklearn's
      [KDTree], [train_test_split] and [accuracy_score], an external Keras
      learner) are parameters of the development. *)

From Stdlib Require Import String List FinFun Bool Arith ZArith QArith Qabs Qround Lia Lqa.
Import ListNotations.

Local Open Scope nat_scope.
Local Open Scope list_scope.

(** ** Exceptions and results *)

Inductive exn : Type :=
| TypeError
| NameError
| AttributeError
| ValueError
| IndexError
| AxisError
| ZeroDivisionError.

Inductive result (A : Type) : Type :=
| Ok (a : A)
| Raise (e : exn).

Arguments Ok {A} a.
Arguments Raise {A} e.

Definition is_ok {A} (r : result A) : bool :=
  match r with Ok _ => true | Raise _ => false end.

Definition rbind {A B} (r : result A) (k : A -> result B) : result B :=
  match r with
  | Ok a => k a
  | Raise e => Raise e
  end.

(** [map] for a function that may raise: the first exception wins. *)
Fixpoint rmap {A B} (f : A -> result B) (l : list A) : result (list B) :=
  match l with
  | [] => Ok []
  | a :: t => rbind (f a) (fun b => rbind (rmap f t) (fun bs => Ok (b :: bs)))
  end.

(** ** Numbers and arrays *)

Abbreviation row := (list Q).
Abbreviation matrix := (list (list Q)).

(** The input of [scan]: a 2-d array with its [shape]; an array with no rows
    still has a number of columns. *)
Record ndarray : Type := mk_ndarray {
  ncols : nat;
  arr_rows : matrix
}.

Definition Qltb (a b : Q) : bool := negb (Qle_bool b a).

Definition binary (q : Q) : Prop := q = 0%Q \/ q = 1%Q.
Definition binary_row (r : row) : Prop := Forall binary r.
Definition binary_matrix (m : matrix) : Prop := Forall binary_row m.

Definition np_ones (n : nat) : row := repeat 1%Q n.
Definition np_zeros (n : nat) : row := repeat 0%Q n.
Definition np_ones2 (r c : nat) : matrix := repeat (np_ones c) r.
Definition np_zeros2 (r c : nat) : matrix := repeat (np_zeros c) r.

(** [a[i] = v] for an index in range (the callers below only write inside
    the array; out of range the array is returned as it is). *)
Fixpoint set_nth {A} (i : nat) (v : A) (l : list A) : list A :=
  match l, i with
  | [], _ => []
  | _ :: t, O => v :: t
  | a :: t, S k => a :: set_nth k v t
  end.

(** [m[i, j] = v]. *)
Definition set2 (i j : nat) (v : Q) (m : matrix) : matrix :=
  set_nth i (set_nth j v (nth i m [])) m.

(** An operation applied to the elements of two arrays, position by
    position. *)
Fixpoint zip_with {A B C} (f : A -> B -> C) (a : list A) (b : list B) : list C :=
  match a, b with
  | x :: a', y :: b' => f x y :: zip_with f a' b'
  | _, _ => []
  end.

(** numpy broadcasting of a binary operation on two 1-d arrays: equal
    lengths pair up, a length-1 array is stretched, anything else is
    "operands could not be broadcast together". *)
Definition broadcast1 {A B C} (f : A -> B -> C) (a : list A) (b : list B)
  : result (list C) :=
  if Nat.eqb (length a) (length b) then Ok (zip_with f a b)
  else match a, b with
       | [x], _ => Ok (map (f x) b)
       | _, [y] => Ok (map (fun x => f x y) a)
       | _, _ => Raise ValueError
       end.

(** [np.multiply(p, X)] for a 1-d [p] and a 2-d [X]: [p] meets every row. *)
Definition np_multiply_1_2 (p : row) (X : matrix) : result matrix :=
  rmap (fun r => broadcast1 Qmult p r) X.

(** [np.multiply(A, B)] for two 2-d arrays. *)
Definition np_multiply_2_2 (A B : matrix) : result matrix :=
  rbind (broadcast1 (broadcast1 Qmult) A B) (rmap (fun r => r)).

(** [np.multiply(data, comb)] for two 1-d arrays. *)
Definition np_multiply_1_1 (a b : row) : result row := broadcast1 Qmult a b.

(** [a.flatten()]. *)
Definition flatten (m : matrix) : row := concat m.

(** ** itertools.product and np.flip *)

(** [itertools.product(pool, repeat=n)]: tuples in lexicographic order, the
    last position changing fastest. *)
Fixpoint itertools_product {A} (pool : list A) (n : nat) : list (list A) :=
  match n with
  | O => [[]]
  | S k => flat_map (fun x => map (cons x) (itertools_product pool k)) pool
  end.

(** [np.flip(m)] without an axis reverses every axis of the 2-d array. *)
Definition np_flip (m : matrix) : matrix := rev (map (@rev Q) m).

(** ** argmax, argmin *)

(** Index of the first extremal entry: [better x best] says that [x] beats
    the best entry seen so far. *)
Fixpoint arg_from (better : Q -> Q -> bool) (bi : nat) (best : Q) (i : nat)
  (l : row) : nat :=
  match l with
  | [] => bi
  | x :: t => if better x best then arg_from better i x (S i) t
              else arg_from better bi best (S i) t
  end.

Definition arg_first (better : Q -> Q -> bool) (l : row) : nat :=
  match l with
  | [] => 0
  | x :: t => arg_from better 0 x 1 t
  end.

(** [a.argmax()] and [a.argmin()] of a 1-d array: first index on ties. *)
Definition argmax (l : row) : nat := arg_first (fun x best => Qltb best x) l.
Definition argmin (l : row) : nat := arg_first (fun x best => Qltb x best) l.

(** [np.round]: to the nearest integer, halves to the even neighbour. *)
Definition np_round (q : Q) : Q :=
  let f := Qfloor q in
  let d := (q - inject_Z f)%Q in
  match (d ?= 1 # 2)%Q with
  | Lt => inject_Z f
  | Gt => inject_Z (f + 1)
  | Eq => if Z.even f then inject_Z f else inject_Z (f + 1)
  end.

(** ** The objects the class works with *)

(** Labels as [get_accuracy] receives them: a 1-d array (binary labels) or a
    2-d one-hot array (multiclass). *)
Inductive Labels : Type :=
| Labels1 (l : row)
| Labels2 (m : matrix).

(** The scanned Keras model: the two methods the class calls. *)
Record Model : Type := mk_Model {
  predict : matrix -> result matrix;
  predict_classes : matrix -> result Labels
}.

(** A fitted [sklearn.neighbors.KDTree]: [query t data] stands for
    [t.query(data, k=1)[1].flatten()], the index of a stored point per row. *)
Record KDTreeObj : Type := mk_KDTreeObj {
  query : matrix -> result (list nat)
}.

#[local] Set Warnings "-register-all".

(** An external Keras learner: [k_fit X y epochs batch_size] is the learner
    after [fit]. *)
Inductive KerasObj : Type :=
| mk_KerasObj (k_predict : matrix -> result matrix)
              (k_fit : option matrix -> option matrix -> nat -> nat -> result KerasObj).

Definition k_predict (k : KerasObj) : matrix -> result matrix :=
  match k with mk_KerasObj p _ => p end.
Definition k_fit (k : KerasObj)
  : option matrix -> option matrix -> nat -> nat -> result KerasObj :=
  match k with mk_KerasObj _ f => f end.

Inductive Learner : Type :=
| KDTreeL (t : KDTreeObj)
| KerasL (k : KerasObj).

(** The fields [__init__] creates. *)
Record SAFE : Type := mk_SAFE {
  n_features : option nat;
  combinations_mode : string;
  algorithm : option string;
  combinations : option matrix;
  tree : option KDTreeObj;
  X : option matrix;
  y_better : option matrix;
  y_worst : option matrix;
  y : option matrix;
  aim : option string;
  model : option Model;
  n_points : option nat;
  random_state : option Z;
  n_combinations : nat;
  learner : option Learner
}.

(** [SAFE(combinations_mode, n_combinations, n_points, random_state)]. *)
Definition __init__ (mode : string) (n_comb : nat) (points : option nat)
  (rstate : option Z) : SAFE :=
  {| n_features := None; combinations_mode := mode; algorithm := None;
     combinations := None; tree := None; X := None; y_better := None;
     y_worst := None; y := None; aim := None; model := None;
     n_points := points; random_state := rstate; n_combinations := n_comb;
     learner := None |}.

Definition set_n_features (v : option nat) (s : SAFE) : SAFE :=
  mk_SAFE v (combinations_mode s) (algorithm s) (combinations s) (tree s) (X s)
    (y_better s) (y_worst s) (y s) (aim s) (model s) (n_points s)
    (random_state s) (n_combinations s) (learner s).
Definition set_algorithm (v : option string) (s : SAFE) : SAFE :=
  mk_SAFE (n_features s) (combinations_mode s) v (combinations s) (tree s) (X s)
    (y_better s) (y_worst s) (y s) (aim s) (model s) (n_points s)
    (random_state s) (n_combinations s) (learner s).
Definition set_combinations (v : option matrix) (s : SAFE) : SAFE :=
  mk_SAFE (n_features s) (combinations_mode s) (algorithm s) v (tree s) (X s)
    (y_better s) (y_worst s) (y s) (aim s) (model s) (n_points s)
    (random_state s) (n_combinations s) (learner s).
Definition set_X (v : option matrix) (s : SAFE) : SAFE :=
  mk_SAFE (n_features s) (combinations_mode s) (algorithm s) (combinations s)
    (tree s) v (y_better s) (y_worst s) (y s) (aim s) (model s) (n_points s)
    (random_state s) (n_combinations s) (learner s).
Definition set_y_better (v : option matrix) (s : SAFE) : SAFE :=
  mk_SAFE (n_features s) (combinations_mode s) (algorithm s) (combinations s)
    (tree s) (X s) v (y_worst s) (y s) (aim s) (model s) (n_points s)
    (random_state s) (n_combinations s) (learner s).
Definition set_y_worst (v : option matrix) (s : SAFE) : SAFE :=
  mk_SAFE (n_features s) (combinations_mode s) (algorithm s) (combinations s)
    (tree s) (X s) (y_better s) v (y s) (aim s) (model s) (n_points s)
    (random_state s) (n_combinations s) (learner s).
Definition set_y (v : option matrix) (s : SAFE) : SAFE :=
  mk_SAFE (n_features s) (combinations_mode s) (algorithm s) (combinations s)
    (tree s) (X s) (y_better s) (y_worst s) v (aim s) (model s) (n_points s)
    (random_state s) (n_combinations s) (learner s).
Definition set_aim (v : option string) (s : SAFE) : SAFE :=
  mk_SAFE (n_features s) (combinations_mode s) (algorithm s) (combinations s)
    (tree s) (X s) (y_better s) (y_worst s) (y s) v (model s) (n_points s)
    (random_state s) (n_combinations s) (learner s).
Definition set_model (v : option Model) (s : SAFE) : SAFE :=
  mk_SAFE (n_features s) (combinations_mode s) (algorithm s) (combinations s)
    (tree s) (X s) (y_better s) (y_worst s) (y s) (aim s) v (n_points s)
    (random_state s) (n_combinations s) (learner s).
Definition set_learner (v : option Learner) (s : SAFE) : SAFE :=
  mk_SAFE (n_features s) (combinations_mode s) (algorithm s) (combinations s)
    (tree s) (X s) (y_better s) (y_worst s) (y s) (aim s) (model s) (n_points s)
    (random_state s) (n_combinations s) v.

(** ** The monad of methods: state [self] and exceptions *)

Definition M (A : Type) : Type := SAFE -> result A * SAFE.

Definition ret {A} (a : A) : M A := fun s => (Ok a, s).
Definition raise {A} (e : exn) : M A := fun s => (Raise e, s).
Definition lift {A} (r : result A) : M A := fun s => (r, s).
Definition bind {A B} (c : M A) (k : A -> M B) : M B :=
  fun s => match c s with
           | (Ok a, s') => k a s'
           | (Raise e, s') => (Raise e, s')
           end.
Definition get : M SAFE := fun s => (Ok s, s).
Definition modify (f : SAFE -> SAFE) : M unit := fun s => (Ok tt, f s).

Declare Scope safe_scope.
Delimit Scope safe_scope with safe.
Notation "x <- c ;; k" := (bind c (fun x => k))
  (at level 61, c at next level, right associativity) : safe_scope.
Notation "c ;;; k" := (bind c (fun _ => k))
  (at level 61, right associativity) : safe_scope.

(** A [for] loop over a list whose body works on [self]. *)
Fixpoint for_each {A} (l : list A) (body : A -> M unit) : M unit :=
  match l with
  | [] => ret tt
  | a :: t => bind (body a) (fun _ => for_each t body)
  end.

(** [enumerate(l)]. *)
Fixpoint enumerate_from {A} (i : nat) (l : list A) : list (nat * A) :=
  match l with
  | [] => []
  | a :: t => (i, a) :: enumerate_from (S i) t
  end.
Definition enumerate {A} (l : list A) : list (nat * A) := enumerate_from 0 l.

(** [a[i]] of a Python sequence or numpy array with a non-negative index. *)
Definition index {A} (l : list A) (i : nat) : result A :=
  match nth_error l i with
  | Some a => Ok a
  | None => Raise IndexError
  end.

(** ** Names bound in the module *)

(** The names the module's [import] statements and its [class] statement
    bind. [random], [Sequential], [Dense], [accuracy_score] and [y_train]
    are used by the class and are not among them. *)
Definition module_globals : list string :=
  ["itertools"; "KDTree"; "np"; "train_test_split"; "maximize"; "tqdm";
   "SAFE"]%string.

(** Evaluating a global name of the module (none of the names looked up
    below is a Python builtin). *)
Definition global (name : string) : result unit :=
  if existsb (String.eqb name) module_globals then Ok tt else Raise NameError.

(** ** _generate_combination *)

Definition _generate_combination : M unit :=
  (s <- get ;;
   let mode := combinations_mode s in
   (if (String.eqb mode "all" || String.eqb mode "genetic")%bool then
      match n_features s with
      | None => raise TypeError
      | Some n =>
          modify (set_combinations
                    (Some (np_flip (itertools_product [0%Q; 1%Q] n))))
      end
    else ret tt) ;;;
   (if String.eqb mode "one-by-one" then
      match n_features s with
      | None => raise TypeError
      | Some n =>
          modify (set_combinations
                    (Some (fold_left (fun m i => set2 i i 0%Q m)
                                     (seq 1 (n - 1)) (np_ones2 (n + 1) n))))
      end
    else ret tt) ;;;
   (if String.eqb mode "random" then
      match n_features s with
      | None => raise TypeError
      | Some n =>
          modify (set_combinations (Some (itertools_product [0%Q; 1%Q] n))) ;;;
          (* random.sample(...): the module does not import [random], so
             evaluating the name raises and the call after it is never
             made *)
          lift (global "random") ;;;
          raise TypeError
      end
    else ret tt))%safe.

(** ** The greedy forward-selection search *)

(** [bool(a)] of a numpy array of booleans: defined for one element only
    ("the truth value of an array with more than one element is ambiguous";
    for an empty array numpy deprecated the answer and now raises too). *)
Definition truth (b : list bool) : result bool :=
  match b with
  | [x] => Ok x
  | _ => Raise ValueError
  end.

(** [a < b], [a > b] and [a == b] of two loss arrays in a Python condition. *)
Definition arr_lt (a b : row) : result bool := rbind (broadcast1 Qltb a b) truth.
Definition arr_gt (a b : row) : result bool :=
  rbind (broadcast1 (fun x z => Qltb z x) a b) truth.
Definition arr_eq (a b : row) : result bool := rbind (broadcast1 Qeq_bool a b) truth.

(** Python's [min(l)] and [max(l)]: the first item is kept until a later
    item beats it. *)
Fixpoint py_extremum (better : row -> row -> result bool) (cur : row)
  (l : list row) : result row :=
  match l with
  | [] => Ok cur
  | x :: t => rbind (better x cur)
                (fun b => py_extremum better (if b then x else cur) t)
  end.

Definition py_pick (better : row -> row -> result bool) (l : list row)
  : result row :=
  match l with
  | [] => Raise ValueError
  | x :: t => py_extremum better x t
  end.

Definition py_min : list row -> result row := py_pick arr_lt.
Definition py_max : list row -> result row := py_pick arr_gt.

(** [l.index(v)]: the first item equal to [v]. Python tries identity before
    [==]; the searches below look up an item of the list itself, which [==]
    finds at the same place. *)
Fixpoint py_index_from (i : nat) (v : row) (l : list row) : result nat :=
  match l with
  | [] => Raise ValueError
  | x :: t => rbind (arr_eq x v)
                (fun b => if b then Ok i else py_index_from (S i) v t)
  end.
Definition py_index (v : row) (l : list row) : result nat := py_index_from 0 v l.

(** [abs(model.predict(np.array([np.multiply(data, comb)])) - label)], its
    values in row-major order. *)
Definition sample_loss (m : Model) (data : row) (label : Q) (comb : row)
  : result row :=
  rbind (np_multiply_1_1 data comb) (fun smp =>
  rbind (predict m [smp]) (fun p =>
  Ok (map (fun v => Qabs (v - label)) (flatten p)))).

(** The inner [for i in range(n_features)]: the copies of
    [best_combination] with one more feature set to 0. *)
Definition candidates (n : nat) (best : row) : list row :=
  flat_map (fun i => if Qeq_bool (nth i best 0%Q) 0%Q then []
                     else [set_nth i 0%Q best])
           (seq 0 n).

(** The outer [for _ in range(n_features)] with [k] rounds left. The two
    searches of the source differ in [pick] ([min] or [max]) and in the test
    [better] ([<] or [>]) only. *)
Fixpoint fs_loop (better : row -> row -> result bool)
  (pick : list row -> result row) (loss : row -> result row) (n k : nat)
  (best_combination best_loss : row) : result row :=
  match k with
  | O => Ok best_combination
  | S k' =>
      let combs := candidates n best_combination in
      rbind (rmap loss combs) (fun losses =>
      rbind (pick losses) (fun current_loss =>
      rbind (better current_loss best_loss) (fun b =>
      if b then
        rbind (py_index current_loss losses) (fun i =>
        rbind (index combs i) (fun c =>
        fs_loop better pick loss n k' c current_loss))
      else Ok best_combination)))
  end.

Definition forward_selection (better : row -> row -> result bool)
  (pick : list row -> result row) (data : row) (label : Q) : M row :=
  (s <- get ;;
   n <- lift (match n_features s with
              | Some n => Ok n
              | None => Raise TypeError
              end) ;;
   let best_combination := np_ones n in
   mdl <- lift (match model s with
                | Some m => Ok m
                | None => Raise AttributeError
                end) ;;
   best_loss <- lift (sample_loss mdl data label best_combination) ;;
   lift (fs_loop better pick (sample_loss mdl data label) n n
           best_combination best_loss))%safe.

Definition __combination_search_forward_selection_min : row -> Q -> M row :=
  forward_selection arr_lt py_min.

Definition __combination_search_forward_selection_max : row -> Q -> M row :=
  forward_selection arr_gt py_max.

(** ** scan *)

(** [a[i, :] = v]. *)
Definition assign_row (i : nat) (v : row) (m : option matrix)
  : result (option matrix) :=
  match m with
  | None => Raise TypeError
  | Some a => if Nat.ltb i (length a) then Ok (Some (set_nth i v a))
              else Raise IndexError
  end.

(** [losses[:, index] = v] for a column of [rows] entries. *)
Definition assign_column (rows : nat) (v : row) : result row :=
  if Nat.eqb (length v) rows then Ok v
  else match v with
       | [x] => Ok (repeat x rows)
       | _ => Raise ValueError
       end.

(** The rows of the [rows] x [len(cols)] array whose columns are [cols]. *)
Definition rows_of_columns (rows : nat) (cols : list row) : matrix :=
  map (fun i => map (fun c => nth i c 0%Q) cols) (seq 0 rows).

(** [a.argmax(axis=1)] and [a.argmin(axis=1)] of an array with [ncomb]
    columns. *)
Definition arg_axis1 (arg : row -> nat) (ncomb : nat) (a : matrix)
  : result (list nat) :=
  if Nat.eqb ncomb 0 then Raise ValueError else Ok (map arg a).

(** [combinations[idx]] for an array of row indices. *)
Definition take_rows (combs : matrix) (idx : list nat) : matrix :=
  map (fun j => nth j combs []) idx.

(** [abs(a - b)] on two numbers. *)
Definition abs_diff (a b : Q) : Q := Qabs (a - b).

(** One column of the loss matrix:
    [abs(model.predict(np.multiply(p, X)).flatten() - y)]. *)
Definition loss_column (m : Model) (Xs : matrix) (ys : row) (rows : nat)
  (p : row) : result row :=
  rbind (np_multiply_1_2 p Xs) (fun px =>
  rbind (predict m px) (fun pr =>
  rbind (broadcast1 abs_diff (flatten pr) ys) (assign_column rows))).

Section Externals.

(** The state of numpy's global random generator, which
    [train_test_split] reads when [random_state] is [None]. *)
Variable RandomState : Type.

(** [train_test_split(X, y, train_size=., random_state=., stratify=y)],
    reduced to the two parts [scan] keeps: [X_train] and [y_train]. *)
Variable train_test_split :
  RandomState -> option Z -> Q -> matrix -> row -> result (matrix * row).

Definition scan (g : RandomState) (model0 : Model) (X0 : ndarray) (y0 : row)
  (aim0 : string) : M unit :=
  (let rows := length (arr_rows X0) in
   modify (set_n_features (Some (ncols X0))) ;;;
   s <- get ;;
   Xy <- match n_points s with
         | None => ret (arr_rows X0, y0)
         | Some k =>
             if Nat.eqb rows 0 then raise ZeroDivisionError
             else lift (train_test_split g (random_state s)
                          (inject_Z (Z.of_nat k) / inject_Z (Z.of_nat rows))%Q
                          (arr_rows X0) y0)
         end ;;
   let Xs := fst Xy in
   let ys := snd Xy in
   modify (set_X (Some Xs)) ;;;
   modify (set_y_better (Some (np_zeros2 rows (ncols X0)))) ;;;
   modify (set_y_worst (Some (np_zeros2 rows (ncols X0)))) ;;;
   _generate_combination ;;;
   modify (set_model (Some model0)) ;;;
   modify (set_aim (Some aim0)) ;;;
   if String.eqb (combinations_mode s) "genetic" then
     for_each (enumerate Xs) (fun _ =>
       (* args = {..., 'label': y_train.values[i]}: [y_train] is not
          bound, the rest of the body is never reached *)
       lift (global "y_train") ;;;
       raise NameError)
   else if String.eqb (combinations_mode s) "forward_selection" then
     (* self.aim == 'better': [self.aim] is [aim0], set two lines above *)
     if String.eqb aim0 "better" then
       for_each (enumerate Xs) (fun ij =>
         label <- lift (index ys (fst ij)) ;;
         m <- __combination_search_forward_selection_min (snd ij) label ;;
         s1 <- get ;;
         yb <- lift (assign_row (fst ij) m (y_better s1)) ;;
         modify (set_y_better yb))
     else
       for_each (enumerate Xs) (fun ij =>
         label <- lift (index ys (fst ij)) ;;
         m <- __combination_search_forward_selection_max (snd ij) label ;;
         s1 <- get ;;
         yw <- lift (assign_row (fst ij) m (y_worst s1)) ;;
         modify (set_y_worst yw))
   else
     s2 <- get ;;
     combs <- lift (match combinations s2 with
                    | None => Raise AttributeError
                    | Some c => Ok c
                    end) ;;
     cols <- lift (rmap (loss_column model0 Xs ys rows) combs) ;;
     let losses := rows_of_columns rows cols in
     iw <- lift (arg_axis1 argmax (length combs) losses) ;;
     modify (set_y_worst (Some (take_rows combs iw))) ;;;
     ib <- lift (arg_axis1 argmin (length combs) losses) ;;
     modify (set_y_better (Some (take_rows combs ib))))%safe.

(** ** learn *)

(** [KDTree(self.X)]. *)
Variable KDTree : option matrix -> result KDTreeObj.

(** Python's truth value of an optional string: [None] and [''] are false. *)
Definition truthy (a : option string) : bool :=
  match a with
  | None => false
  | Some t => negb (String.eqb t "")
  end.

(** [a == t] for an optional string [a] and a string literal [t]. *)
Definition is_str (a : option string) (t : string) : bool :=
  match a with
  | None => false
  | Some u => String.eqb u t
  end.

(** A learner object is true in a condition ([not self.learner] asks for
    [None]). *)
Definition _ann (train : bool) : M unit :=
  (s <- get ;;
   match learner s with
   | None =>
       (* self.learner = Sequential(): the name is not bound, the network
          is never built *)
       lift (global "Sequential") ;;;
       raise NameError
   | Some l =>
       if train then
         match l with
         | KerasL k =>
             k' <- lift (k_fit k (X s) (y s) 128 8) ;;
             modify (set_learner (Some (KerasL k')))
         | KDTreeL _ => raise AttributeError
         end
       else ret tt
   end)%safe.

(** [aim if not self.aim else self.aim]. *)
Definition chosen_aim (s : SAFE) (aim0 : string) : option string :=
  if truthy (aim s) then aim s else Some aim0.

(** [self.y_better if self.aim == 'better' else self.y_worst], for the aim
    just chosen. *)
Definition chosen_masks (s : SAFE) (aim0 : string) : option matrix :=
  if is_str (chosen_aim s aim0) "better" then y_better s else y_worst s.

Definition learn (algorithm0 aim0 : string) (learner0 : option Learner)
  (train : bool) : M (option Learner) :=
  (s <- get ;;
   modify (set_aim (chosen_aim s aim0)) ;;;
   modify (set_y (chosen_masks s aim0)) ;;;
   modify (set_algorithm (Some algorithm0)) ;;;
   modify (set_learner learner0) ;;;
   (if String.eqb algorithm0 "knn" then
      match learner0 with
      | None => t <- lift (KDTree (X s)) ;;
                modify (set_learner (Some (KDTreeL t)))
      | Some _ => ret tt
      end
    else ret tt) ;;;
   (if String.eqb algorithm0 "ann" then _ann train else ret tt) ;;;
   s' <- get ;;
   ret (learner s'))%safe.

(** ** get_selection, clean_data *)

(** The method returns [None] when [algorithm] is neither ['knn'] nor
    ['ann']. *)
Definition get_selection (data : matrix) : M (option matrix) :=
  (s <- get ;;
   if is_str (algorithm s) "knn" then
     match learner s with
     | Some (KDTreeL t) =>
         ind <- lift (query t data) ;;
         match y s with
         | None => raise TypeError
         | Some ys => sel <- lift (rmap (index ys) ind) ;; ret (Some sel)
         end
     | _ => raise AttributeError
     end
   else if is_str (algorithm s) "ann" then
     match learner s with
     | Some (KerasL k) =>
         p <- lift (k_predict k data) ;;
         ret (Some (map (map np_round) p))
     | _ => raise AttributeError
     end
   else ret None)%safe.

(** [data] has at least one entry. *)
Definition has_entryb (data : matrix) : bool :=
  existsb (fun r => negb (Nat.eqb (length r) 0)) data.

(** [np.multiply(data, None)] multiplies every entry of [data] with [None],
    which raises [TypeError]; an array with no entry comes back as it is. *)
Definition clean_data (data : matrix) : M matrix :=
  (sel <- get_selection data ;;
   match sel with
   | None => if has_entryb data then raise TypeError else ret data
   | Some m => lift (np_multiply_2_2 data m)
   end)%safe.

(** ** get_robustness *)

(** A float that may be [nan] or [inf]. *)
Inductive fl : Type :=
| Finite (q : Q)
| NotFinite.

Definition fl_add (a b : fl) : fl :=
  match a, b with
  | Finite x, Finite z => Finite (x + z)
  | _, _ => NotFinite
  end.

Definition fl_div (a b : fl) : fl :=
  match a, b with
  | Finite x, Finite z => if Qeq_bool z 0 then NotFinite else Finite (x / z)
  | _, _ => NotFinite
  end.

(** A 1-d array of floats, one per feature. For an array with no row numpy
    gives one [nan] per column; the arrays of the embedding do not record how
    many columns an array with no row has, so that result is a constructor
    of its own. *)
Inductive scores : Type :=
| nan_per_column
| score_list (l : list fl).

(** [np.mean(a, 0)]: the mean of every column. *)
Definition np_mean0 (a : option matrix) : result scores :=
  match a with
  | None => Raise AxisError
  | Some [] => Ok nan_per_column
  | Some (r :: t) =>
      let n := inject_Z (Z.of_nat (length (r :: t))) in
      Ok (score_list (map (fun c => Finite (c / n))
                          (fold_left (zip_with Qplus) t r)))
  end.

(** [mean / np.sum(mean) * 100]. *)
Definition percent (mean : scores) : scores :=
  match mean with
  | nan_per_column => nan_per_column
  | score_list l =>
      let total := fold_left fl_add l (Finite 0) in
      score_list (map (fun m => match fl_div m total with
                                | Finite q => Finite (q * 100)
                                | NotFinite => NotFinite
                                end) l)
  end.

(** The dictionary the method returns. *)
Inductive Robustness : Type :=
| robustness (r : scores)
| robustness_better_worst (better worst : scores).

Definition get_robustness (data : option matrix) : M Robustness :=
  (match data with
   | Some d =>
       sel <- get_selection d ;;
       mean <- lift (np_mean0 sel) ;;
       ret (robustness (percent mean))
   | None =>
       s <- get ;;
       mean1 <- lift (np_mean0 (y_better s)) ;;
       mean2 <- lift (np_mean0 (y_worst s)) ;;
       ret (robustness_better_worst (percent mean1) (percent mean2))
   end)%safe.

(** ** _get_clean, get_accuracy *)

Definition self_model : M Model :=
  (s <- get ;;
   match model s with
   | None => raise AttributeError
   | Some m => ret m
   end)%safe.

Definition _get_clean (data : matrix) : M (Labels * Labels) :=
  (m <- self_model ;;
   original <- lift (predict_classes m data) ;;
   m' <- self_model ;;
   cleaned_data <- clean_data data ;;
   cleaned <- lift (predict_classes m' cleaned_data) ;;
   ret (original, cleaned))%safe.

(** [np.argmax(labels, 1)]. *)
Definition np_argmax1 (labels : Labels) : result Labels :=
  match labels with
  | Labels1 _ => Raise AxisError
  | Labels2 m =>
      rbind (rmap (fun r => match r with
                            | [] => Raise ValueError
                            | _ => Ok (inject_Z (Z.of_nat (argmax r)))
                            end) m)
            (fun v => Ok (Labels1 v))
  end.

(** A line written by [print]. *)
Inductive printed : Type :=
| Accuracy_before (a : Q)
| Accuracy_after (a : Q).

Definition accuracy_fn : Type := Labels -> Labels -> result Q.

(** [print(fmt.format(accuracy_score(y_true, pred)))]: the name
    [accuracy_score] is evaluated first, then its arguments. *)
Definition print_accuracy (acc : result accuracy_fn) (fmt : Q -> printed)
  (y_true : result Labels) (pred : Labels) : result printed :=
  rbind acc (fun f =>
  rbind y_true (fun yt =>
  rbind (f yt pred) (fun a => Ok (fmt a)))).

(** The two [print] statements of a block: what was written, and how the
    block ended. *)
Definition print_both (acc : result accuracy_fn) (y_true : result Labels)
  (original cleaned : Labels) : list printed * result unit :=
  match print_accuracy acc Accuracy_before y_true original with
  | Raise e => ([], Raise e)
  | Ok l1 =>
      match print_accuracy acc Accuracy_after y_true cleaned with
      | Raise e => ([l1], Raise e)
      | Ok l2 => ([l1; l2], Ok tt)
      end
  end.

(** [get_accuracy] where evaluating the name [accuracy_score] gives [acc].
    The result is the text written, the outcome and the object. *)
Definition get_accuracy_with (acc : result accuracy_fn) (data : matrix)
  (labels : Labels) (s : SAFE) : list printed * (result unit * SAFE) :=
  match _get_clean data s with
  | (Raise e, s') => ([], (Raise e, s'))
  | (Ok (original, cleaned), s') =>
      (* try: *)
      match print_both acc (np_argmax1 labels) original cleaned with
      | (out, Ok _) => (out, (Ok tt, s'))
      | (out, Raise _) =>
          (* except: *)
          let (out', r) := print_both acc (Ok labels) original cleaned in
          (out ++ out', (r, s'))
      end
  end.

(** [sklearn.metrics.accuracy_score], which the module does not import. *)
Variable accuracy_score : accuracy_fn.

Definition get_accuracy : matrix -> Labels -> SAFE ->
                          list printed * (result unit * SAFE) :=
  get_accuracy_with (rbind (global "accuracy_score")
                           (fun _ => Ok accuracy_score)).

(** ** get_behaviour, get_candidates *)

Definition get_behaviour (data : matrix) : M (matrix * matrix) :=
  (m <- self_model ;;
   original <- lift (predict m data) ;;
   m' <- self_model ;;
   cleaned_data <- clean_data data ;;
   cleaned <- lift (predict m' cleaned_data) ;;
   ret (original, cleaned))%safe.

(** The attributes of a [SAFE] object: the fields of [__init__] and the
    methods of the class (the private ones under their mangled names). *)
Definition SAFE_attributes : list string :=
  ["n_features"; "combinations_mode"; "algorithm"; "combinations"; "tree";
   "X"; "y_better"; "y_worst"; "y"; "aim"; "model"; "n_points";
   "random_state"; "n_combinations"; "learner";
   "__init__"; "scan"; "learn"; "get_selection"; "get_robustness";
   "_generate_combination"; "clean_data";
   "_SAFE__combination_search_genetic";
   "_SAFE__combination_search_forward_selection_min";
   "_SAFE__combination_search_forward_selection_max";
   "_ann"; "_get_clean"; "get_accuracy"; "get_behaviour";
   "get_candidates"]%string.

(** [self.<name>]. *)
Definition getattr (name : string) : result unit :=
  if existsb (String.eqb name) SAFE_attributes then Ok tt
  else Raise AttributeError.

(** [get_candidates] where [self.behaviour] evaluates to [behaviour]. *)
Definition get_candidates_with
  (behaviour : result (matrix -> M (matrix * matrix))) (data : matrix)
  (threshold : Q) : M (list nat) :=
  (f <- lift behaviour ;;
   oc <- f data ;;
   displacement <- lift (rbind (broadcast1 (broadcast1 Qminus) (fst oc) (snd oc))
                               (rmap (fun r => r))) ;;
   keep <- lift (rmap (fun i => truth (map (Qle_bool threshold) i))
                      displacement) ;;
   ret (map snd (filter fst (combine keep (seq 0 (length displacement))))))%safe.

Definition get_candidates : matrix -> Q -> M (list nat) :=
  get_candidates_with (rbind (getattr "behaviour")
                             (fun _ => Ok get_behaviour)).

End Externals.

(** * Specification *)

(** ** The vocabulary of the properties *)

(** The brute-force search space: every 0/1 vector of length [n], once. *)
Definition all_combinations (n : nat) : matrix :=
  np_flip (itertools_product [0%Q; 1%Q] n).

(** The rows ['one-by-one'] builds: [np.ones((n+1, n))] with the diagonal
    entries [1 .. n-1] set to 0. *)
Definition one_by_one_combinations (n : nat) : matrix :=
  fold_left (fun m i => set2 i i 0%Q m) (seq 1 (n - 1)) (np_ones2 (n + 1) n).

(** [j] is the first index below [n] whose value no other value beats. *)
Definition first_best (better : Q -> Q -> bool) (f : nat -> Q) (n j : nat) : Prop :=
  j < n /\
  (forall k, k < n -> better (f k) (f j) = false) /\
  (forall k, k < j -> better (f j) (f k) = true).

(** [|model.predict(p * X)[i] - y[i]|]: the loss of combination [p] on
    sample [i]. *)
Definition loss_entry (m : Model) (Xs : matrix) (ys : row) (p : row) (i : nat) : Q :=
  match np_multiply_1_2 p Xs with
  | Ok px => match predict m px with
             | Ok pr => abs_diff (nth i (flatten pr) 0%Q) (nth i ys 0%Q)
             | Raise _ => 0%Q
             end
  | Raise _ => 0%Q
  end.

(** The model answers with one value per sample. *)
Definition one_value_per_sample (m : Model) : Prop :=
  forall a p, predict m a = Ok p -> length (flatten p) = length a.

(** The loss [|model.predict(mask * data) - label|] of a mask, as a number. *)
Definition loss_value (m : Model) (data : row) (label : Q) (mask : row) : Q :=
  match sample_loss m data label mask with
  | Ok [v] => v
  | _ => 0%Q
  end.

(** The model answers every array, with one value per sample. *)
Definition scalar_model (m : Model) : Prop :=
  forall a, exists p, predict m a = Ok p /\ length (flatten p) = length a.

(** One accepted round of the search: feature [i], still selected in [m], is
    set to 0, and the loss of the new mask beats the loss of [m]. *)
Definition fs_move (n : nat) (beats : Q -> Q -> Prop) (loss : row -> Q)
  (m m' : row) : Prop :=
  exists i, i < n /\ ~ (nth i m 0 == 0)%Q /\ m' = set_nth i 0%Q m /\
            beats (loss m') (loss m).

(** [a], then the elements of [l], each related to the one before. *)
Fixpoint chain {A} (R : A -> A -> Prop) (a : A) (l : list A) : Prop :=
  match l with
  | [] => True
  | b :: t => R a b /\ chain R b t
  end.

(** The number of features among the first [n] that a mask still selects. *)
Definition selected (n : nat) (m : row) : nat :=
  length (filter (fun i => negb (Qeq_bool (nth i m 0%Q) 0%Q)) (seq 0 n)).

(** An optional array ([None] before the first [scan]) is binary. *)
Definition opt_binary (m : option matrix) : Prop :=
  match m with
  | Some a => binary_matrix a
  | None => True
  end.

(** Every mask array the object holds has entries 0 and 1 only. *)
Definition masks_binary (s : SAFE) : Prop :=
  opt_binary (combinations s) /\ opt_binary (y_better s) /\
  opt_binary (y_worst s) /\ opt_binary (y s).

(** The object was made for one of the two modes that list their
    combinations. *)
Definition exhaustive_mode (s : SAFE) : Prop :=
  combinations_mode s = "all"%string \/ combinations_mode s = "one-by-one"%string.

(** The invariant of such an object. *)
Definition binary_object (s : SAFE) : Prop :=
  exhaustive_mode s /\ masks_binary s.

(** The squared Euclidean distance of two points. *)
Definition sqdist (a b : row) : Q :=
  fold_right Qplus 0%Q (zip_with (fun x z => (x - z) * (x - z))%Q a b).

(** A 2-d array with [n] columns. *)
Definition rectangular (n : nat) (m : matrix) : Prop :=
  Forall (fun r => length r = n) m.

(** [pts[k]] is a point of [pts] nearest to [q]. *)
Definition nearest (pts : matrix) (q : row) (k : nat) : Prop :=
  exists p, nth_error pts k = Some p /\
            forall j r, nth_error pts j = Some r -> (sqdist p q <= sqdist r q)%Q.

(** What the class relies on from [sklearn.neighbors.KDTree]: a tree is built
    from every array with at least one row and one column, and
    [query(data, k=1)] answers every row of an array [data] with at least one
    row and as many columns with the index of a nearest stored point. The
    library raises [ValueError] for an array without a row or without a
    column, at the constructor and at [query]; nothing is asked of these
    cases. *)
Definition nearest_neighbour_tree (KDTree : option matrix -> result KDTreeObj)
  : Prop :=
  forall pts n, pts <> [] -> 0 < n -> rectangular n pts ->
    exists t, KDTree (Some pts) = Ok t /\
              forall data, data <> [] -> rectangular n data ->
                exists ind, query t data = Ok ind /\
                            Forall2 (nearest pts) data ind.

(** Two points with the same feature values. *)
Definition same_point (a b : row) : Prop := Forall2 Qeq a b.

(** The object after [learn('knn', aim0, None, train)] with the tree [t]. *)
Definition learnt_knn (s : SAFE) (aim0 : string) (t : KDTreeObj) : SAFE :=
  set_learner (Some (KDTreeL t))
    (set_learner None
       (set_algorithm (Some "knn"%string)
          (set_y (chosen_masks s aim0) (set_aim (chosen_aim s aim0) s)))).

(** "A query equal to a scanned sample returns that sample's own mask", for
    the scanned object [s] and a tree constructor [KD]. *)
Definition returns_own_mask (KD : option matrix -> result KDTreeObj) (s : SAFE)
  : Prop :=
  let s1 := snd (learn KD "knn" "worst" None false s) in
  forall Xs ys i x m,
    X s1 = Some Xs -> y s1 = Some ys ->
    nth_error Xs i = Some x -> nth_error ys i = Some m ->
    get_selection [x] s1 = (Ok (Some [m]), s1).

(** ** Exceptions of the library calls *)

(** [r'] is the outcome [r] or the exception [e]: a value related to the
    value of [r], the exception of [r], or [e]. *)
Definition outcome_or {A} (e : exn) (Ra : A -> A -> Prop) (r' r : result A)
  : Prop :=
  match r' with
  | Ok a' => match r with
             | Ok a => Ra a' a
             | Raise _ => False
             end
  | Raise x => x = e \/ r = Raise x
  end.

Definition opt_rel {A} (R : A -> A -> Prop) (a' a : option A) : Prop :=
  match a', a with
  | Some x', Some x => R x' x
  | None, None => True
  | _, _ => False
  end.

(** The library objects the class calls, with some of their answers replaced
    by the exception [e]: a model [m'] whose [predict] and [predict_classes]
    answer as those of [m] or raise [e]; *)
Definition model_or (e : exn) (m' m : Model) : Prop :=
  (forall a, outcome_or e eq (predict m' a) (predict m a)) /\
  (forall a, outcome_or e eq (predict_classes m' a) (predict_classes m a)).

(** a tree whose [query] does; *)
Definition tree_or (e : exn) (t' t : KDTreeObj) : Prop :=
  forall data, outcome_or e eq (query t' data) (query t data).

(** a Keras learner whose [predict] and [fit] do, the fitted learners being
    related in the same way; *)
Inductive keras_or (e : exn) : KerasObj -> KerasObj -> Prop :=
| keras_or_intro (p' p : matrix -> result matrix)
    (f' f : option matrix -> option matrix -> nat -> nat -> result KerasObj) :
    (forall data, outcome_or e eq (p' data) (p data)) ->
    (forall a b epochs batch,
       f' a b epochs batch = Raise e \/
       (exists x, f' a b epochs batch = Raise x /\ f a b epochs batch = Raise x) \/
       (exists k' k, f' a b epochs batch = Ok k' /\ f a b epochs batch = Ok k /\
                     keras_or e k' k)) ->
    keras_or e (mk_KerasObj p' f') (mk_KerasObj p f).

Definition learner_or (e : exn) (l' l : Learner) : Prop :=
  match l', l with
  | KDTreeL t', KDTreeL t => tree_or e t' t
  | KerasL k', KerasL k => keras_or e k' k
  | _, _ => False
  end.

(** [train_test_split] and the constructor [KDTree]. *)
Definition split_or {RandomState : Type} (e : exn)
  (split' split : RandomState -> option Z -> Q -> matrix -> row ->
                  result (matrix * row)) : Prop :=
  forall g rs size a b, outcome_or e eq (split' g rs size a b) (split g rs size a b).

Definition KDTree_or (e : exn) (KD' KD : option matrix -> result KDTreeObj)
  : Prop :=
  forall pts, outcome_or e (tree_or e) (KD' pts) (KD pts).

(** Two objects that hold the same values, and library objects related as
    above. *)
Definition same_up_to (e : exn) (s' s : SAFE) : Prop :=
  n_features s' = n_features s /\ combinations_mode s' = combinations_mode s /\
  algorithm s' = algorithm s /\ combinations s' = combinations s /\
  tree s' = tree s /\ X s' = X s /\ y_better s' = y_better s /\
  y_worst s' = y_worst s /\ y s' = y s /\ aim s' = aim s /\
  n_points s' = n_points s /\ random_state s' = random_state s /\
  n_combinations s' = n_combinations s /\
  opt_rel (model_or e) (model s') (model s) /\
  opt_rel (learner_or e) (learner s') (learner s).

(** The end [o'] of a run is the end [o] of another, or the exception [e]:
    the same value or exception with the same object (up to the library
    objects), or [e]. *)
Definition ended_or {A} (e : exn) (Ra : A -> A -> Prop)
  (o' o : result A * SAFE) : Prop :=
  match fst o' with
  | Ok a' => match fst o with
             | Ok a => Ra a' a /\ same_up_to e (snd o') (snd o)
             | Raise _ => False
             end
  | Raise x => x = e \/ (fst o = Raise x /\ same_up_to e (snd o') (snd o))
  end.

(** The method [c'], run with library objects of which some answers are
    replaced by [e], ends as the method [c] does with the original library
    objects, or raises [e]: no exception of a library call is caught, turned
    into a value or into another exception. *)
Definition propagates {A} (e : exn) (Ra : A -> A -> Prop) (c' c : M A) : Prop :=
  forall s' s, same_up_to e s' s -> ended_or e Ra (c' s') (c s).

(** ** Objects for the examples *)

Definition sum_row (r : row) : Q := fold_right Qplus 0%Q r.

(** A model for the examples: the prediction is the sum of the features, the
    class is 1 from one half on. *)
Definition example_model : Model :=
  {| predict := fun a => Ok (map (fun r => [sum_row r]) a);
     predict_classes := fun a =>
       Ok (Labels1 (map (fun r => if Qle_bool (1 # 2) (sum_row r)
                                  then 1%Q else 0%Q) a)) |}.

(** A [train_test_split] for objects that never subsample. *)
Definition no_split (g : unit) (rs : option Z) (size : Q) (a : matrix) (b : row)
  : result (matrix * row) := Raise ValueError.

(** A [train_test_split] that keeps one sample, chosen by the generator. *)
Definition pick_one (g : bool) (rs : option Z) (size : Q) (a : matrix) (b : row)
  : result (matrix * row) :=
  if g then Ok (firstn 1 a, firstn 1 b) else Ok (skipn 1 a, skipn 1 b).

(** A [KDTree] for the examples: exhaustive search, the first point on
    ties; [ValueError] for an array without a row or a column. *)
Definition nearest_index (pts : matrix) (q : row) : nat :=
  argmin (map (fun p => sqdist p q) pts).

Definition linear_KDTree (a : option matrix) : result KDTreeObj :=
  match a with
  | Some ((x :: p) :: pts) =>
      Ok (mk_KDTreeObj (fun data =>
            match data with
            | [] => Raise ValueError
            | _ => Ok (map (nearest_index ((x :: p) :: pts)) data)
            end))
  | _ => Raise ValueError
  end.

(** An external learner whose output layer is not a sigmoid: it answers 2
    for every sample; it cannot be trained. *)
Definition two_learner : KerasObj :=
  mk_KerasObj (fun data => Ok (map (fun _ => [2%Q]) data))
              (fun _ _ _ _ => Raise ValueError).

Definition example_X : ndarray := mk_ndarray 2 [[1; 2]; [3; 4]]%Q.

Definition example_y : row := [0; 10]%Q.

Definition example_object : SAFE := __init__ "all" 10 None None.

Definition example_scanned : SAFE :=
  snd (scan unit no_split tt example_model example_X example_y "worst"
         example_object).

(** Two samples with the same features and different labels. *)
Definition twin_X : ndarray := mk_ndarray 1 [[1]; [1]]%Q.

Definition twin_y : row := [0; 1]%Q.

Definition twin_scanned : SAFE :=
  snd (scan unit no_split tt example_model twin_X twin_y "worst" example_object).

Definition search_object : SAFE :=
  set_model (Some example_model)
    (set_n_features (Some 2) (__init__ "forward_selection" 10 None None)).

Definition two_features : SAFE := set_n_features (Some 2) example_object.

Definition three_features_one_by_one : SAFE :=
  set_n_features (Some 3) (__init__ "one-by-one" 10 None None).

(** The object of the example after [learn('ann', learner=two_learner)]. *)
Definition example_ann : SAFE :=
  snd (learn linear_KDTree "ann" "worst" (Some (KerasL two_learner)) false
         example_scanned).

(** ** Further vocabulary *)

(** A mode [_generate_combination] knows. *)
Definition known_mode (mode : string) : Prop :=
  mode = "all"%string \/ mode = "genetic"%string \/
  mode = "one-by-one"%string \/ mode = "random"%string.

(** A round of the search that takes, among the masks with one more feature
    of [m] set to 0, one whose loss is best ([le] is [<=] for the min search
    and [>=] for the max search). *)
Definition best_move (n : nat) (le : Q -> Q -> Prop) (loss : row -> Q)
  (m m' : row) : Prop :=
  (exists i, i < n /\ ~ (nth i m 0 == 0)%Q /\ m' = set_nth i 0%Q m) /\
  forall i, i < n -> ~ (nth i m 0 == 0)%Q ->
            le (loss m') (loss (set_nth i 0%Q m)).

(** No mask with one more feature of [r] set to 0 has a better loss than
    [r]. *)
Definition local_optimum (n : nat) (le : Q -> Q -> Prop) (loss : row -> Q)
  (r : row) : Prop :=
  forall i, i < n -> ~ (nth i r 0 == 0)%Q -> le (loss r) (loss (set_nth i 0%Q r)).

(** The mask a search returns for a sample, as a function of what the search
    reads from the object: [n_features] and the model. *)
Definition search_result (better : row -> row -> result bool)
  (pick : list row -> result row) (n : nat) (mdl : Model) (data : row)
  (label : Q) : result row :=
  rbind (sample_loss mdl data label (np_ones n)) (fun best_loss =>
  fs_loop better pick (sample_loss mdl data label) n n (np_ones n) best_loss).

(** The body of the two loops of [scan] in mode ['forward_selection'], for
    the field read by [field] and written by [set_field]. *)
Definition store_search (field : SAFE -> option matrix)
  (set_field : option matrix -> SAFE -> SAFE) (search : row -> Q -> M row)
  (ys : row) (ij : nat * row) : M unit :=
  bind (lift (index ys (fst ij))) (fun label =>
  bind (search (snd ij) label) (fun m =>
  bind get (fun s1 =>
  bind (lift (assign_row (fst ij) m (field s1))) (fun v =>
  modify (set_field v))))).

(** The object when the loop of mode ['forward_selection'] starts. *)
Definition before_search (mdl : Model) (X0 : ndarray) (aim0 : string)
  (s : SAFE) : SAFE :=
  set_aim (Some aim0)
    (set_model (Some mdl)
       (set_y_worst (Some (np_zeros2 (length (arr_rows X0)) (ncols X0)))
          (set_y_better (Some (np_zeros2 (length (arr_rows X0)) (ncols X0)))
             (set_X (Some (arr_rows X0))
                (set_n_features (Some (ncols X0)) s))))).

(** What a returned [scan] leaves in the object besides the arrays. *)
Definition scanned_with (mdl : Model) (n : nat) (aim0 : string) (s : SAFE)
  : Prop :=
  aim s = Some aim0 /\ model s = Some mdl /\ n_features s = Some n.

(** The object after the four assignments [learn] starts with, holding the
    learner [l]. *)
Definition learnt (s : SAFE) (algorithm0 aim0 : string) (l : option Learner)
  : SAFE :=
  set_learner l
    (set_algorithm (Some algorithm0)
       (set_y (chosen_masks s aim0) (set_aim (chosen_aim s aim0) s))).

(** A row of data cleaned with a mask: where the mask is 1 the entry is the
    entry of the data, where the mask is 0 it is 0. *)
Definition masked_row (mask d c : row) : Prop :=
  length c = length d /\
  forall j, j < length d ->
    (nth j mask 0%Q = 1%Q /\ (nth j c 0 == nth j d 0)%Q) \/
    (nth j mask 0%Q = 0%Q /\ (nth j c 0 == 0)%Q).

(** The sum of column [j] of [a]: for 0/1 masks, the number of masks that
    select feature [j]. *)
Definition column_sum (a : matrix) (j : nat) : Q :=
  fold_right Qplus 0%Q (map (fun r => nth j r 0%Q) a).

(** [sc] are robustness scores of the [n] features of the mask array [a]:
    one [nan] per column when [a] has no row; no finite score when no mask
    selects any feature; otherwise numbers from 0 to 100, a score 0 for
    exactly the features no mask selects, and no lower score for a feature
    that more masks select. *)
Definition scores_of (n : nat) (a : matrix) (sc : scores) : Prop :=
  match a with
  | [] => sc = nan_per_column
  | _ :: _ =>
      exists l, sc = score_list l /\ length l = n /\
        ((forall j, j < n -> (column_sum a j == 0)%Q) ->
         Forall (fun x => x = NotFinite) l) /\
        ((exists j, j < n /\ ~ (column_sum a j == 0)%Q) ->
         exists qs, l = map Finite qs /\
           forall i, i < n ->
             (0 <= nth i qs 0 <= 100)%Q /\
             ((nth i qs 0 == 0)%Q <-> (column_sum a i == 0)%Q) /\
             forall j, j < n -> (column_sum a i <= column_sum a j)%Q ->
                       (nth i qs 0 <= nth j qs 0)%Q)
  end.

(** A computation keeps the property [P] of the object, whatever its
    outcome. *)
Definition preserves {A} (P : SAFE -> Prop) (c : M A) : Prop :=
  forall s r s', P s -> c s = (r, s') -> P s'.

(** What [learn] has written and [get_selection] reads is the same in the
    two objects. *)
Definition same_learning (s0 s : SAFE) : Prop :=
  algorithm s = algorithm s0 /\ learner s = learner s0 /\ y s = y s0.

(** An array with at least one entry. *)
Definition has_entry (data : matrix) : Prop :=
  exists r, In r data /\ r <> [].

(** ** Further objects for the examples *)

(** A [train_test_split] that keeps the first two samples. *)
Definition keep_two (g : unit) (rs : option Z) (size : Q) (a : matrix) (b : row)
  : result (matrix * row) := Ok (firstn 2 a, firstn 2 b).

Definition three_X : ndarray := mk_ndarray 2 [[1; 2]; [3; 4]; [5; 6]]%Q.

Definition three_y : row := [0; 10; 3]%Q.

(** The model of the examples, except that it raises [ZeroDivisionError] on
    an array with a row that adds up to 0. *)
Definition strict_model : Model :=
  {| predict := fun a =>
       if existsb (fun r => Qeq_bool (sum_row r) 0) a
       then Raise ZeroDivisionError
       else predict example_model a;
     predict_classes := predict_classes example_model |}.

(** An [accuracy_score] that raises [ValueError] on 1-d labels and answers 0
    on one-hot labels. *)
Definition picky_accuracy : accuracy_fn :=
  fun y_true _ => match y_true with
                  | Labels1 _ => Raise ValueError
                  | Labels2 _ => Ok 0%Q
                  end.

(** * Properties *)

(** ** Lists and arrays *)

Lemma set_nth_length {A} (i : nat) (v : A) (l : list A) :
  length (set_nth i v l) = length l.
Proof.
  revert i; induction l as [|a t IH]; intros [|i]; simpl; auto.
Qed.

Lemma nth_set_nth_eq {A} (i : nat) (v d : A) (l : list A) :
  i < length l -> nth i (set_nth i v l) d = v.
Proof.
  revert i; induction l as [|a t IH]; intros [|i] H; simpl in *; try lia; auto.
  apply IH; lia.
Qed.

Lemma nth_set_nth_neq {A} (i j : nat) (v d : A) (l : list A) :
  i <> j -> nth j (set_nth i v l) d = nth j l d.
Proof.
  revert i j; induction l as [|a t IH]; intros [|i] [|j] H; simpl; auto; try lia.
Qed.

Lemma set_nth_idem {A} (i : nat) (v : A) (l : list A) :
  set_nth i v (set_nth i v l) = set_nth i v l.
Proof.
  revert i; induction l as [|a t IH]; intros [|i]; simpl; auto.
  now rewrite IH.
Qed.

Lemma nth_repeat_lt {A} (a d : A) (n i : nat) : i < n -> nth i (repeat a n) d = a.
Proof.
  revert i; induction n as [|n IH]; intros [|i] H; simpl; try lia; auto.
  apply IH; lia.
Qed.

Lemma In_set_nth {A} (i : nat) (v x : A) (l : list A) :
  In x (set_nth i v l) -> x = v \/ In x l.
Proof.
  revert i; induction l as [|a t IH]; intros [|i]; simpl; auto.
  - intros [H|H]; auto.
  - intros [H|H]; auto. destruct (IH _ H); auto.
Qed.

Lemma binary_0 : binary 0%Q.
Proof. now left. Qed.

Lemma binary_1 : binary 1%Q.
Proof. now right. Qed.

Lemma binary_row_ones (n : nat) : binary_row (np_ones n).
Proof.
  unfold binary_row, np_ones. apply Forall_forall. intros x H.
  apply repeat_spec in H. subst. apply binary_1.
Qed.

Lemma binary_row_zeros (n : nat) : binary_row (np_zeros n).
Proof.
  unfold binary_row, np_zeros. apply Forall_forall. intros x H.
  apply repeat_spec in H. subst. apply binary_0.
Qed.

Lemma binary_row_set_nth (i : nat) (r : row) :
  binary_row r -> binary_row (set_nth i 0%Q r).
Proof.
  unfold binary_row. rewrite !Forall_forall. intros H x Hx.
  apply In_set_nth in Hx. destruct Hx as [->|Hx]; auto using binary_0.
Qed.

Lemma binary_matrix_set_nth (i : nat) (r : row) (m : matrix) :
  binary_row r -> binary_matrix m -> binary_matrix (set_nth i r m).
Proof.
  unfold binary_matrix. rewrite !Forall_forall. intros Hr H x Hx.
  apply In_set_nth in Hx. destruct Hx as [->|Hx]; auto.
Qed.

Lemma binary_matrix_zeros2 (r c : nat) : binary_matrix (np_zeros2 r c).
Proof.
  unfold binary_matrix, np_zeros2. apply Forall_forall. intros x H.
  apply repeat_spec in H. subst. apply binary_row_zeros.
Qed.

Lemma binary_matrix_ones2 (r c : nat) : binary_matrix (np_ones2 r c).
Proof.
  unfold binary_matrix, np_ones2. apply Forall_forall. intros x H.
  apply repeat_spec in H. subst. apply binary_row_ones.
Qed.

(** ** itertools.product([0, 1], repeat=n) *)

Lemma product01_step (n : nat) :
  itertools_product [0%Q; 1%Q] (S n) =
  map (cons 0%Q) (itertools_product [0%Q; 1%Q] n) ++
  map (cons 1%Q) (itertools_product [0%Q; 1%Q] n).
Proof. simpl. now rewrite app_nil_r. Qed.

Lemma product01_length (n : nat) :
  length (itertools_product [0%Q; 1%Q] n) = 2 ^ n.
Proof.
  induction n as [|n IH]; [reflexivity|].
  rewrite product01_step, length_app, !length_map, IH. simpl. lia.
Qed.

Lemma product01_In (n : nat) (v : row) :
  In v (itertools_product [0%Q; 1%Q] n) <-> length v = n /\ binary_row v.
Proof.
  revert v; induction n as [|n IH]; intros v.
  - simpl. split.
    + intros [<-|[]]. split; [reflexivity | constructor].
    + intros [H _]. left. destruct v; [reflexivity | discriminate].
  - rewrite product01_step, in_app_iff, !in_map_iff. split.
    + intros [[w [<- Hw]]|[w [<- Hw]]]; apply IH in Hw; destruct Hw as [Hl Hb];
        (split; [simpl; now rewrite Hl | constructor; auto using binary_0, binary_1]).
    + intros [Hl Hb]. destruct v as [|q w]; [discriminate|].
      inversion Hb as [|? ? Hq Hw]; subst.
      assert (In w (itertools_product [0%Q; 1%Q] n)) as Hin
        by (apply IH; split; [now inversion Hl | exact Hw]).
      destruct Hq as [->| ->]; [left | right]; exists w; auto.
Qed.

Lemma product01_NoDup (n : nat) : NoDup (itertools_product [0%Q; 1%Q] n).
Proof.
  induction n as [|n IH].
  - simpl. constructor; [intros [] | constructor].
  - rewrite product01_step.
    assert (forall q : Q, NoDup (map (cons q) (itertools_product [0%Q; 1%Q] n))) as Hm.
    { intros q. apply Injective_map_NoDup; [|exact IH].
      intros a b H. now inversion H. }
    apply NoDup_app; auto.
    intros x H0 H1. apply in_map_iff in H0. apply in_map_iff in H1.
    destruct H0 as [a [<- _]]. destruct H1 as [b [H _]]. discriminate.
Qed.

Lemma np_flip_length (m : matrix) : length (np_flip m) = length m.
Proof. unfold np_flip. now rewrite length_rev, length_map. Qed.

Lemma np_flip_In (m : matrix) (v : row) : In v (np_flip m) <-> In (rev v) m.
Proof.
  unfold np_flip. rewrite <- in_rev, in_map_iff. split.
  - intros [w [<- Hw]]. now rewrite rev_involutive.
  - intros H. exists (rev v). split; [apply rev_involutive | exact H].
Qed.

Lemma np_flip_NoDup (m : matrix) : NoDup m -> NoDup (np_flip m).
Proof.
  intros H. unfold np_flip. apply NoDup_rev.
  apply Injective_map_NoDup; [|exact H].
  intros a b Hab. rewrite <- (rev_involutive a), <- (rev_involutive b).
  now rewrite Hab.
Qed.

Lemma binary_row_rev (v : row) : binary_row (rev v) <-> binary_row v.
Proof.
  unfold binary_row. rewrite !Forall_forall. split; intros H x Hx; apply H.
  - now apply in_rev in Hx.
  - now apply in_rev.
Qed.

Lemma all_combinations_In (n : nat) (v : row) :
  In v (all_combinations n) <-> length v = n /\ binary_row v.
Proof.
  unfold all_combinations. rewrite np_flip_In, product01_In, length_rev.
  now rewrite binary_row_rev.
Qed.

(** ** _generate_combination *)

Lemma generate_all (s : SAFE) (n : nat) :
  combinations_mode s = "all"%string -> n_features s = Some n ->
  _generate_combination s = (Ok tt, set_combinations (Some (all_combinations n)) s).
Proof.
  intros Hm Hn. unfold _generate_combination, bind, get, modify, ret.
  rewrite Hm, Hn. reflexivity.
Qed.

Lemma generate_one_by_one (s : SAFE) (n : nat) :
  combinations_mode s = "one-by-one"%string -> n_features s = Some n ->
  _generate_combination s =
  (Ok tt, set_combinations (Some (one_by_one_combinations n)) s).
Proof.
  intros Hm Hn. unfold _generate_combination, bind, get, modify, ret.
  rewrite Hm, Hn. reflexivity.
Qed.

Lemma set2_length (i j : nat) (v : Q) (m : matrix) :
  length (set2 i j v m) = length m.
Proof. apply set_nth_length. Qed.

Lemma fold_set2_length (l : list nat) (m : matrix) :
  length (fold_left (fun m i => set2 i i 0%Q m) l m) = length m.
Proof.
  revert m; induction l as [|j l IH]; intros m; simpl; auto.
  now rewrite IH, set2_length.
Qed.

Lemma fold_set2_nth (l : list nat) (m : matrix) (i : nat) :
  (forall j, In j l -> j < length m) ->
  nth i (fold_left (fun m j => set2 j j 0%Q m) l m) [] =
  if existsb (Nat.eqb i) l then set_nth i 0%Q (nth i m []) else nth i m [].
Proof.
  revert m; induction l as [|j l IH]; intros m Hl; simpl; auto.
  rewrite IH by (intros k Hk; rewrite set2_length; apply Hl; now right).
  unfold set2. destruct (Nat.eqb_spec i j) as [->|Hij]; simpl.
  - rewrite nth_set_nth_eq by (apply Hl; now left).
    rewrite set_nth_idem. now destruct (existsb (Nat.eqb j) l).
  - now rewrite nth_set_nth_neq by congruence.
Qed.

Lemma existsb_seq (i a len : nat) :
  existsb (Nat.eqb i) (seq a len) = ((a <=? i) && (i <? a + len))%bool.
Proof.
  destruct (existsb (Nat.eqb i) (seq a len)) eqn:E.
  - apply existsb_exists in E. destruct E as [x [Hx Hix]].
    apply Nat.eqb_eq in Hix; subst x. apply in_seq in Hx.
    symmetry. apply andb_true_iff. split; [apply Nat.leb_le | apply Nat.ltb_lt]; lia.
  - symmetry. apply not_true_is_false. intros H. apply andb_true_iff in H.
    destruct H as [H1 H2]. apply Nat.leb_le in H1. apply Nat.ltb_lt in H2.
    assert (existsb (Nat.eqb i) (seq a len) = true) as E'.
    { apply existsb_exists. exists i. split; [apply in_seq; lia | apply Nat.eqb_refl]. }
    congruence.
Qed.

Lemma one_by_one_row (n i : nat) :
  i < n + 1 ->
  nth i (one_by_one_combinations n) [] =
  if ((1 <=? i) && (i <? n))%bool then set_nth i 0%Q (np_ones n) else np_ones n.
Proof.
  intros Hi. unfold one_by_one_combinations.
  rewrite fold_set2_nth.
  - rewrite existsb_seq. unfold np_ones2. rewrite nth_repeat_lt by lia.
    destruct (Nat.leb_spec 1 i) as [E1|E1]; [|reflexivity].
    rewrite !andb_true_l.
    destruct (Nat.ltb_spec i (1 + (n - 1))), (Nat.ltb_spec i n);
      reflexivity || lia.
  - intros j Hj. apply in_seq in Hj. unfold np_ones2. rewrite repeat_length. lia.
Qed.

Lemma one_by_one_length (n : nat) : length (one_by_one_combinations n) = n + 1.
Proof.
  unfold one_by_one_combinations, np_ones2.
  now rewrite fold_set2_length, repeat_length.
Qed.

Lemma one_by_one_In (n : nat) (r : row) :
  In r (one_by_one_combinations n) ->
  r = np_ones n \/ exists i, 1 <= i < n /\ r = set_nth i 0%Q (np_ones n).
Proof.
  intros H. apply (In_nth _ _ []) in H. destruct H as [i [Hi Hr]].
  rewrite one_by_one_length in Hi. rewrite one_by_one_row in Hr by exact Hi.
  destruct (1 <=? i) eqn:E1; destruct (i <? n) eqn:E2; simpl in Hr; auto.
  right. exists i. apply Nat.leb_le in E1. apply Nat.ltb_lt in E2. auto.
Qed.

(** C2: in mode ['all'], [_generate_combination] stores the array whose rows
    are exactly the [2^n_features] vectors of 0s and 1s of length
    [n_features], each of them once. *)
Theorem generate_all_enumerates (s : SAFE) (n : nat) :
  combinations_mode s = "all"%string -> n_features s = Some n ->
  exists c,
    _generate_combination s = (Ok tt, set_combinations (Some c) s) /\
    length c = 2 ^ n /\
    NoDup c /\
    forall v, In v c <-> (length v = n /\ binary_row v).
Proof.
  intros Hm Hn. exists (all_combinations n). split; [|split; [|split]].
  - now apply generate_all.
  - unfold all_combinations. now rewrite np_flip_length, product01_length.
  - apply np_flip_NoDup, product01_NoDup.
  - apply all_combinations_In.
Qed.

(** C9: in mode ['one-by-one'], [_generate_combination] stores [n_features+1]
    rows; row [i] for [1 <= i <= n_features-1] has a 0 at feature [i] and 1
    elsewhere; rows 0 and [n_features] are all ones; so feature 0 is 1 in
    every row, and (rows 0 and [n_features] being two rows as soon as there
    is a feature) the all-ones row is stored twice. *)
Theorem generate_one_by_one_rows (s : SAFE) (n : nat) :
  combinations_mode s = "one-by-one"%string -> n_features s = Some n ->
  exists c,
    _generate_combination s = (Ok tt, set_combinations (Some c) s) /\
    length c = n + 1 /\
    (forall r, In r c -> length r = n) /\
    (forall i j, 1 <= i <= n - 1 -> j < n ->
       nth j (nth i c []) 0%Q = if j =? i then 0%Q else 1%Q) /\
    nth 0 c [] = np_ones n /\
    nth n c [] = np_ones n /\
    (forall r, In r c -> 0 < n -> nth 0 r 0%Q = 1%Q) /\
    (1 <= n -> ~ NoDup c).
Proof.
  intros Hm Hn. exists (one_by_one_combinations n).
  split; [now apply generate_one_by_one|].
  split; [apply one_by_one_length|].
  split.
  { intros r Hr. apply one_by_one_In in Hr.
    destruct Hr as [->|[i [_ ->]]]; unfold np_ones;
      now rewrite ?set_nth_length, repeat_length. }
  split.
  { intros i j Hi Hj. rewrite one_by_one_row by lia.
    replace (1 <=? i) with true by (symmetry; apply Nat.leb_le; lia).
    replace (i <? n) with true by (symmetry; apply Nat.ltb_lt; lia).
    simpl. destruct (Nat.eqb_spec j i) as [->|Hji].
    - apply nth_set_nth_eq. unfold np_ones. rewrite repeat_length. lia.
    - rewrite nth_set_nth_neq by congruence. now apply nth_repeat_lt. }
  split; [now rewrite one_by_one_row by lia|].
  split.
  { rewrite one_by_one_row by lia.
    replace (n <? n) with false by (symmetry; apply Nat.ltb_ge; lia).
    now rewrite andb_false_r. }
  split.
  { intros r Hr Hpos. apply one_by_one_In in Hr.
    destruct Hr as [->|[i [Hi ->]]].
    - now apply nth_repeat_lt.
    - rewrite nth_set_nth_neq by lia. now apply nth_repeat_lt. }
  intros Hpos Hnd.
  pose proof (proj1 (NoDup_nth _ []) Hnd) as Hinj. clear Hnd.
  rename Hinj into Hnd.
  specialize (Hnd 0 n). rewrite one_by_one_length in Hnd.
  rewrite !one_by_one_row in Hnd by lia.
  replace (n <? n) with false in Hnd by (symmetry; apply Nat.ltb_ge; lia).
  rewrite andb_false_r in Hnd. simpl in Hnd.
  assert (0 = n) by (apply Hnd; auto; lia). lia.
Qed.

(** ** argmax and argmin *)

Lemma Qltb_lt (a b : Q) : Qltb a b = true <-> (a < b)%Q.
Proof.
  unfold Qltb. rewrite negb_true_iff. split.
  - intros H. apply Qnot_le_lt. intros Hle. apply Qle_bool_iff in Hle. congruence.
  - intros H. apply not_true_is_false. intros Hle. apply Qle_bool_iff in Hle.
    apply (Qlt_not_le _ _ H Hle).
Qed.

Lemma Qltb_ge (a b : Q) : Qltb a b = false <-> (b <= a)%Q.
Proof.
  unfold Qltb. rewrite negb_false_iff. apply Qle_bool_iff.
Qed.

Section ArgFirst.

Variable better : Q -> Q -> bool.
Hypothesis better_trans :
  forall a b c, better a b = false -> better c b = true -> better c a = true.
Hypothesis better_asym : forall a b, better b a = true -> better a b = false.

Lemma better_irrefl (a : Q) : better a a = false.
Proof.
  destruct (better a a) eqn:E; [|reflexivity].
  now rewrite (better_asym _ _ E) in E.
Qed.

Lemma arg_from_spec (l pre : row) (bi : nat) :
  bi < length pre ->
  (forall k, k < length pre -> better (nth k pre 0%Q) (nth bi pre 0%Q) = false) ->
  (forall k, k < bi -> better (nth bi pre 0%Q) (nth k pre 0%Q) = true) ->
  first_best better (fun k => nth k (pre ++ l) 0%Q) (length (pre ++ l))
    (arg_from better bi (nth bi pre 0%Q) (length pre) l).
Proof.
  revert pre bi. induction l as [|x t IH]; intros pre bi Hbi Hle Hlt.
  - simpl. rewrite app_nil_r. repeat split; auto.
  - simpl arg_from.
    assert (length (pre ++ [x]) = S (length pre)) as Hlen
      by (rewrite length_app; simpl; lia).
    assert (nth (length pre) (pre ++ [x]) 0%Q = x) as Hx
      by (rewrite app_nth2, Nat.sub_diag by lia; reflexivity).
    replace (pre ++ x :: t) with ((pre ++ [x]) ++ t)
      by (now rewrite <- app_assoc).
    destruct (better x (nth bi pre 0%Q)) eqn:E.
    + pose proof (IH (pre ++ [x]) (length pre)) as IH'.
      rewrite Hx, Hlen in IH'. apply IH'; clear IH'.
      * lia.
      * intros k Hk.
        destruct (Nat.eq_dec k (length pre)) as [->|Hne].
        -- rewrite Hx. apply better_irrefl.
        -- rewrite app_nth1 by lia. apply better_asym.
           apply (better_trans _ _ _ (Hle k ltac:(lia)) E).
      * intros k Hk. rewrite app_nth1 by lia.
        apply (better_trans _ _ _ (Hle k Hk) E).
    + pose proof (IH (pre ++ [x]) bi) as IH'.
      rewrite (app_nth1 pre [x] 0%Q Hbi), Hlen in IH'. apply IH'; clear IH'.
      * lia.
      * intros k Hk.
        destruct (Nat.eq_dec k (length pre)) as [->|Hne].
        -- now rewrite Hx.
        -- rewrite app_nth1 by lia. apply Hle. lia.
      * intros k Hk. rewrite app_nth1 by lia. now apply Hlt.
Qed.

Lemma arg_first_spec (l : row) :
  l <> [] ->
  first_best better (fun k => nth k l 0%Q) (length l) (arg_first better l).
Proof.
  destruct l as [|x t]; [congruence|]. intros _.
  apply (arg_from_spec t [x] 0); simpl.
  - lia.
  - intros [|k] Hk; [apply better_irrefl | lia].
  - intros k Hk. lia.
Qed.

End ArgFirst.

Lemma argmax_spec (l : row) :
  l <> [] ->
  argmax l < length l /\
  (forall k, k < length l -> (nth k l 0 <= nth (argmax l) l 0)%Q) /\
  (forall k, k < argmax l -> (nth k l 0 < nth (argmax l) l 0)%Q).
Proof.
  intros Hl.
  destruct (arg_first_spec (fun x best => Qltb best x)) with (l := l)
    as [H1 [H2 H3]]; auto.
  - intros a b c Hab Hcb. apply Qltb_ge in Hab. apply Qltb_lt in Hcb.
    apply Qltb_lt. eapply Qle_lt_trans; eauto.
  - intros a b Hab. apply Qltb_lt in Hab. apply Qltb_ge. now apply Qlt_le_weak.
  - fold (argmax l) in *. repeat split; auto.
    + intros k Hk. apply Qltb_ge. now apply H2.
    + intros k Hk. apply Qltb_lt. now apply H3.
Qed.

Lemma argmin_spec (l : row) :
  l <> [] ->
  argmin l < length l /\
  (forall k, k < length l -> (nth (argmin l) l 0 <= nth k l 0)%Q) /\
  (forall k, k < argmin l -> (nth (argmin l) l 0 < nth k l 0)%Q).
Proof.
  intros Hl.
  destruct (arg_first_spec (fun x best => Qltb x best)) with (l := l)
    as [H1 [H2 H3]]; auto.
  - intros a b c Hab Hcb. apply Qltb_ge in Hab. apply Qltb_lt in Hcb.
    apply Qltb_lt. eapply Qlt_le_trans; eauto.
  - intros a b Hab. apply Qltb_lt in Hab. apply Qltb_ge. now apply Qlt_le_weak.
  - fold (argmin l) in *. repeat split; auto.
    + intros k Hk. apply Qltb_ge. now apply H2.
    + intros k Hk. apply Qltb_lt. now apply H3.
Qed.

(** ** Running a method *)

Lemma bind_inv {A B} (c : M A) (k : A -> M B) (s s' : SAFE) (r : result B) :
  bind c k s = (r, s') ->
  (exists a s1, c s = (Ok a, s1) /\ k a s1 = (r, s')) \/
  (exists e, c s = (Raise e, s') /\ r = Raise e).
Proof.
  unfold bind. destruct (c s) as [[a|e] s1]; intros H.
  - left. now exists a, s1.
  - right. exists e. now inversion H.
Qed.

Lemma bind_ok_inv {A B} (c : M A) (k : A -> M B) (s s' : SAFE) (b : B) :
  bind c k s = (Ok b, s') ->
  exists a s1, c s = (Ok a, s1) /\ k a s1 = (Ok b, s').
Proof.
  intros H. apply bind_inv in H. destruct H as [H|[e [_ H]]]; [exact H | discriminate].
Qed.

Lemma get_inv (s s' a : SAFE) : get s = (Ok a, s') -> a = s /\ s' = s.
Proof. unfold get. intros H. now inversion H. Qed.

Lemma modify_inv (f : SAFE -> SAFE) (s s' : SAFE) (r : result unit) :
  modify f s = (r, s') -> r = Ok tt /\ s' = f s.
Proof. unfold modify. intros H. now inversion H. Qed.

Lemma lift_inv {A} (r r' : result A) (s s' : SAFE) :
  lift r s = (r', s') -> r' = r /\ s' = s.
Proof. unfold lift. intros H. now inversion H. Qed.

Lemma ret_inv {A} (a : A) (r : result A) (s s' : SAFE) :
  ret a s = (r, s') -> r = Ok a /\ s' = s.
Proof. unfold ret. intros H. now inversion H. Qed.

Lemma raise_inv {A} (e : exn) (r : result A) (s s' : SAFE) :
  raise e s = (r, s') -> r = Raise e /\ s' = s.
Proof. unfold raise. intros H. now inversion H. Qed.

Lemma rbind_ok_inv {A B} (r : result A) (k : A -> result B) (b : B) :
  rbind r k = Ok b -> exists a, r = Ok a /\ k a = Ok b.
Proof. destruct r as [a|e]; simpl; intros H; [now exists a | discriminate]. Qed.

Lemma rmap_ok_inv {A B} (f : A -> result B) (l : list A) (l' : list B) :
  rmap f l = Ok l' -> Forall2 (fun a b => f a = Ok b) l l'.
Proof.
  revert l'; induction l as [|a t IH]; simpl; intros l' H.
  - inversion H. constructor.
  - apply rbind_ok_inv in H. destruct H as [b [Hb H]].
    apply rbind_ok_inv in H. destruct H as [bs [Hbs H]].
    inversion H; subst. constructor; auto.
Qed.

Lemma Forall2_nth {A B} (P : A -> B -> Prop) (l : list A) (l' : list B)
  (da : A) (db : B) (i : nat) :
  Forall2 P l l' -> i < length l -> P (nth i l da) (nth i l' db).
Proof.
  intros H. revert i. induction H as [|a b l l' Hab H IH]; intros [|i] Hi;
    simpl in *; try lia; auto.
  apply IH. lia.
Qed.

(** [_generate_combination] writes no field but [combinations]. *)
Lemma generate_frame (s s' : SAFE) (r : result unit) :
  _generate_combination s = (r, s') ->
  s' = s \/ exists c, s' = set_combinations (Some c) s.
Proof.
  unfold _generate_combination, bind, get, modify, ret, raise, lift.
  destruct (String.eqb (combinations_mode s) "all" ||
            String.eqb (combinations_mode s) "genetic")%bool;
    destruct (String.eqb (combinations_mode s) "one-by-one");
    destruct (String.eqb (combinations_mode s) "random");
    destruct (n_features s); simpl; intros H; inversion H; subst; eauto.
  all: destruct s; unfold set_combinations; simpl; eauto.
Qed.

(** ** scan: the exhaustive search *)

Ltac step H :=
  apply bind_ok_inv in H;
  let a := fresh "a" in
  let s := fresh "s" in
  let Hc := fresh "Hc" in
  destruct H as (a & s & Hc & H).

Section ScanFacts.

Variable RandomState : Type.
Variable train_test_split :
  RandomState -> option Z -> Q -> matrix -> row -> result (matrix * row).

Lemma scan_search_inv (g : RandomState) (mdl : Model) (X0 : ndarray) (y0 : row)
  (aim0 : string) (s s' : SAFE) :
  combinations_mode s <> "genetic"%string ->
  combinations_mode s <> "forward_selection"%string ->
  scan RandomState train_test_split g mdl X0 y0 aim0 s = (Ok tt, s') ->
  exists Xs ys combs cols,
    (match n_points s with
     | None => Xs = arr_rows X0 /\ ys = y0
     | Some k => train_test_split g (random_state s)
                   (inject_Z (Z.of_nat k) / inject_Z (Z.of_nat (length (arr_rows X0))))%Q
                   (arr_rows X0) y0 = Ok (Xs, ys)
     end) /\
    combs <> [] /\
    rmap (loss_column mdl Xs ys (length (arr_rows X0))) combs = Ok cols /\
    X s' = Some Xs /\ combinations s' = Some combs /\
    y_worst s' = Some (take_rows combs
                         (map argmax (rows_of_columns (length (arr_rows X0)) cols))) /\
    y_better s' = Some (take_rows combs
                         (map argmin (rows_of_columns (length (arr_rows X0)) cols))) /\
    (combinations_mode s = "all"%string -> combs = all_combinations (ncols X0)) /\
    (combinations_mode s = "one-by-one"%string ->
     combs = one_by_one_combinations (ncols X0)).
Proof.
  intros Hg Hf H. unfold scan in H.
  apply String.eqb_neq in Hg. apply String.eqb_neq in Hf.
  step H. apply modify_inv in Hc. destruct Hc as [_ ->].
  step H. apply get_inv in Hc. destruct Hc as [-> ->].
  step H. rename a0 into Xy. simpl in Hc.
  assert (s0 = set_n_features (Some (ncols X0)) s /\
          match n_points s with
          | None => fst Xy = arr_rows X0 /\ snd Xy = y0
          | Some k => train_test_split g (random_state s)
                   (inject_Z (Z.of_nat k) / inject_Z (Z.of_nat (length (arr_rows X0))))%Q
                   (arr_rows X0) y0 = Ok (fst Xy, snd Xy)
          end) as [-> HXy].
  { destruct (n_points s) as [k|].
    - destruct (length (arr_rows X0) =? 0).
      + apply raise_inv in Hc. destruct Hc; discriminate.
      + apply lift_inv in Hc. destruct Hc as [Hc ->]. split; auto.
        rewrite <- Hc. now destruct Xy.
    - apply ret_inv in Hc. destruct Hc as [Hc ->]. inversion Hc. auto. }
  clear Hc.
  step H. apply modify_inv in Hc. destruct Hc as [_ ->].
  step H. apply modify_inv in Hc. destruct Hc as [_ ->].
  step H. apply modify_inv in Hc. destruct Hc as [_ ->].
  step H.
  assert ((combinations_mode s = "all"%string ->
           combinations s0 = Some (all_combinations (ncols X0))) /\
          (combinations_mode s = "one-by-one"%string ->
           combinations s0 = Some (one_by_one_combinations (ncols X0)))) as [Hall Hone].
  { split; intros Hm.
    - rewrite (generate_all _ (ncols X0)) in Hc by (simpl; auto).
      now inversion Hc.
    - rewrite (generate_one_by_one _ (ncols X0)) in Hc by (simpl; auto).
      now inversion Hc. }
  apply generate_frame in Hc.
  step H. apply modify_inv in Hc0. destruct Hc0 as [_ ->].
  step H. apply modify_inv in Hc0. destruct Hc0 as [_ ->].
  simpl in H. rewrite Hg, Hf in H.
  step H. apply get_inv in Hc0. destruct Hc0 as [-> ->].
  step H. apply lift_inv in Hc0. destruct Hc0 as [Hcombs ->].
  step H. apply lift_inv in Hc0. destruct Hc0 as [Hcols ->].
  step H. apply lift_inv in Hc0. destruct Hc0 as [Hiw ->].
  step H. apply modify_inv in Hc0. destruct Hc0 as [_ ->].
  step H. apply lift_inv in Hc0. destruct Hc0 as [Hib ->].
  apply modify_inv in H. destruct H as [_ ->].
  exists (fst Xy), (snd Xy), a6, a7.
  assert (combinations (set_aim (Some aim0) (set_model (Some mdl) s0)) = Some a6)
    as Hcs by (destruct (combinations _); inversion Hcombs; reflexivity).
  unfold arg_axis1 in Hiw, Hib.
  destruct (Nat.eqb_spec (length a6) 0) as [|Hne]; [discriminate|].
  inversion Hiw; inversion Hib; subst a8 a10.
  split; [exact HXy|].
  split; [intros ->; now apply Hne|].
  split; [now symmetry|].
  split; [destruct Hc as [->|[c ->]]; reflexivity|].
  split; [exact Hcs|].
  split; [reflexivity|]. split; [reflexivity|].
  simpl in Hcs.
  split; intros Hm; [apply Hall in Hm | apply Hone in Hm]; congruence.
Qed.

Lemma zip_with_nth {A B C} (f : A -> B -> C) (a : list A) (b : list B)
  (da : A) (db : B) (d : C) (i : nat) :
  i < length a -> i < length b ->
  nth i (zip_with f a b) d = f (nth i a da) (nth i b db).
Proof.
  revert b i; induction a as [|x a IH]; intros [|z b] [|i] Ha Hb;
    simpl in *; try lia; auto.
  apply IH; lia.
Qed.

Lemma zip_with_length {A B C} (f : A -> B -> C) (a : list A) (b : list B) :
  length (zip_with f a b) = Nat.min (length a) (length b).
Proof.
  revert b; induction a as [|x a IH]; intros [|z b]; simpl; auto.
Qed.

Lemma Forall2_length_eq {A B} (P : A -> B -> Prop) (l : list A) (l' : list B) :
  Forall2 P l l' -> length l = length l'.
Proof. induction 1; simpl; auto. Qed.

Lemma nth_map_lt {A B} (f : A -> B) (l : list A) (da : A) (db : B) (i : nat) :
  i < length l -> nth i (map f l) db = f (nth i l da).
Proof.
  revert i; induction l as [|a t IH]; intros [|i] H; simpl in *; try lia; auto.
  apply IH. lia.
Qed.

(** An entry of the loss matrix is the loss of its combination on its
    sample. *)
Lemma loss_column_entry (mdl : Model) (Xs : matrix) (ys : row) (rows : nat)
  (p col : row) (i : nat) :
  one_value_per_sample mdl -> length ys = length Xs ->
  loss_column mdl Xs ys rows p = Ok col ->
  i < length Xs -> i < rows ->
  length col = rows /\ nth i col 0%Q = loss_entry mdl Xs ys p i.
Proof.
  intros Hone Hlen H Hi Hr. unfold loss_column in H. unfold loss_entry.
  apply rbind_ok_inv in H. destruct H as [px [Hpx H]].
  apply rbind_ok_inv in H. destruct H as [pr [Hpr H]].
  apply rbind_ok_inv in H. destruct H as [d [Hd H]].
  rewrite Hpx, Hpr.
  assert (length (flatten pr) = length Xs) as Hfl.
  { rewrite (Hone _ _ Hpr). symmetry.
    apply (Forall2_length_eq _ _ _ (rmap_ok_inv _ _ _ Hpx)). }
  unfold broadcast1 in Hd. rewrite Hfl, Hlen, Nat.eqb_refl in Hd.
  injection Hd as <-.
  assert (nth i (zip_with abs_diff (flatten pr) ys) 0%Q =
          abs_diff (nth i (flatten pr) 0%Q) (nth i ys 0%Q)) as Hnth
    by (apply zip_with_nth; lia).
  unfold assign_column in H.
  destruct (Nat.eqb_spec
              (length (zip_with abs_diff (flatten pr) ys)) rows)
    as [E|E].
  - injection H as <-. auto.
  - destruct (zip_with abs_diff (flatten pr) ys) as [|x [|x' t]] eqn:Ez;
      try discriminate.
    injection H as <-. rewrite repeat_length. split; [reflexivity|].
    rewrite nth_repeat_lt by exact Hr. rewrite <- Hnth.
    assert (length (zip_with abs_diff (flatten pr) ys) = 1) as E1
      by (now rewrite Ez).
    rewrite zip_with_length in E1.
    assert (i = 0) as -> by lia. reflexivity.
Qed.

(** C1: after a [scan] in a mode other than ['genetic'] and
    ['forward_selection'], row [i] of [y_worst] is the combination with the
    largest loss [|model.predict(p * X)[i] - y[i]|] on sample [i] and row [i]
    of [y_better] the one with the smallest loss, in both cases the first
    such combination of [self.combinations]. *)
Theorem scan_selects_extreme_losses (g : RandomState) (mdl : Model)
  (X0 : ndarray) (y0 : row) (aim0 : string) (s s' : SAFE) :
  combinations_mode s <> "genetic"%string ->
  combinations_mode s <> "forward_selection"%string ->
  one_value_per_sample mdl ->
  scan RandomState train_test_split g mdl X0 y0 aim0 s = (Ok tt, s') ->
  exists Xs ys combs yw yb,
    (match n_points s with
     | None => Xs = arr_rows X0 /\ ys = y0
     | Some k => train_test_split g (random_state s)
                   (inject_Z (Z.of_nat k) / inject_Z (Z.of_nat (length (arr_rows X0))))%Q
                   (arr_rows X0) y0 = Ok (Xs, ys)
     end) /\
    X s' = Some Xs /\ combinations s' = Some combs /\
    y_worst s' = Some yw /\ y_better s' = Some yb /\
    length yw = length (arr_rows X0) /\ length yb = length (arr_rows X0) /\
    (length ys = length Xs ->
     forall i, i < length Xs -> i < length (arr_rows X0) ->
     let loss := fun j => loss_entry mdl Xs ys (nth j combs []) i in
     exists jw jb,
       jw < length combs /\ nth i yw [] = nth jw combs [] /\
       (forall j, j < length combs -> (loss j <= loss jw)%Q) /\
       (forall j, j < jw -> (loss j < loss jw)%Q) /\
       jb < length combs /\ nth i yb [] = nth jb combs [] /\
       (forall j, j < length combs -> (loss jb <= loss j)%Q) /\
       (forall j, j < jb -> (loss jb < loss j)%Q)).
Proof.
  intros Hg Hf Hone H.
  destruct (scan_search_inv _ _ _ _ _ _ _ Hg Hf H)
    as (Xs & ys & combs & cols & HXy & Hne & Hcols & HX & Hcombs & Hw & Hb & _).
  exists Xs, ys, combs. eexists. eexists.
  split; [exact HXy|]. split; [exact HX|]. split; [exact Hcombs|].
  split; [exact Hw|]. split; [exact Hb|].
  set (rows := length (arr_rows X0)) in *.
  split; [unfold take_rows, rows_of_columns; now rewrite !length_map, length_seq|].
  split; [unfold take_rows, rows_of_columns; now rewrite !length_map, length_seq|].
  intros Hlen i Hi Hr loss.
  pose proof (rmap_ok_inv _ _ _ Hcols) as HF.
  pose proof (Forall2_length_eq _ _ _ HF) as Hlc.
  set (li := map (fun c => nth i c 0%Q) cols).
  assert (nth i (rows_of_columns rows cols) [] = li) as Hrow.
  { unfold rows_of_columns. rewrite (nth_map_lt _ _ 0) by (now rewrite length_seq).
    now rewrite seq_nth. }
  assert (length li = length combs) as Hll by (unfold li; now rewrite length_map).
  assert (li <> []) as Hli.
  { intros E. rewrite E in Hll. destruct combs; [now apply Hne | discriminate]. }
  assert (forall j, j < length combs -> nth j li 0%Q = loss j) as Hentry.
  { intros j Hj. unfold li.
    assert (j < length cols) as Hj' by (rewrite <- Hlc; exact Hj).
    rewrite (nth_map_lt _ _ [] _ _ Hj').
    pose proof (Forall2_nth _ _ _ [] [] j HF Hj) as Hcol.
    apply (loss_column_entry _ _ _ _ _ _ i Hone Hlen Hcol Hi Hr). }
  destruct (argmax_spec li Hli) as (Hw1 & Hw2 & Hw3).
  destruct (argmin_spec li Hli) as (Hb1 & Hb2 & Hb3).
  exists (argmax li), (argmin li).
  assert (forall arg : row -> nat,
            nth i (take_rows combs (map arg (rows_of_columns rows cols))) [] =
            nth (arg li) combs []) as Htake.
  { intros arg. unfold take_rows.
    assert (i < length (rows_of_columns rows cols)) as Hi'
      by (unfold rows_of_columns; now rewrite length_map, length_seq).
    rewrite (nth_map_lt _ _ 0) by (now rewrite length_map).
    rewrite (nth_map_lt _ _ [] _ _ Hi'). f_equal. f_equal. exact Hrow. }
  rewrite !Htake.
  rewrite Hll in *.
  split; [exact Hw1|]. split; [reflexivity|].
  split; [intros j Hj; rewrite <- !Hentry by lia; now apply Hw2|].
  split; [intros j Hj; rewrite <- !Hentry by lia; now apply Hw3|].
  split; [exact Hb1|]. split; [reflexivity|].
  split; [intros j Hj; rewrite <- !Hentry by lia; now apply Hb2|].
  intros j Hj; rewrite <- !Hentry by lia; now apply Hb3.
Qed.

End ScanFacts.

(** ** scan returns *)

Lemma rmap_total {A B} (f : A -> result B) (l : list A) :
  (forall a, In a l -> exists b, f a = Ok b) -> exists l', rmap f l = Ok l'.
Proof.
  induction l as [|a t IH]; intros H; simpl.
  - now exists [].
  - destruct (H a) as [b Hb]; [now left|]. rewrite Hb. simpl.
    destruct IH as [l' Hl']; [intros; apply H; now right|]. rewrite Hl'. simpl.
    now exists (b :: l').
Qed.

Lemma loss_column_total (mdl : Model) (Xs : matrix) (ys : row) (p : row) :
  scalar_model mdl -> rectangular (length p) Xs -> length ys = length Xs ->
  exists col, loss_column mdl Xs ys (length Xs) p = Ok col.
Proof.
  intros Hm Hrect Hlen. unfold loss_column.
  destruct (rmap_total (fun r => broadcast1 Qmult p r) Xs) as [px Hpx].
  { intros r Hr. unfold broadcast1.
    rewrite (proj1 (Forall_forall _ _) Hrect r Hr), Nat.eqb_refl. eauto. }
  unfold np_multiply_1_2. rewrite Hpx. cbn [rbind].
  destruct (Hm px) as [pr [Hpr Hfl]]. rewrite Hpr. cbn [rbind].
  assert (length px = length Xs) as Hpxl
    by (symmetry; apply (Forall2_length_eq _ _ _ (rmap_ok_inv _ _ _ Hpx))).
  unfold broadcast1. rewrite Hfl, Hpxl, Hlen, Nat.eqb_refl. cbn [rbind].
  unfold assign_column.
  rewrite zip_with_length, Hfl, Hpxl, Hlen, Nat.min_id, Nat.eqb_refl. eauto.
Qed.

Section ScanReturns.

Variable RandomState : Type.
Variable train_test_split :
  RandomState -> option Z -> Q -> matrix -> row -> result (matrix * row).

Lemma scan_returns (g : RandomState) (mdl : Model) (X0 : ndarray) (y0 : row)
  (aim0 : string) (s : SAFE) :
  exhaustive_mode s -> n_points s = None -> scalar_model mdl ->
  rectangular (ncols X0) (arr_rows X0) -> length y0 = length (arr_rows X0) ->
  exists s', scan RandomState train_test_split g mdl X0 y0 aim0 s = (Ok tt, s').
Proof.
  intros Hmode Hn Hm Hrect Hlen.
  assert (String.eqb (combinations_mode s) "genetic" = false /\
          String.eqb (combinations_mode s) "forward_selection" = false) as [Hg Hf]
    by (destruct Hmode as [-> | ->]; split; reflexivity).
  assert (exists c,
            (forall pre, combinations_mode pre = combinations_mode s ->
                         n_features pre = Some (ncols X0) ->
                         _generate_combination pre =
                         (Ok tt, set_combinations (Some c) pre)) /\
            c <> [] /\ forall p, In p c -> length p = ncols X0) as (c & Hgen & Hne & Hcl).
  { destruct Hmode as [Hall|Hone].
    - exists (all_combinations (ncols X0)). split; [|split].
      + intros pre Hp Hnf. apply generate_all; congruence.
      + intros E. apply (f_equal (@length _)) in E.
        unfold all_combinations in E. rewrite np_flip_length, product01_length in E.
        simpl in E. pose proof (Nat.pow_nonzero 2 (ncols X0)). lia.
      + intros p Hp. now apply all_combinations_In in Hp.
    - exists (one_by_one_combinations (ncols X0)). split; [|split].
      + intros pre Hp Hnf. apply generate_one_by_one; congruence.
      + intros E. apply (f_equal (@length _)) in E.
        rewrite one_by_one_length in E. simpl in E. lia.
      + intros p Hp. apply one_by_one_In in Hp.
        destruct Hp as [->|[i [_ ->]]]; unfold np_ones;
          now rewrite ?set_nth_length, repeat_length. }
  destruct (rmap_total (loss_column mdl (arr_rows X0) y0 (length (arr_rows X0))) c)
    as [cols Hcols].
  { intros p Hp. apply loss_column_total; auto. now rewrite (Hcl p Hp). }
  eexists. unfold scan. cbv [bind modify get ret lift].
  cbn [n_points set_n_features]. rewrite Hn. cbn [fst snd].
  rewrite Hgen by reflexivity.
  cbn [combinations_mode set_n_features]. rewrite Hg, Hf.
  cbn [combinations set_aim set_model set_combinations]. rewrite Hcols.
  unfold arg_axis1.
  destruct (Nat.eqb_spec (length c) 0) as [E|E];
    [destruct c; [congruence | discriminate]|].
  reflexivity.
Qed.

End ScanReturns.

(** ** The greedy search *)

Lemma candidates_length (n : nat) (m : row) :
  length (candidates n m) = selected n m.
Proof.
  unfold candidates, selected. induction (seq 0 n) as [|i l IH]; simpl; auto.
  destruct (Qeq_bool (nth i m 0%Q) 0%Q); simpl; auto.
Qed.

Lemma candidates_In (n : nat) (m c : row) :
  In c (candidates n m) ->
  exists i, i < n /\ Qeq_bool (nth i m 0%Q) 0%Q = false /\ c = set_nth i 0%Q m.
Proof.
  unfold candidates. rewrite in_flat_map. intros [i [Hi Hc]].
  apply in_seq in Hi. exists i.
  destruct (Qeq_bool (nth i m 0%Q) 0%Q); simpl in Hc.
  - contradiction.
  - destruct Hc as [<-|[]]. repeat split; auto; lia.
Qed.

Lemma filter_flip_one (p p' : nat -> bool) (i : nat) (l : list nat) :
  NoDup l -> In i l -> p i = true -> p' i = false ->
  (forall j, j <> i -> p' j = p j) ->
  S (length (filter p' l)) = length (filter p l).
Proof.
  intros Hnd Hin Hp Hp' Hagree. induction l as [|a l IH]; [contradiction|].
  inversion Hnd as [|? ? Hna Hnd']; subst. simpl.
  destruct (Nat.eq_dec a i) as [->|Hai].
  - rewrite Hp, Hp'. simpl. f_equal.
    clear IH Hin Hnd. induction l as [|b l IH]; simpl; auto.
    assert (b <> i) by (intros ->; apply Hna; now left).
    inversion Hnd'; subst. rewrite Hagree by assumption.
    destruct (p b); simpl; rewrite IH; auto; intros Hi; apply Hna; now right.
  - destruct Hin as [Hin|Hin]; [congruence|].
    rewrite Hagree by assumption. destruct (p a); simpl; rewrite IH; auto.
Qed.

Lemma selected_set_nth (n i : nat) (m : row) :
  i < n -> length m = n -> Qeq_bool (nth i m 0%Q) 0%Q = false ->
  S (selected n (set_nth i 0%Q m)) = selected n m.
Proof.
  intros Hi Hlen Hnz. unfold selected. apply filter_flip_one with (i := i).
  - apply seq_NoDup.
  - apply in_seq. lia.
  - now rewrite Hnz.
  - rewrite nth_set_nth_eq by lia. reflexivity.
  - intros j Hj. now rewrite nth_set_nth_neq by congruence.
Qed.

Lemma selected_ones (n : nat) : selected n (np_ones n) = n.
Proof.
  unfold selected.
  rewrite forallb_filter_id; [apply length_seq|].
  apply forallb_forall. intros i Hi. apply in_seq in Hi.
  unfold np_ones. rewrite nth_repeat_lt by lia. reflexivity.
Qed.

Lemma rmap_ok_map {A B} (f : A -> result B) (g : A -> B) (l : list A) :
  (forall a, In a l -> f a = Ok (g a)) -> rmap f l = Ok (map g l).
Proof.
  induction l as [|a t IH]; intros H; simpl; auto.
  rewrite H by now left. simpl. rewrite IH by (intros; apply H; now right).
  reflexivity.
Qed.

Lemma last_cons_default {A} (l : list A) (a b : A) :
  last (b :: l) a = last l b.
Proof.
  revert a b. induction l as [|c t IH]; intros a b; [reflexivity|].
  change (last (c :: t) a = last (c :: t) b). now rewrite !IH.
Qed.

Lemma chain_last {A} (R : A -> A -> Prop) (P : A -> Prop) (l : list A) (a : A) :
  (forall x z, R x z -> P x -> P z) -> chain R a l -> P a -> P (last l a).
Proof.
  intros Hstep. revert a. induction l as [|b t IH]; intros a Hc Ha; [exact Ha|].
  destruct Hc as [Hab Hc]. rewrite last_cons_default. apply IH; eauto.
Qed.

Lemma py_index_from_spec (vs : row) (i0 : nat) (w : Q) :
  In w vs ->
  exists idx, py_index_from i0 [w] (map (fun x => [x]) vs) = Ok (i0 + idx) /\
              idx < length vs /\ (nth idx vs 0 == w)%Q.
Proof.
  revert i0. induction vs as [|x t IH]; intros i0 Hin; [contradiction|].
  simpl. unfold arr_eq, broadcast1. simpl.
  destruct (Qeq_bool x w) eqn:E.
  - exists 0. rewrite Nat.add_0_r. repeat split; [lia|].
    simpl. now apply Qeq_bool_iff.
  - destruct Hin as [->|Hin].
    + rewrite (proj2 (Qeq_bool_iff w w)) in E by reflexivity. discriminate.
    + destruct (IH (S i0) Hin) as [idx [H1 [H2 H3]]].
      exists (S idx). rewrite Nat.add_succ_r. repeat split; auto. lia.
Qed.

Section GreedySearch.

(** [better] on two one-value arrays is the strict comparison [cmp]. *)
Variable cmp : Q -> Q -> bool.
Variable better : row -> row -> result bool.
Hypothesis better_cmp : forall a b : Q, better [a] [b] = Ok (cmp a b).
Hypothesis cmp_compat :
  forall a a' b b', (a == a')%Q -> (b == b')%Q -> cmp a b = cmp a' b'.

(** [min] and [max] return one of the arrays they are given. *)
Lemma py_extremum_member (vs : row) (cur : Q) :
  exists w, py_extremum better [cur] (map (fun x => [x]) vs) = Ok [w] /\
            In w (cur :: vs).
Proof.
  revert cur. induction vs as [|x t IH]; intros cur; simpl.
  - exists cur. auto.
  - rewrite better_cmp. simpl.
    destruct (cmp x cur); [destruct (IH x) as [w [H1 H2]] | destruct (IH cur) as [w [H1 H2]]];
      exists w; (split; [exact H1|]); simpl in *; tauto.
Qed.

Lemma pick_member (v : Q) (vs : row) :
  exists w, py_pick better (map (fun x => [x]) (v :: vs)) = Ok [w] /\
            In w (v :: vs).
Proof. simpl. apply py_extremum_member. Qed.

Variable n : nat.
Variable lossf : row -> result row.
Variable loss : row -> Q.
Hypothesis lossf_value : forall c, length c = n -> lossf c = Ok [loss c].

Lemma fs_loop_spec (k : nat) (best : row) (bl : Q) :
  length best = n -> k <= selected n best -> (bl == loss best)%Q ->
  exists moves,
    fs_loop better (py_pick better) lossf n k best [bl] = Ok (last moves best) /\
    chain (fs_move n (fun a b => cmp a b = true) loss) best moves /\
    length moves <= k.
Proof.
  revert best bl. induction k as [|k IH]; intros best bl Hlen Hsel Hbl.
  - exists []. simpl. auto.
  - simpl fs_loop.
    assert (forall c, In c (candidates n best) -> length c = n) as Hcl.
    { intros c Hc. apply candidates_In in Hc. destruct Hc as [i [_ [_ ->]]].
      now rewrite set_nth_length. }
    rewrite (rmap_ok_map lossf (fun c => [loss c]))
      by (intros c Hc; apply lossf_value; auto).
    simpl rbind.
    rewrite <- (map_map loss (fun x => [x])).
    destruct (map loss (candidates n best)) as [|v vs] eqn:Ev.
    { apply (f_equal (@length Q)) in Ev. rewrite length_map, candidates_length in Ev.
      simpl in Ev. lia. }
    destruct (pick_member v vs) as [w [Hpick Hw]].
    destruct (py_index_from_spec (v :: vs) 0 w Hw) as [idx [Hidx [Hlt Hnth]]].
    fold (py_index [w] (map (fun x => [x]) (v :: vs))) in Hidx.
    remember (map (fun x => [x]) (v :: vs)) as losses eqn:El.
    rewrite Hpick. simpl rbind.
    rewrite better_cmp. simpl rbind.
    destruct (cmp w bl) eqn:Ecmp.
    + rewrite Hidx. simpl rbind.
      assert (idx < length (candidates n best)) as Hlt'.
      { rewrite <- (length_map loss), Ev. exact Hlt. }
      unfold index. destruct (nth_error (candidates n best) idx) as [c|] eqn:Ec;
        [|apply nth_error_None in Ec; lia].
      simpl rbind.
      assert (In c (candidates n best)) as Hcin by (eapply nth_error_In; eauto).
      assert (loss c == w)%Q as Hcw.
      { rewrite <- Hnth, <- Ev.
        rewrite (nth_map_lt loss _ c) by exact Hlt'.
        now rewrite (nth_error_nth _ _ c Ec). }
      destruct (candidates_In _ _ _ Hcin) as [i [Hi [Hnz Hc]]].
      destruct (IH c w) as [moves [Hm1 [Hm2 Hm3]]].
      * now apply Hcl.
      * pose proof (selected_set_nth n i best Hi Hlen Hnz). subst c. lia.
      * now symmetry.
      * exists (c :: moves). rewrite last_cons_default.
        split; [exact Hm1|]. split; [|simpl; lia].
        split; [|exact Hm2].
        exists i. repeat split; auto.
        -- intros Hz. apply Qeq_bool_iff in Hz. congruence.
        -- rewrite <- Ecmp. apply cmp_compat; auto. now symmetry.
    + exists []. simpl. repeat split; auto. lia.
Qed.

End GreedySearch.

Lemma Qltb_compat (a a' b b' : Q) :
  (a == a')%Q -> (b == b')%Q -> Qltb a b = Qltb a' b'.
Proof. intros Ha Hb. unfold Qltb. now rewrite Ha, Hb. Qed.

Lemma sample_loss_value (mdl : Model) (data : row) (label : Q) (c : row) :
  scalar_model mdl -> length c = length data ->
  sample_loss mdl data label c = Ok [loss_value mdl data label c].
Proof.
  intros Hm Hlen. unfold loss_value, sample_loss, np_multiply_1_1, broadcast1.
  rewrite Hlen, Nat.eqb_refl. cbn [rbind].
  match goal with
  | |- context [predict mdl ?a] => destruct (Hm a) as [p [Hp Hl]]
  end.
  rewrite Hp. cbn [rbind].
  destruct (flatten p) as [|v [|v' t]]; try discriminate. reflexivity.
Qed.

Lemma fs_move_length (n : nat) (beats : Q -> Q -> Prop) (loss : row -> Q)
  (m m' : row) : fs_move n beats loss m m' -> length m = n -> length m' = n.
Proof. intros [i [_ [_ [-> _]]]] H. now rewrite set_nth_length. Qed.

Lemma fs_move_binary (n : nat) (beats : Q -> Q -> Prop) (loss : row -> Q)
  (m m' : row) : fs_move n beats loss m m' -> binary_row m -> binary_row m'.
Proof. intros [i [_ [_ [-> _]]]] H. now apply binary_row_set_nth. Qed.

(** The search as a method: it reads [n_features] and [model] and leaves
    the object as it is. *)
Lemma forward_selection_run (cmp : Q -> Q -> bool)
  (better : row -> row -> result bool) (s : SAFE) (n : nat) (mdl : Model)
  (data : row) (label : Q) :
  (forall a b : Q, better [a] [b] = Ok (cmp a b)) ->
  (forall a a' b b', (a == a')%Q -> (b == b')%Q -> cmp a b = cmp a' b') ->
  n_features s = Some n -> model s = Some mdl ->
  scalar_model mdl -> length data = n ->
  exists moves,
    forward_selection better (py_pick better) data label s =
      (Ok (last moves (np_ones n)), s) /\
    chain (fs_move n (fun a b => cmp a b = true) (loss_value mdl data label))
          (np_ones n) moves /\
    length moves <= n.
Proof.
  intros Hb Hc Hn Hmdl Hm Hlen.
  assert (length (np_ones n) = n) as Hones by apply repeat_length.
  destruct (fs_loop_spec cmp better Hb Hc n (sample_loss mdl data label)
              (loss_value mdl data label)
              (fun c Hcl => sample_loss_value mdl data label c Hm
                              (eq_trans Hcl (eq_sym Hlen)))
              n (np_ones n) (loss_value mdl data label (np_ones n)))
    as [moves [H1 [H2 H3]]]; auto.
  - now rewrite selected_ones.
  - reflexivity.
  - exists moves. split; [|split; assumption].
    unfold forward_selection, bind, get, lift. rewrite Hn, Hmdl.
    rewrite (sample_loss_value mdl data label (np_ones n) Hm)
      by (now rewrite Hones, Hlen).
    now rewrite H1.
Qed.

(** C4: the min search starts from the all-ones mask; every accepted round
    sets one more feature to 0 and has a strictly smaller loss than the mask
    before; there are at most [n_features] rounds; the result is a 0/1 mask
    whose loss is at most the loss of the all-ones mask. The max search does
    the same with strictly larger losses. *)
Theorem forward_selection_greedy (s : SAFE) (n : nat) (mdl : Model)
  (data : row) (label : Q) :
  n_features s = Some n -> model s = Some mdl ->
  scalar_model mdl -> length data = n ->
  let loss := loss_value mdl data label in
  (exists moves,
     __combination_search_forward_selection_min data label s =
       (Ok (last moves (np_ones n)), s) /\
     chain (fs_move n Qlt loss) (np_ones n) moves /\
     length moves <= n /\
     length (last moves (np_ones n)) = n /\
     binary_row (last moves (np_ones n)) /\
     (loss (last moves (np_ones n)) <= loss (np_ones n))%Q) /\
  (exists moves,
     __combination_search_forward_selection_max data label s =
       (Ok (last moves (np_ones n)), s) /\
     chain (fs_move n (fun a b => (b < a)%Q) loss) (np_ones n) moves /\
     length moves <= n /\
     length (last moves (np_ones n)) = n /\
     binary_row (last moves (np_ones n)) /\
     (loss (np_ones n) <= loss (last moves (np_ones n)))%Q).
Proof.
  intros Hn Hmdl Hm Hlen loss. split.
  - destruct (forward_selection_run Qltb arr_lt s n mdl data label)
      as [moves [H1 [H2 H3]]]; auto using Qltb_compat.
    assert (chain (fs_move n Qlt loss) (np_ones n) moves) as Hch.
    { clear H1 H3. revert H2. generalize (np_ones n).
      induction moves as [|m t IH]; intros a; simpl; auto.
      intros [[i [Hi [Hnz [Hm' Hlt]]]] Ht]. split; [|now apply IH].
      exists i. repeat split; auto. now apply Qltb_lt. }
    exists moves. split; [exact H1|]. split; [exact Hch|]. split; [exact H3|].
    split; [|split].
    + apply (chain_last _ (fun m => length m = n) _ _
               (fs_move_length n Qlt loss) Hch). apply repeat_length.
    + apply (chain_last _ binary_row _ _ (fs_move_binary n Qlt loss) Hch).
      apply binary_row_ones.
    + apply (chain_last (fs_move n Qlt loss)
               (fun m => (loss m <= loss (np_ones n))%Q) _ _) with (2 := Hch).
      * intros x z [i [_ [_ [_ Hlt]]]] Hx.
        apply Qlt_le_weak. eapply Qlt_le_trans; eauto.
      * apply Qle_refl.
  - destruct (forward_selection_run (fun a b => Qltb b a) arr_gt s n mdl data label)
      as [moves [H1 [H2 H3]]]; auto.
    { intros a a' b b' Ha Hb. now apply Qltb_compat. }
    assert (chain (fs_move n (fun a b => (b < a)%Q) loss) (np_ones n) moves) as Hch.
    { clear H1 H3. revert H2. generalize (np_ones n).
      induction moves as [|m t IH]; intros a; simpl; auto.
      intros [[i [Hi [Hnz [Hm' Hlt]]]] Ht]. split; [|now apply IH].
      exists i. repeat split; auto. now apply Qltb_lt. }
    exists moves. split; [exact H1|]. split; [exact Hch|]. split; [exact H3|].
    split; [|split].
    + apply (chain_last _ (fun m => length m = n) _ _
               (fs_move_length n _ loss) Hch). apply repeat_length.
    + apply (chain_last _ binary_row _ _ (fs_move_binary n _ loss) Hch).
      apply binary_row_ones.
    + apply (chain_last (fs_move n (fun a b => (b < a)%Q) loss)
               (fun m => (loss (np_ones n) <= loss m)%Q) _ _) with (2 := Hch).
      * intros x z [i [_ [_ [_ Hlt]]]] Hx.
        apply Qlt_le_weak. eapply Qle_lt_trans; eauto.
      * apply Qle_refl.
Qed.

(** ** Masks are binary *)

Lemma prim_get (s s' : SAFE) (r : result SAFE) :
  get s = (r, s') -> r = Ok s /\ s' = s.
Proof. unfold get. intros H. now inversion H. Qed.

Ltac inv_prims :=
  repeat match goal with
  | H : modify _ _ = (_, _) |- _ => apply modify_inv in H; destruct H
  | H : get _ = (_, _) |- _ => apply prim_get in H; destruct H
  | H : lift _ _ = (_, _) |- _ => apply lift_inv in H; destruct H
  | H : ret _ _ = (_, _) |- _ => apply ret_inv in H; destruct H
  | H : raise _ _ = (_, _) |- _ => apply raise_inv in H; destruct H
  | H : Ok _ = Raise _ |- _ => discriminate H
  | H : Raise _ = Ok _ |- _ => discriminate H
  | H : Ok ?a = Ok ?b |- _ => assert (a = b) by (now injection H); clear H
  | H : Raise ?a = Raise ?b |- _ => assert (a = b) by (now injection H); clear H
  end; subst.

(** Split [bind c k s = (r, s')] into the run of [c] and what follows. *)
Ltac bsplit H :=
  apply bind_inv in H;
  let a := fresh "a" in
  let s := fresh "s" in
  let Hc := fresh "Hc" in
  let e := fresh "e" in
  let Hr := fresh "Hr" in
  destruct H as [(a & s & Hc & H) | (e & Hc & Hr)]; inv_prims.

Lemma binary_all_combinations (n : nat) : binary_matrix (all_combinations n).
Proof.
  apply Forall_forall. intros v Hv. now apply all_combinations_In in Hv.
Qed.

Lemma binary_one_by_one (n : nat) : binary_matrix (one_by_one_combinations n).
Proof.
  apply Forall_forall. intros v Hv. apply one_by_one_In in Hv.
  destruct Hv as [->|[i [_ ->]]].
  - apply binary_row_ones.
  - apply binary_row_set_nth, binary_row_ones.
Qed.

Lemma binary_take_rows (combs : matrix) (idx : list nat) :
  binary_matrix combs -> binary_matrix (take_rows combs idx).
Proof.
  intros H. unfold take_rows. apply Forall_forall. intros r Hr.
  apply in_map_iff in Hr. destruct Hr as [j [<- _]].
  destruct (Nat.lt_ge_cases j (length combs)) as [Hj|Hj].
  - apply (proj1 (Forall_forall _ _) H). now apply nth_In.
  - rewrite nth_overflow by exact Hj. constructor.
Qed.

(** In the modes ['all'] and ['one-by-one'] the stored combinations are
    binary whatever [_generate_combination] does. *)
Lemma generate_masks_binary (s s' : SAFE) (r : result unit) :
  combinations_mode s = "all"%string \/ combinations_mode s = "one-by-one"%string ->
  masks_binary s -> _generate_combination s = (r, s') ->
  masks_binary s' /\ X s' = X s /\ model s' = model s /\
  combinations_mode s' = combinations_mode s /\
  (r = Ok tt -> exists c, combinations s' = Some c).
Proof.
  intros Hmode (Hc & Hb & Hw & Hy) H.
  unfold _generate_combination, bind, get, modify, ret, raise, lift in H.
  destruct Hmode as [Hm|Hm]; rewrite Hm in H; simpl in H;
    destruct (n_features s) as [n|]; inversion H; subst; clear H;
    unfold masks_binary; simpl; repeat split; auto;
    try discriminate; eauto using binary_all_combinations, binary_one_by_one.
Qed.

Lemma np_round_binary (q : Q) : (0 <= q <= 1)%Q -> binary (np_round q).
Proof.
  intros [H0 H1]. unfold np_round.
  pose proof (Qfloor_le q) as Hfl. pose proof (Qlt_floor q) as Hfu.
  destruct (Qle_lt_or_eq _ _ H1) as [Hlt|Heq].
  - assert (Qfloor q = 0%Z) as ->.
    { assert (inject_Z (Qfloor q) < 1)%Q as Ha by (eapply Qle_lt_trans; eauto).
      assert (0 < inject_Z (Qfloor q + 1))%Q as Hb by (eapply Qle_lt_trans; eauto).
      change 1%Q with (inject_Z 1) in Ha. change 0%Q with (inject_Z 0) in Hb.
      rewrite <- Zlt_Qlt in Ha, Hb. lia. }
    destruct (q - inject_Z 0 ?= 1 # 2)%Q; simpl; [left | left | right]; reflexivity.
  - assert (Qfloor q = 1%Z) as ->.
    { rewrite Heq. reflexivity. }
    assert ((q - inject_Z 1 ?= 1 # 2)%Q = Lt) as ->.
    { rewrite Heq. reflexivity. }
    right. reflexivity.
Qed.

Section MasksBinary.

Variable RandomState : Type.
Variable train_test_split :
  RandomState -> option Z -> Q -> matrix -> row -> result (matrix * row).
Variable KDTree : option matrix -> result KDTreeObj.

Lemma scan_masks_binary (g : RandomState) (mdl : Model) (X0 : ndarray)
  (y0 : row) (aim0 : string) (s s' : SAFE) (r : result unit) :
  combinations_mode s = "all"%string \/ combinations_mode s = "one-by-one"%string ->
  masks_binary s ->
  scan RandomState train_test_split g mdl X0 y0 aim0 s = (r, s') ->
  masks_binary s' /\ combinations_mode s' = combinations_mode s.
Proof.
  intros Hmode Hinv H. unfold scan in H.
  assert (String.eqb (combinations_mode s) "genetic" = false /\
          String.eqb (combinations_mode s) "forward_selection" = false) as [Hg Hf]
    by (destruct Hmode as [-> | ->]; split; reflexivity).
  pose proof Hinv as (Ic & Ib & Iw & Iy).
  bsplit H. bsplit H.
  bsplit H.
  2:{ simpl in Hc. destruct (n_points s); [destruct (_ =? 0)|]; inv_prims;
        (split; [exact Hinv | reflexivity]). }
  assert (s0 = set_n_features (Some (ncols X0)) s) as ->.
  { simpl in Hc. destruct (n_points s); [destruct (_ =? 0)|]; inv_prims; reflexivity. }
  clear Hc.
  bsplit H. bsplit H. bsplit H.
  assert (masks_binary
            (set_y_worst
               (Some (np_zeros2 (length (arr_rows X0)) (ncols X0)))
               (set_y_better
                  (Some (np_zeros2 (length (arr_rows X0)) (ncols X0)))
                  (set_X (Some (fst a)) (set_n_features (Some (ncols X0)) s)))))
    as Hpre.
  { unfold masks_binary; simpl; auto using binary_matrix_zeros2. }
  bsplit H.
  2:{ eapply generate_masks_binary in Hc; [| exact Hmode | exact Hpre].
      destruct Hc as (Hc & _ & _ & Hm0 & _). split; [exact Hc | exact Hm0]. }
  eapply generate_masks_binary in Hc; [| exact Hmode | exact Hpre].
  destruct Hc as ((Jc & Jb & Jw & Jy) & _ & _ & Hm0 & Hcs). simpl in Hm0.
  destruct a0. destruct (Hcs eq_refl) as [c Hcombs]. clear Hcs.
  rewrite Hcombs in Jc. simpl in Jc.
  bsplit H. bsplit H.
  simpl in H. rewrite Hg, Hf in H.
  bsplit H. simpl in H. rewrite Hcombs in H.
  bsplit H.
  bsplit H; [|split; [unfold masks_binary; simpl; rewrite Hcombs; auto | exact Hm0]].
  bsplit H; [|split; [unfold masks_binary; simpl; rewrite Hcombs; auto | exact Hm0]].
  bsplit H.
  bsplit H;
    (split; [unfold masks_binary; simpl; rewrite Hcombs; simpl;
             auto using binary_take_rows | exact Hm0]).
Qed.

Lemma learn_masks_binary (algorithm0 aim0 : string) (learner0 : option Learner)
  (train : bool) (s s' : SAFE) (r : result (option Learner)) :
  masks_binary s -> learn KDTree algorithm0 aim0 learner0 train s = (r, s') ->
  masks_binary s' /\ combinations_mode s' = combinations_mode s.
Proof.
  intros (Ic & Ib & Iw & Iy) H. unfold learn in H.
  assert (opt_binary (chosen_masks s aim0)) as Hy
    by (unfold chosen_masks; destruct (is_str _ _); assumption).
  bsplit H. bsplit H. bsplit H. bsplit H. bsplit H.
  bsplit H.
  2:{ destruct (String.eqb algorithm0 "knn"); [destruct learner0|];
        try bsplit Hc; inv_prims;
        (split; [unfold masks_binary; simpl; auto | reflexivity]). }
  assert (masks_binary s0 /\ combinations_mode s0 = combinations_mode s)
    as [(Jc & Jb & Jw & Jy) Hm0].
  { destruct (String.eqb algorithm0 "knn"); [destruct learner0|];
      try bsplit Hc; inv_prims;
      (split; [unfold masks_binary; simpl; auto | reflexivity]). }
  clear Hc.
  assert (forall (r0 : result unit) s1,
            (if String.eqb algorithm0 "ann" then _ann train else ret tt) s0
            = (r0, s1) ->
            masks_binary s1 /\ combinations_mode s1 = combinations_mode s) as Hann.
  { intros r0 s1 Hr0.
    destruct (String.eqb algorithm0 "ann"); [|inv_prims; repeat split; auto].
    unfold _ann in Hr0. bsplit Hr0.
    destruct (learner s0) as [[t|k]|].
    - destruct train; inv_prims; repeat split; auto.
    - destruct train; [|inv_prims; repeat split; auto].
      bsplit Hr0; repeat split; simpl; auto.
    - bsplit Hr0; repeat split; auto. }
  bsplit H.
  - apply Hann in Hc. bsplit H. exact Hc.
  - now apply Hann in Hc.
Qed.

(** [get_selection] reads the object and leaves it as it is. *)
Lemma get_selection_frame (data : matrix) (s s' : SAFE)
  (r : result (option matrix)) :
  get_selection data s = (r, s') -> s' = s.
Proof.
  unfold get_selection. intros H. bsplit H.
  destruct (is_str (algorithm s) "knn").
  - destruct (learner s) as [[t|k]|]; inv_prims; auto.
    bsplit H; auto. destruct (y s); inv_prims; auto. bsplit H; auto.
  - destruct (is_str (algorithm s) "ann"); inv_prims; auto.
    destruct (learner s) as [[t|k]|]; inv_prims; auto.
    bsplit H; auto.
Qed.

(** In the ['knn'] branch every returned row is a row of [self.y]. *)
Lemma get_selection_knn_rows (data : matrix) (s s' : SAFE) (sel : matrix) :
  is_str (algorithm s) "knn" = true ->
  get_selection data s = (Ok (Some sel), s') ->
  exists t ys ind,
    learner s = Some (KDTreeL t) /\ y s = Some ys /\ query t data = Ok ind /\
    Forall2 (fun i r => nth_error ys i = Some r) ind sel.
Proof.
  intros Halg H. unfold get_selection in H. bsplit H. rewrite Halg in H.
  destruct (learner s) as [[t|k]|]; inv_prims.
  bsplit H. destruct (y s) as [ys|]; inv_prims. bsplit H.
  assert (sel = a0) as -> by congruence.
  match goal with
  | Hq : Ok ?ind = query t data, Hr : Ok ?l = rmap (index ys) ?ind |- _ =>
      exists t, ys, ind; repeat split; auto;
      symmetry in Hr; apply rmap_ok_inv in Hr;
      clear -Hr; induction Hr as [|i r ind' sel' Hi _ IH]; constructor; auto;
      unfold index in Hi; destruct (nth_error ys i); now inversion Hi
  end.
Qed.

(** In the ['ann'] branch the result is the learner's prediction, rounded. *)
Lemma get_selection_ann_rounds (data : matrix) (s s' : SAFE) (sel : matrix) :
  is_str (algorithm s) "knn" = false -> is_str (algorithm s) "ann" = true ->
  get_selection data s = (Ok (Some sel), s') ->
  exists k p, learner s = Some (KerasL k) /\ k_predict k data = Ok p /\
              sel = map (map np_round) p.
Proof.
  intros Hk Ha H. unfold get_selection in H. bsplit H. rewrite Hk, Ha in H.
  destruct (learner s) as [[t|k]|]; inv_prims.
  bsplit H. exists k, a. repeat split; congruence.
Qed.

(** Where the masks are binary: an object made for the mode ['all'] or
    ['one-by-one'] holds binary masks only, from [__init__] on and through
    every [scan] and [learn], however they end; a [scan] that returns leaves
    binary [y_worst] and [y_better]; [get_selection] in the ['knn'] branch
    returns binary rows; in the ['ann'] branch it returns the learner's
    predictions rounded, which are binary when the predictions lie in
    [0, 1]. *)
Theorem masks_are_binary :
  (forall mode k pts rs,
     mode = "all"%string \/ mode = "one-by-one"%string ->
     binary_object (__init__ mode k pts rs)) /\
  (forall s s',
     exhaustive_mode s -> _generate_combination s = (Ok tt, s') ->
     exists c, combinations s' = Some c /\ binary_matrix c) /\
  (forall g mdl X0 y0 aim0 s r s',
     scan RandomState train_test_split g mdl X0 y0 aim0 s = (r, s') ->
     (binary_object s -> binary_object s') /\
     (exhaustive_mode s -> r = Ok tt ->
      exists yw yb, y_worst s' = Some yw /\ y_better s' = Some yb /\
                    binary_matrix yw /\ binary_matrix yb)) /\
  (forall algorithm0 aim0 learner0 train s r s',
     binary_object s -> learn KDTree algorithm0 aim0 learner0 train s = (r, s') ->
     binary_object s') /\
  (forall data s sel s',
     binary_object s -> algorithm s = Some "knn"%string ->
     get_selection data s = (Ok (Some sel), s') ->
     s' = s /\ binary_matrix sel) /\
  (forall data s sel s',
     algorithm s = Some "ann"%string ->
     get_selection data s = (Ok (Some sel), s') ->
     exists k p, learner s = Some (KerasL k) /\ k_predict k data = Ok p /\
                 sel = map (map np_round) p /\
                 ((forall r q, In r p -> In q r -> (0 <= q <= 1)%Q) ->
                  binary_matrix sel)).
Proof.
  split; [|split; [|split; [|split; [|split]]]].
  - intros mode k pts rs Hmode. split; [exact Hmode | repeat split; exact I].
  - intros s s' Hmode H. destruct (n_features s) as [n|] eqn:Hn.
    + destruct Hmode as [Hm|Hm].
      * rewrite (generate_all s n Hm Hn) in H. inversion H. simpl.
        eauto using binary_all_combinations.
      * rewrite (generate_one_by_one s n Hm Hn) in H. inversion H. simpl.
        eauto using binary_one_by_one.
    + unfold _generate_combination, bind, get, raise in H.
      destruct Hmode as [Hm|Hm]; rewrite Hm, Hn in H; discriminate.
  - intros g mdl X0 y0 aim0 s r s' H. split.
    + intros [Hmode Hinv].
      destruct (scan_masks_binary _ _ _ _ _ _ _ _ Hmode Hinv H) as [Hb Hm].
      split; [unfold exhaustive_mode; now rewrite Hm | exact Hb].
    + intros Hmode ->.
      assert (combinations_mode s <> "genetic"%string /\
              combinations_mode s <> "forward_selection"%string) as [Hg Hf]
        by (destruct Hmode as [-> | ->]; split; discriminate).
      destruct (scan_search_inv _ _ _ _ _ _ _ _ _ Hg Hf H)
        as (Xs & ys & combs & cols & _ & _ & _ & _ & _ & Hw & Hb & Hall & Hone).
      assert (binary_matrix combs) as Hbin.
      { destruct Hmode as [Hm|Hm]; [rewrite (Hall Hm) | rewrite (Hone Hm)];
          auto using binary_all_combinations, binary_one_by_one. }
      eauto 8 using binary_take_rows.
  - intros algorithm0 aim0 learner0 train s r s' [Hmode Hinv] H.
    destruct (learn_masks_binary _ _ _ _ _ _ _ Hinv H) as [Hb Hm].
    split; [unfold exhaustive_mode; now rewrite Hm | exact Hb].
  - intros data s sel s' [_ (_ & _ & _ & Iy)] Halg H.
    split; [now apply get_selection_frame in H|].
    destruct (get_selection_knn_rows data s s' sel) as (t & ys & ind & _ & Hy & _ & HF);
      auto.
    { now rewrite Halg. }
    rewrite Hy in Iy. simpl in Iy.
    apply Forall_forall. intros r Hr.
    clear -HF Hr Iy. induction HF as [|i x ind sel Hi _ IH]; [contradiction|].
    destruct Hr as [<-|Hr]; auto.
    apply (proj1 (Forall_forall _ _) Iy). eapply nth_error_In; eauto.
  - intros data s sel s' Halg H.
    destruct (get_selection_ann_rounds data s s' sel) as (k & p & Hl & Hp & ->);
      auto; try (now rewrite Halg).
    exists k, p. repeat split; auto.
    intros Hrange. apply Forall_forall. intros r Hr.
    apply in_map_iff in Hr. destruct Hr as [r0 [<- Hr0]].
    apply Forall_forall. intros q Hq.
    apply in_map_iff in Hq. destruct Hq as [q0 [<- Hq0]].
    apply np_round_binary. eauto.
Qed.

End MasksBinary.

(** ** The nearest-neighbour lookup *)

Lemma Qsquare_nonneg (d : Q) : (0 <= d * d)%Q.
Proof.
  destruct (Qlt_le_dec d 0) as [H|H].
  - assert (d * d == (- d) * (- d))%Q as -> by ring.
    apply Qmult_le_0_compat; lra.
  - now apply Qmult_le_0_compat.
Qed.

Lemma sqdist_nonneg (a b : row) : (0 <= sqdist a b)%Q.
Proof.
  unfold sqdist. revert b. induction a as [|x a IH]; intros [|z b]; simpl;
    try apply Qle_refl.
  specialize (IH b). pose proof (Qsquare_nonneg (x - z)). lra.
Qed.

Lemma sqdist_self (a b : row) : same_point a b -> (sqdist a b == 0)%Q.
Proof.
  unfold sqdist. induction 1 as [|x z a b Hxz _ IH]; simpl; [reflexivity|].
  rewrite IH, Hxz. ring.
Qed.

Lemma sqdist_zero (a b : row) :
  length a = length b -> (sqdist a b <= 0)%Q -> same_point a b.
Proof.
  unfold sqdist. revert b. induction a as [|x a IH]; intros [|z b] Hl H;
    try discriminate; [constructor|].
  simpl in H.
  pose proof (sqdist_nonneg a b) as Hn. unfold sqdist in Hn.
  pose proof (Qsquare_nonneg (x - z)) as Hsq.
  constructor.
  - assert ((x - z) * (x - z) == 0)%Q as Hz by lra.
    destruct (Qmult_integral _ _ Hz); lra.
  - apply IH; [now inversion Hl | lra].
Qed.

Lemma rmap_index_ok {A} (ys : list A) (ind : list nat) :
  Forall (fun k => k < length ys) ind ->
  exists sel, rmap (index ys) ind = Ok sel /\
              Forall2 (fun k r => nth_error ys k = Some r) ind sel.
Proof.
  induction 1 as [|k ind Hk _ [sel [Hs HF]]]; simpl.
  - exists []. split; [reflexivity | constructor].
  - unfold index at 1. destruct (nth_error ys k) as [r|] eqn:E;
      [|apply nth_error_None in E; lia].
    simpl. rewrite Hs. simpl. exists (r :: sel). split; [reflexivity|].
    constructor; auto.
Qed.

Section NearestNeighbour.

Variable KDTree : option matrix -> result KDTreeObj.
Hypothesis KDTree_nearest : nearest_neighbour_tree KDTree.

Lemma learn_knn_run (s : SAFE) (aim0 : string) (train : bool) (t : KDTreeObj) :
  KDTree (X s) = Ok t ->
  learn KDTree "knn" aim0 None train s =
  (Ok (Some (KDTreeL t)), learnt_knn s aim0 t).
Proof.
  intros Ht. unfold learn, bind, get, modify, lift, ret. simpl.
  rewrite Ht. reflexivity.
Qed.

Lemma get_selection_knn_run (s : SAFE) (aim0 : string) (t : KDTreeObj)
  (ys data : matrix) (ind : list nat) :
  chosen_masks s aim0 = Some ys -> query t data = Ok ind ->
  Forall (fun k => k < length ys) ind ->
  exists sel,
    get_selection data (learnt_knn s aim0 t) = (Ok (Some sel), learnt_knn s aim0 t) /\
    Forall2 (fun k r => nth_error ys k = Some r) ind sel.
Proof.
  intros Hy Hq Hind. destruct (rmap_index_ok ys ind Hind) as [sel [Hs HF]].
  exists sel. split; [|exact HF].
  unfold get_selection, bind, get, lift, ret. simpl.
  rewrite Hq, Hy, Hs. reflexivity.
Qed.

Lemma nearest_lt (pts : matrix) (q : row) (k : nat) :
  nearest pts q k -> k < length pts.
Proof.
  intros [p [Hp _]]. apply nth_error_Some. congruence.
Qed.


End NearestNeighbour.

(** ** Exceptions *)

Lemma clean_data_frame (data : matrix) (s s' : SAFE) (r : result matrix) :
  clean_data data s = (r, s') -> s' = s.
Proof.
  unfold clean_data. intros H. bsplit H.
  - apply get_selection_frame in Hc. subst.
    destruct a; [|destruct (has_entryb data)]; inv_prims; auto.
  - now apply get_selection_frame in Hc.
Qed.

Lemma self_model_frame (s s' : SAFE) (r : result Model) :
  self_model s = (r, s') -> s' = s.
Proof.
  unfold self_model. intros H. bsplit H. destruct (model s); inv_prims; auto.
Qed.

Lemma _get_clean_frame (data : matrix) (s s' : SAFE)
  (r : result (Labels * Labels)) :
  _get_clean data s = (r, s') -> s' = s.
Proof.
  unfold _get_clean. intros H.
  bsplit H; [|now apply self_model_frame in Hc].
  apply self_model_frame in Hc. subst.
  bsplit H; auto.
  bsplit H; [|now apply self_model_frame in Hc].
  apply self_model_frame in Hc. subst.
  bsplit H; [|now apply clean_data_frame in Hc].
  apply clean_data_frame in Hc. subst.
  bsplit H; auto.
Qed.

Lemma get_behaviour_frame (data : matrix) (s s' : SAFE)
  (r : result (matrix * matrix)) :
  get_behaviour data s = (r, s') -> s' = s.
Proof.
  unfold get_behaviour. intros H.
  bsplit H; [|now apply self_model_frame in Hc].
  apply self_model_frame in Hc. subst.
  bsplit H; auto.
  bsplit H; [|now apply self_model_frame in Hc].
  apply self_model_frame in Hc. subst.
  bsplit H; [|now apply clean_data_frame in Hc].
  apply clean_data_frame in Hc. subst.
  bsplit H; auto.
Qed.

Lemma get_accuracy_with_frame (acc : result accuracy_fn) (data : matrix)
  (labels : Labels) (s : SAFE) :
  snd (snd (get_accuracy_with acc data labels s)) = s.
Proof.
  unfold get_accuracy_with.
  destruct (_get_clean data s) as [[[original cleaned]|e] s1] eqn:E;
    apply _get_clean_frame in E; subst; simpl; auto.
  destruct (print_both acc (np_argmax1 labels) original cleaned) as [out [[]|e]];
    simpl; auto.
  destruct (print_both acc (Ok labels) original cleaned); reflexivity.
Qed.

(** Evaluating [accuracy_score] in the module raises [NameError]. *)
Lemma accuracy_score_unbound (f : accuracy_fn) :
  rbind (global "accuracy_score") (fun _ => Ok f) = Raise NameError.
Proof. reflexivity. Qed.

Lemma print_both_unbound (e : exn) (y_true : result Labels)
  (original cleaned : Labels) :
  print_both (Raise e) y_true original cleaned = ([], Raise e).
Proof. reflexivity. Qed.

(** C6: [get_accuracy] is meant to print the accuracy before and after
    cleaning; as the module never binds [accuracy_score], every call ends in
    an exception and nothing is printed. *)
Theorem get_accuracy_never_reports (accuracy_score : accuracy_fn)
  (data : matrix) (labels : Labels) (s : SAFE) :
  exists e, get_accuracy accuracy_score data labels s = ([], (Raise e, s)) /\
            (is_ok (fst (_get_clean data s)) = true -> e = NameError).
Proof.
  unfold get_accuracy, get_accuracy_with. rewrite accuracy_score_unbound.
  destruct (_get_clean data s) as [[[original cleaned]|e] s1] eqn:E;
    apply _get_clean_frame in E; subst; simpl.
  - exists NameError. auto.
  - exists e. split; [reflexivity | discriminate].
Qed.

(** C8: [get_candidates] evaluates [self.behaviour], which no [SAFE] object
    has: every call raises [AttributeError] and leaves the object alone. *)
Theorem get_candidates_raises (data : matrix) (threshold : Q) (s : SAFE) :
  get_candidates data threshold s = (Raise AttributeError, s).
Proof. reflexivity. Qed.

(** *** Exceptions of library calls are not caught *)

Section Propagation.

Variable e : exn.

Lemma outcome_or_refl {A} (Ra : A -> A -> Prop) (r : result A) :
  (forall a, Ra a a) -> outcome_or e Ra r r.
Proof. intros H. destruct r; simpl; auto. Qed.

Lemma outcome_or_rbind {A B} (Ra : A -> A -> Prop) (Rb : B -> B -> Prop)
  (r' r : result A) (k' k : A -> result B) :
  outcome_or e Ra r' r ->
  (forall a' a, Ra a' a -> outcome_or e Rb (k' a') (k a)) ->
  outcome_or e Rb (rbind r' k') (rbind r k).
Proof.
  intros Hr Hk. destruct r' as [a'|x], r as [a|x0]; simpl in *.
  - now apply Hk.
  - contradiction.
  - destruct Hr as [Hr|Hr]; [now left | discriminate].
  - destruct Hr as [Hr|Hr]; [now left | right; congruence].
Qed.

Lemma outcome_or_rmap {A B} (f' f : A -> result B) (l : list A) :
  (forall a, outcome_or e eq (f' a) (f a)) ->
  outcome_or e eq (rmap f' l) (rmap f l).
Proof.
  intros Hf. induction l as [|a l IH]; simpl; [reflexivity|].
  apply (outcome_or_rbind eq); [apply Hf | intros b' b ->].
  apply (outcome_or_rbind eq); [exact IH | intros bs' bs ->].
  reflexivity.
Qed.

Lemma sample_loss_or (m' m : Model) (data : row) (label : Q) (comb : row) :
  model_or e m' m ->
  outcome_or e eq (sample_loss m' data label comb) (sample_loss m data label comb).
Proof.
  intros [Hp _]. unfold sample_loss.
  apply (outcome_or_rbind eq); [now apply outcome_or_refl | intros smp' smp ->].
  apply (outcome_or_rbind eq); [apply Hp | intros p' p ->].
  reflexivity.
Qed.

Lemma loss_column_or (m' m : Model) (Xs : matrix) (ys : row) (rows : nat)
  (p : row) :
  model_or e m' m ->
  outcome_or e eq (loss_column m' Xs ys rows p) (loss_column m Xs ys rows p).
Proof.
  intros [Hp _]. unfold loss_column.
  apply (outcome_or_rbind eq); [now apply outcome_or_refl | intros px' px ->].
  apply (outcome_or_rbind eq); [apply Hp | intros pr' pr ->].
  now apply outcome_or_refl.
Qed.

Lemma fs_loop_or (better : row -> row -> result bool)
  (pick : list row -> result row) (loss' loss : row -> result row)
  (n k : nat) (best bl : row) :
  (forall c, outcome_or e eq (loss' c) (loss c)) ->
  outcome_or e eq (fs_loop better pick loss' n k best bl)
                  (fs_loop better pick loss n k best bl).
Proof.
  intros Hl. revert best bl. induction k as [|k IH]; intros best bl; simpl;
    [reflexivity|].
  apply (outcome_or_rbind eq); [now apply outcome_or_rmap | intros ls' ls ->].
  apply (outcome_or_rbind eq); [now apply outcome_or_refl | intros cl' cl ->].
  apply (outcome_or_rbind eq); [now apply outcome_or_refl | intros b' b ->].
  destruct b; [|reflexivity].
  apply (outcome_or_rbind eq); [now apply outcome_or_refl | intros i' i ->].
  apply (outcome_or_rbind eq); [now apply outcome_or_refl | intros c' c ->].
  apply IH.
Qed.

Lemma keras_or_predict (k' k : KerasObj) (data : matrix) :
  keras_or e k' k -> outcome_or e eq (k_predict k' data) (k_predict k data).
Proof. intros H. destruct H as [p' p f' f Hp _]. apply Hp. Qed.

Lemma keras_or_fit (k' k : KerasObj) (a b : option matrix) (epochs batch : nat) :
  keras_or e k' k ->
  outcome_or e (keras_or e) (k_fit k' a b epochs batch) (k_fit k a b epochs batch).
Proof.
  intros H. destruct H as [p' p f' f _ Hf]. simpl.
  destruct (Hf a b epochs batch) as [E|[[x [E' E]]|[k1' [k1 [E' [E H]]]]]].
  - rewrite E. now left.
  - rewrite E', E. now right.
  - rewrite E', E. exact H.
Qed.

(** The rules for the steps of a method. *)

Lemma propagates_bind {A B} (Ra : A -> A -> Prop) (Rb : B -> B -> Prop)
  (c' c : M A) (k' k : A -> M B) :
  propagates e Ra c' c ->
  (forall a' a, Ra a' a -> propagates e Rb (k' a') (k a)) ->
  propagates e Rb (bind c' k') (bind c k).
Proof.
  intros Hc Hk s' s Hs. specialize (Hc s' s Hs). unfold bind.
  destruct (c' s') as [[a'|x] t'], (c s) as [[a|x0] t];
    unfold ended_or in *; simpl in *.
  - destruct Hc as [Ha Ht]. apply (Hk a' a Ha t' t Ht).
  - contradiction.
  - destruct Hc as [Hc|[Hc _]]; [now left | discriminate].
  - destruct Hc as [Hc|[Hc Ht]]; [now left | right; split; congruence].
Qed.

Lemma propagates_ret {A} (Ra : A -> A -> Prop) (a' a : A) :
  Ra a' a -> propagates e Ra (ret a') (ret a).
Proof. intros Ha s' s Hs. unfold ended_or. simpl. auto. Qed.

Lemma propagates_raise {A} (Ra : A -> A -> Prop) (x : exn) :
  propagates e Ra (raise x) (raise x).
Proof. intros s' s Hs. unfold ended_or. simpl. auto. Qed.

Lemma propagates_lift {A} (Ra : A -> A -> Prop) (r' r : result A) :
  outcome_or e Ra r' r -> propagates e Ra (lift r') (lift r).
Proof.
  intros Hr s' s Hs. unfold ended_or, lift. simpl.
  destruct r' as [a'|x], r as [a|x0]; simpl in *.
  - auto.
  - contradiction.
  - destruct Hr as [Hr|Hr]; [now left | discriminate].
  - destruct Hr as [Hr|Hr]; auto.
Qed.

Lemma propagates_get : propagates e (same_up_to e) get get.
Proof. intros s' s Hs. unfold ended_or. simpl. auto. Qed.

Lemma propagates_modify (f' f : SAFE -> SAFE) :
  (forall s' s, same_up_to e s' s -> same_up_to e (f' s') (f s)) ->
  propagates e eq (modify f') (modify f).
Proof. intros Hf s' s Hs. unfold ended_or. simpl. auto. Qed.

Lemma propagates_for_each {A} (l : list A) (body' body : A -> M unit) :
  (forall a, propagates e eq (body' a) (body a)) ->
  propagates e eq (for_each l body') (for_each l body).
Proof.
  intros Hb. induction l as [|a l IH]; simpl.
  - now apply propagates_ret.
  - apply (propagates_bind eq); [apply Hb | intros _ _ _; exact IH].
Qed.

End Propagation.

(** A setter keeps two objects the same up to the library objects. *)
Ltac same_fields :=
  unfold same_up_to in *; simpl; intuition (auto; congruence).

Ltac next_step R :=
  apply (propagates_bind _ R).

Section MethodsPropagate.

Variable e : exn.
Variable RandomState : Type.
Variables train_test_split' train_test_split :
  RandomState -> option Z -> Q -> matrix -> row -> result (matrix * row).
Variables KDTree' KDTree : option matrix -> result KDTreeObj.
Hypothesis split_related : split_or e train_test_split' train_test_split.
Hypothesis KDTree_related : KDTree_or e KDTree' KDTree.

Lemma generate_propagates :
  propagates e eq _generate_combination _generate_combination.
Proof.
  unfold _generate_combination.
  next_step (same_up_to e); [apply propagates_get | intros a' a Ha].
  assert (combinations_mode a' = combinations_mode a /\
          n_features a' = n_features a) as [-> ->] by same_fields.
  next_step (@eq unit).
  { destruct (_ || _)%bool; [|now apply propagates_ret].
    destruct (n_features a); [|apply propagates_raise].
    apply propagates_modify. intros; same_fields. }
  intros _ _ _. next_step (@eq unit).
  { destruct (String.eqb _ _); [|now apply propagates_ret].
    destruct (n_features a); [|apply propagates_raise].
    apply propagates_modify. intros; same_fields. }
  intros _ _ _.
  destruct (String.eqb _ _); [|now apply propagates_ret].
  destruct (n_features a); [|apply propagates_raise].
  next_step (@eq unit); [apply propagates_modify; intros; same_fields|].
  intros _ _ _. next_step (@eq unit).
  - apply propagates_lift. now apply outcome_or_refl.
  - intros _ _ _. apply propagates_raise.
Qed.

Lemma forward_selection_propagates (better : row -> row -> result bool)
  (pick : list row -> result row) (data : row) (label : Q) :
  propagates e eq (forward_selection better pick data label)
                  (forward_selection better pick data label).
Proof.
  unfold forward_selection.
  next_step (same_up_to e); [apply propagates_get | intros a' a Ha].
  assert (n_features a' = n_features a) as -> by same_fields.
  next_step (@eq nat);
    [apply propagates_lift; now apply outcome_or_refl | intros n' n ->].
  next_step (model_or e).
  { apply propagates_lift.
    assert (opt_rel (model_or e) (model a') (model a)) as Hm by same_fields.
    destruct (model a'), (model a); simpl in *; auto; contradiction. }
  intros m' m Hm.
  next_step (@eq row);
    [apply propagates_lift; now apply sample_loss_or | intros bl' bl ->].
  apply propagates_lift. apply fs_loop_or. intros c. now apply sample_loss_or.
Qed.

Lemma scan_propagates (g : RandomState) (mdl' mdl : Model) (X0 : ndarray)
  (y0 : row) (aim0 : string) :
  model_or e mdl' mdl ->
  propagates e eq (scan RandomState train_test_split' g mdl' X0 y0 aim0)
                  (scan RandomState train_test_split g mdl X0 y0 aim0).
Proof.
  intros Hm. unfold scan.
  next_step (@eq unit); [apply propagates_modify; intros; same_fields|].
  intros _ _ _.
  next_step (same_up_to e); [apply propagates_get | intros a' a Ha].
  assert (n_points a' = n_points a /\ random_state a' = random_state a /\
          combinations_mode a' = combinations_mode a) as (-> & -> & ->)
    by same_fields.
  next_step (@eq (matrix * row)).
  { destruct (n_points a); [|now apply propagates_ret].
    destruct (length (arr_rows X0) =? 0); [apply propagates_raise|].
    apply propagates_lift. apply split_related. }
  intros Xy' Xy ->.
  next_step (@eq unit); [apply propagates_modify; intros; same_fields|].
  intros _ _ _.
  next_step (@eq unit); [apply propagates_modify; intros; same_fields|].
  intros _ _ _.
  next_step (@eq unit); [apply propagates_modify; intros; same_fields|].
  intros _ _ _.
  next_step (@eq unit); [apply generate_propagates|].
  intros _ _ _.
  next_step (@eq unit); [apply propagates_modify; intros; same_fields|].
  intros _ _ _.
  next_step (@eq unit); [apply propagates_modify; intros; same_fields|].
  intros _ _ _.
  destruct (String.eqb (combinations_mode a) "genetic").
  { apply propagates_for_each. intros ij.
    next_step (@eq unit);
      [apply propagates_lift; now apply outcome_or_refl | intros _ _ _].
    apply propagates_raise. }
  destruct (String.eqb (combinations_mode a) "forward_selection").
  { destruct (String.eqb aim0 "better"); apply propagates_for_each; intros ij.
    - next_step (@eq Q);
        [apply propagates_lift; now apply outcome_or_refl | intros l' l ->].
      next_step (@eq row);
        [apply forward_selection_propagates | intros m' m ->].
      next_step (same_up_to e); [apply propagates_get | intros b' b Hb].
      assert (y_better b' = y_better b) as -> by same_fields.
      next_step (@eq (option matrix));
        [apply propagates_lift; now apply outcome_or_refl | intros v' v ->].
      apply propagates_modify; intros; same_fields.
    - next_step (@eq Q);
        [apply propagates_lift; now apply outcome_or_refl | intros l' l ->].
      next_step (@eq row);
        [apply forward_selection_propagates | intros m' m ->].
      next_step (same_up_to e); [apply propagates_get | intros b' b Hb].
      assert (y_worst b' = y_worst b) as -> by same_fields.
      next_step (@eq (option matrix));
        [apply propagates_lift; now apply outcome_or_refl | intros v' v ->].
      apply propagates_modify; intros; same_fields. }
  next_step (same_up_to e); [apply propagates_get | intros b' b Hb].
  assert (combinations b' = combinations b) as -> by same_fields.
  next_step (@eq matrix);
    [apply propagates_lift; now apply outcome_or_refl | intros cs' cs ->].
  next_step (@eq (list row)).
  { apply propagates_lift. apply outcome_or_rmap. intros p.
    now apply loss_column_or. }
  intros cols' cols ->.
  next_step (@eq (list nat));
    [apply propagates_lift; now apply outcome_or_refl | intros iw' iw ->].
  next_step (@eq unit); [apply propagates_modify; intros; same_fields|].
  intros _ _ _.
  next_step (@eq (list nat));
    [apply propagates_lift; now apply outcome_or_refl | intros ib' ib ->].
  apply propagates_modify; intros; same_fields.
Qed.

Lemma _ann_propagates (train : bool) :
  propagates e eq (_ann train) (_ann train).
Proof.
  unfold _ann.
  next_step (same_up_to e); [apply propagates_get | intros a' a Ha].
  assert (X a' = X a /\ y a' = y a /\
          opt_rel (learner_or e) (learner a') (learner a)) as (-> & -> & Hl)
    by same_fields.
  destruct (learner a') as [l'|], (learner a) as [l|]; simpl in Hl;
    try contradiction.
  - destruct train; [|now apply propagates_ret].
    destruct l' as [t'|k'], l as [t|k]; simpl in Hl; try contradiction.
    + apply propagates_raise.
    + next_step (keras_or e).
      * apply propagates_lift. now apply keras_or_fit.
      * intros k1' k1 Hk. apply propagates_modify. intros; same_fields.
  - next_step (@eq unit);
      [apply propagates_lift; now apply outcome_or_refl | intros _ _ _].
    apply propagates_raise.
Qed.

Lemma learn_propagates (algorithm0 aim0 : string)
  (learner0' learner0 : option Learner) (train : bool) :
  opt_rel (learner_or e) learner0' learner0 ->
  propagates e (opt_rel (learner_or e))
    (learn KDTree' algorithm0 aim0 learner0' train)
    (learn KDTree algorithm0 aim0 learner0 train).
Proof.
  intros Hl. unfold learn.
  next_step (same_up_to e); [apply propagates_get | intros a' a Ha].
  assert (chosen_aim a' aim0 = chosen_aim a aim0) as ->
    by (unfold chosen_aim; now replace (aim a') with (aim a) by same_fields).
  assert (chosen_masks a' aim0 = chosen_masks a aim0) as ->.
  { unfold chosen_masks, chosen_aim.
    replace (aim a') with (aim a) by same_fields.
    replace (y_better a') with (y_better a) by same_fields.
    now replace (y_worst a') with (y_worst a) by same_fields. }
  assert (X a' = X a) as -> by same_fields.
  next_step (@eq unit); [apply propagates_modify; intros; same_fields|].
  intros _ _ _.
  next_step (@eq unit); [apply propagates_modify; intros; same_fields|].
  intros _ _ _.
  next_step (@eq unit); [apply propagates_modify; intros; same_fields|].
  intros _ _ _.
  next_step (@eq unit); [apply propagates_modify; intros; same_fields|].
  intros _ _ _.
  next_step (@eq unit).
  { destruct (String.eqb algorithm0 "knn"); [|now apply propagates_ret].
    destruct learner0' as [l'|], learner0 as [l|]; simpl in Hl;
      try contradiction; [now apply propagates_ret|].
    next_step (tree_or e); [apply propagates_lift; apply KDTree_related|].
    intros t' t Ht. apply propagates_modify. intros; same_fields. }
  intros _ _ _.
  next_step (@eq unit).
  { destruct (String.eqb algorithm0 "ann");
      [apply _ann_propagates | now apply propagates_ret]. }
  intros _ _ _.
  next_step (same_up_to e); [apply propagates_get | intros b' b Hb].
  apply propagates_ret. same_fields.
Qed.

Lemma get_selection_propagates (data : matrix) :
  propagates e eq (get_selection data) (get_selection data).
Proof.
  unfold get_selection.
  next_step (same_up_to e); [apply propagates_get | intros a' a Ha].
  assert (algorithm a' = algorithm a /\ y a' = y a /\
          opt_rel (learner_or e) (learner a') (learner a)) as (-> & -> & Hl)
    by same_fields.
  destruct (is_str (algorithm a) "knn").
  - destruct (learner a') as [[t'|k']|], (learner a) as [[t|k]|];
      simpl in Hl; try contradiction; try apply propagates_raise.
    next_step (@eq (list nat)); [apply propagates_lift; apply Hl|].
    intros ind' ind ->. destruct (y a); [|apply propagates_raise].
    next_step (@eq matrix);
      [apply propagates_lift; now apply outcome_or_refl | intros sel' sel ->].
    now apply propagates_ret.
  - destruct (is_str (algorithm a) "ann"); [|now apply propagates_ret].
    destruct (learner a') as [[t'|k']|], (learner a) as [[t|k]|];
      simpl in Hl; try contradiction; try apply propagates_raise.
    next_step (@eq matrix);
      [apply propagates_lift; now apply keras_or_predict | intros p' p ->].
    now apply propagates_ret.
Qed.

Lemma clean_data_propagates (data : matrix) :
  propagates e eq (clean_data data) (clean_data data).
Proof.
  unfold clean_data.
  next_step (@eq (option matrix)); [apply get_selection_propagates|].
  intros sel' sel ->. destruct sel as [m|].
  - apply propagates_lift. now apply outcome_or_refl.
  - destruct (has_entryb data); [apply propagates_raise | now apply propagates_ret].
Qed.

Lemma get_robustness_propagates (data : option matrix) :
  propagates e eq (get_robustness data) (get_robustness data).
Proof.
  unfold get_robustness. destruct data as [d|].
  - next_step (@eq (option matrix)); [apply get_selection_propagates|].
    intros sel' sel ->.
    next_step (@eq scores);
      [apply propagates_lift; now apply outcome_or_refl | intros m' m ->].
    now apply propagates_ret.
  - next_step (same_up_to e); [apply propagates_get | intros a' a Ha].
    assert (y_better a' = y_better a /\ y_worst a' = y_worst a) as (-> & ->)
      by same_fields.
    next_step (@eq scores);
      [apply propagates_lift; now apply outcome_or_refl | intros m1' m1 ->].
    next_step (@eq scores);
      [apply propagates_lift; now apply outcome_or_refl | intros m2' m2 ->].
    now apply propagates_ret.
Qed.

Lemma self_model_propagates : propagates e (model_or e) self_model self_model.
Proof.
  unfold self_model.
  next_step (same_up_to e); [apply propagates_get | intros a' a Ha].
  assert (opt_rel (model_or e) (model a') (model a)) as Hm by same_fields.
  destruct (model a'), (model a); simpl in Hm; try contradiction.
  - now apply propagates_ret.
  - apply propagates_raise.
Qed.

Lemma _get_clean_propagates (data : matrix) :
  propagates e eq (_get_clean data) (_get_clean data).
Proof.
  unfold _get_clean.
  next_step (model_or e); [apply self_model_propagates | intros m' m Hm].
  next_step (@eq Labels);
    [apply propagates_lift; apply Hm | intros o' o ->].
  next_step (model_or e); [apply self_model_propagates | intros m1' m1 Hm1].
  next_step (@eq matrix); [apply clean_data_propagates | intros c' c ->].
  next_step (@eq Labels);
    [apply propagates_lift; apply Hm1 | intros p' p ->].
  now apply propagates_ret.
Qed.

Lemma get_behaviour_propagates (data : matrix) :
  propagates e eq (get_behaviour data) (get_behaviour data).
Proof.
  unfold get_behaviour.
  next_step (model_or e); [apply self_model_propagates | intros m' m Hm].
  next_step (@eq matrix);
    [apply propagates_lift; apply Hm | intros o' o ->].
  next_step (model_or e); [apply self_model_propagates | intros m1' m1 Hm1].
  next_step (@eq matrix); [apply clean_data_propagates | intros c' c ->].
  next_step (@eq matrix);
    [apply propagates_lift; apply Hm1 | intros p' p ->].
  now apply propagates_ret.
Qed.

Lemma get_candidates_propagates (data : matrix) (threshold : Q) :
  propagates e eq (get_candidates data threshold) (get_candidates data threshold).
Proof.
  intros s' s Hs. unfold ended_or. simpl. right. auto.
Qed.

End MethodsPropagate.

Section Suppression.

Variable RandomState : Type.


End Suppression.

(** * Examples *)

Lemma example_model_flat (a : matrix) :
  flatten (map (fun r => [sum_row r]) a) = map sum_row a.
Proof. induction a as [|r a IH]; simpl; [reflexivity | now rewrite IH]. Qed.

Lemma example_model_scalar : scalar_model example_model.
Proof.
  intros a. exists (map (fun r => [sum_row r]) a). split; [reflexivity|].
  now rewrite example_model_flat, length_map.
Qed.

Lemma example_model_one_value : one_value_per_sample example_model.
Proof.
  intros a p H. simpl in H. injection H as <-.
  now rewrite example_model_flat, length_map.
Qed.

Lemma linear_KDTree_nearest : nearest_neighbour_tree linear_KDTree.
Proof.
  intros pts n Hne Hn Hrect. destruct pts as [|p pts]; [congruence|].
  destruct p as [|x p];
    [inversion Hrect as [|? ? Hp _]; subst; simpl in Hn; lia|].
  eexists. split; [reflexivity|]. intros data Hd _.
  exists (map (nearest_index ((x :: p) :: pts)) data).
  split; [destruct data; [congruence | reflexivity]|].
  clear Hd Hne Hrect. generalize (x :: p). clear x p. intros p.
  induction data as [|q data IH]; constructor; auto.
  unfold nearest, nearest_index.
  set (l := map (fun r => sqdist r q) (p :: pts)).
  destruct (argmin_spec l) as (H1 & H2 & _); [discriminate|].
  assert (length l = length (p :: pts)) as Hl by apply length_map.
  rewrite Hl in H1, H2.
  destruct (nth_error (p :: pts) (argmin l)) as [p0|] eqn:E;
    [|apply nth_error_None in E; apply Nat.lt_nge in H1; contradiction].
  exists p0. split; [reflexivity|]. intros j r Hj.
  assert (j < length (p :: pts)) as Hjl by (apply nth_error_Some; congruence).
  specialize (H2 j Hjl). unfold l in H2.
  rewrite (nth_map_lt _ _ p0 _ _ H1) in H2.
  rewrite (nth_map_lt _ _ r _ _ Hjl) in H2.
  now rewrite (nth_error_nth _ _ _ E), (nth_error_nth _ _ _ Hj) in H2.
Qed.

Example scan_all_run :
  fst (scan unit no_split tt example_model example_X example_y "worst"
         example_object) = Ok tt /\
  combinations example_scanned = Some [[1; 1]; [0; 1]; [1; 0]; [0; 0]]%Q /\
  y_worst example_scanned = Some [[1; 1]; [0; 0]]%Q /\
  y_better example_scanned = Some [[0; 0]; [1; 1]]%Q.
Proof. vm_compute. repeat split. Qed.

Example scan_other_modes_run :
  fst (scan unit no_split tt example_model example_X example_y "worst"
         (__init__ "random" 10 None None)) = Raise NameError /\
  fst (scan unit no_split tt example_model example_X example_y "worst"
         (__init__ "genetic" 10 None None)) = Raise NameError /\
  fst (scan unit no_split tt example_model example_X example_y "worst"
         (__init__ "other" 10 None None)) = Raise AttributeError /\
  y_better (snd (scan unit no_split tt example_model example_X example_y "better"
                   (__init__ "forward_selection" 10 None None)))
  = Some [[0; 0]; [1; 1]]%Q.
Proof. vm_compute. repeat split. Qed.

Example np_round_run :
  map np_round [0; 1 # 2; 7 # 10; 3 # 2; 5 # 2; - (1 # 2)]%Q = [0; 0; 1; 2; 2; 0]%Q.
Proof. reflexivity. Qed.

(** With [n_points] set, the outcome of [scan] does depend on the random
    generator. *)
Example scan_subsampled_depends_on_generator :
  y_worst (snd (scan bool pick_one true example_model twin_X twin_y "worst"
                  (__init__ "all" 10 (Some 1) None)))
  <> y_worst (snd (scan bool pick_one false example_model twin_X twin_y "worst"
                     (__init__ "all" 10 (Some 1) None))).
Proof. vm_compute. discriminate. Qed.

(** ** The theorems at concrete inputs *)

(** Two features: the four vectors 11, 01, 10, 00. *)
Lemma generate_all_enumerates_witness :
  (combinations_mode two_features = "all"%string /\
   n_features two_features = Some 2) /\
  exists c,
    _generate_combination two_features =
      (Ok tt, set_combinations (Some c) two_features) /\
    length c = 2 ^ 2 /\
    NoDup c /\
    forall v, In v c <-> (length v = 2 /\ binary_row v).
Proof.
  split; [split; reflexivity|].
  apply (generate_all_enumerates two_features 2); reflexivity.
Defined.

(** Three features: the rows 111, 101, 110, 111. *)
Lemma generate_one_by_one_rows_witness :
  (combinations_mode three_features_one_by_one = "one-by-one"%string /\
   n_features three_features_one_by_one = Some 3) /\
  exists c,
    _generate_combination three_features_one_by_one =
      (Ok tt, set_combinations (Some c) three_features_one_by_one) /\
    length c = 3 + 1 /\
    (forall r, In r c -> length r = 3) /\
    (forall i j, 1 <= i <= 3 - 1 -> j < 3 ->
       nth j (nth i c []) 0%Q = if j =? i then 0%Q else 1%Q) /\
    nth 0 c [] = np_ones 3 /\
    nth 3 c [] = np_ones 3 /\
    (forall r, In r c -> 0 < 3 -> nth 0 r 0%Q = 1%Q) /\
    (1 <= 3 -> ~ NoDup c).
Proof.
  split; [split; reflexivity|].
  apply (generate_one_by_one_rows three_features_one_by_one 3); reflexivity.
Defined.

Example generate_one_by_one_run :
  combinations (snd (_generate_combination three_features_one_by_one)) =
  Some [[1; 1; 1]; [1; 0; 1]; [1; 1; 0]; [1; 1; 1]]%Q.
Proof. reflexivity. Qed.

(** The scan of two samples with two features in mode ['all']. *)
Lemma scan_selects_extreme_losses_witness :
  (combinations_mode example_object <> "genetic"%string /\
   combinations_mode example_object <> "forward_selection"%string /\
   one_value_per_sample example_model /\
   scan unit no_split tt example_model example_X example_y "worst"
     example_object = (Ok tt, example_scanned)) /\
  exists Xs ys combs yw yb,
    (Xs = arr_rows example_X /\ ys = example_y) /\
    X example_scanned = Some Xs /\ combinations example_scanned = Some combs /\
    y_worst example_scanned = Some yw /\ y_better example_scanned = Some yb /\
    length yw = length (arr_rows example_X) /\
    length yb = length (arr_rows example_X) /\
    (length ys = length Xs ->
     forall i, i < length Xs -> i < length (arr_rows example_X) ->
     exists jw jb,
       jw < length combs /\ nth i yw [] = nth jw combs [] /\
       (forall j, j < length combs ->
          (loss_entry example_model Xs ys (nth j combs []) i <=
           loss_entry example_model Xs ys (nth jw combs []) i)%Q) /\
       (forall j, j < jw ->
          (loss_entry example_model Xs ys (nth j combs []) i <
           loss_entry example_model Xs ys (nth jw combs []) i)%Q) /\
       jb < length combs /\ nth i yb [] = nth jb combs [] /\
       (forall j, j < length combs ->
          (loss_entry example_model Xs ys (nth jb combs []) i <=
           loss_entry example_model Xs ys (nth j combs []) i)%Q) /\
       (forall j, j < jb ->
          (loss_entry example_model Xs ys (nth jb combs []) i <
           loss_entry example_model Xs ys (nth j combs []) i)%Q)).
Proof.
  assert (scan unit no_split tt example_model example_X example_y "worst"
            example_object = (Ok tt, example_scanned)) as Hrun
    by (vm_compute; reflexivity).
  split.
  - split; [discriminate|]. split; [discriminate|].
    split; [exact example_model_one_value | exact Hrun].
  - apply (scan_selects_extreme_losses unit no_split tt example_model example_X
             example_y "worst" example_object example_scanned);
      [discriminate | discriminate | exact example_model_one_value | exact Hrun].
Defined.

(** The two searches on the sample (1, 2) with label 0. *)
Lemma forward_selection_greedy_witness :
  (n_features search_object = Some 2 /\ model search_object = Some example_model /\
   scalar_model example_model /\ length [1; 2]%Q = 2) /\
  (exists moves,
     __combination_search_forward_selection_min [1; 2]%Q 0%Q search_object =
       (Ok (last moves (np_ones 2)), search_object) /\
     chain (fs_move 2 Qlt (loss_value example_model [1; 2]%Q 0%Q)) (np_ones 2) moves /\
     length moves <= 2 /\
     length (last moves (np_ones 2)) = 2 /\
     binary_row (last moves (np_ones 2)) /\
     (loss_value example_model [1; 2]%Q 0%Q (last moves (np_ones 2)) <=
      loss_value example_model [1; 2]%Q 0%Q (np_ones 2))%Q) /\
  (exists moves,
     __combination_search_forward_selection_max [1; 2]%Q 0%Q search_object =
       (Ok (last moves (np_ones 2)), search_object) /\
     chain (fs_move 2 (fun a b => (b < a)%Q) (loss_value example_model [1; 2]%Q 0%Q))
           (np_ones 2) moves /\
     length moves <= 2 /\
     length (last moves (np_ones 2)) = 2 /\
     binary_row (last moves (np_ones 2)) /\
     (loss_value example_model [1; 2]%Q 0%Q (np_ones 2) <=
      loss_value example_model [1; 2]%Q 0%Q (last moves (np_ones 2)))%Q).
Proof.
  split.
  - split; [reflexivity|]. split; [reflexivity|].
    split; [exact example_model_scalar | reflexivity].
  - apply (forward_selection_greedy search_object 2 example_model [1; 2]%Q 0%Q);
      [reflexivity | reflexivity | exact example_model_scalar | reflexivity].
Defined.

Example forward_selection_run_min_max :
  fst (__combination_search_forward_selection_min [1; 2]%Q 0%Q search_object)
  = Ok [0; 0]%Q /\
  fst (__combination_search_forward_selection_max [1; 2]%Q 0%Q search_object)
  = Ok [1; 1]%Q /\
  fst (__combination_search_forward_selection_max [1; - (2)]%Q 0%Q search_object)
  = Ok [0; 1]%Q.
Proof. vm_compute. repeat split. Qed.


(** ** The claims at the inputs where the code departs from them *)

(** C3: with an external learner whose outputs leave [0, 1], the ['ann']
    branch of [get_selection] returns an entry 2 where its docstring promises
    a binary selection array and the ['knn'] branch returns one: not every
    returned array is binary. *)
Lemma ann_selection_not_binary :
  fst (learn linear_KDTree "ann" "worst" (Some (KerasL two_learner)) false
         example_scanned) = Ok (Some (KerasL two_learner)) /\
  combinations_mode example_ann = "all"%string /\
  get_selection [[1; 2]]%Q example_ann = (Ok (Some [[2]]%Q), example_ann) /\
  ~ binary_matrix [[2]]%Q.
Proof.
  split; [reflexivity|]. split; [reflexivity|]. split; [reflexivity|].
  intros H. inversion H as [|r m Hr _]; subst.
  inversion Hr as [|q l Hq _]; subst.
  destruct Hq as [Hq|Hq]; discriminate Hq.
Qed.


Example twin_lookup_run :
  y_worst twin_scanned = Some [[1]; [0]]%Q /\
  fst (get_selection [[1]]%Q
         (snd (learn linear_KDTree "knn" "worst" None false twin_scanned)))
  = Ok (Some [[1]]%Q).
Proof. vm_compute. split; reflexivity. Qed.

(** * Further properties *)

(** ** _generate_combination at the edges *)

Lemma eqb_of_neq (a b : string) : a <> b -> String.eqb a b = false.
Proof. apply String.eqb_neq. Qed.

Lemma generate_unknown_mode (s : SAFE) :
  ~ known_mode (combinations_mode s) -> _generate_combination s = (Ok tt, s).
Proof.
  unfold known_mode. intros H.
  assert (String.eqb (combinations_mode s) "all" = false) as E1
    by (apply eqb_of_neq; tauto).
  assert (String.eqb (combinations_mode s) "genetic" = false) as E2
    by (apply eqb_of_neq; tauto).
  assert (String.eqb (combinations_mode s) "one-by-one" = false) as E3
    by (apply eqb_of_neq; tauto).
  assert (String.eqb (combinations_mode s) "random" = false) as E4
    by (apply eqb_of_neq; tauto).
  unfold _generate_combination, bind, get, ret.
  now rewrite E1, E2, E3, E4.
Qed.

Lemma generate_without_features (s : SAFE) :
  known_mode (combinations_mode s) -> n_features s = None ->
  _generate_combination s = (Raise TypeError, s).
Proof.
  unfold known_mode. intros H Hn.
  unfold _generate_combination, bind, get, ret, raise. rewrite Hn.
  destruct H as [-> | [-> | [-> | ->]]]; reflexivity.
Qed.

(** X14: a mode that [_generate_combination] does not know makes it return
    without touching the object; a mode it knows, on an object that has no
    [n_features] yet, makes it raise [TypeError], the object untouched. *)
Theorem generate_combination_edges (s : SAFE) :
  (~ known_mode (combinations_mode s) ->
   _generate_combination s = (Ok tt, s)) /\
  (known_mode (combinations_mode s) -> n_features s = None ->
   _generate_combination s = (Raise TypeError, s)).
Proof.
  split; [apply generate_unknown_mode | apply generate_without_features].
Qed.

(** ** scan in the modes that do not search exhaustively *)

Section ScanEdges.

Variable RandomState : Type.
Variable train_test_split :
  RandomState -> option Z -> Q -> matrix -> row -> result (matrix * row).

(** X2: in mode ['random'] no [scan] returns: [_generate_combination] stores
    the unflipped product and then evaluates the unbound name [random].
    Without subsampling the exception is [NameError]; the object is left with
    the new [X], zero masks and the product, and with the model and aim it
    had before. *)
Theorem scan_random_never_returns (g : RandomState) (mdl : Model)
  (X0 : ndarray) (y0 : row) (aim0 : string) (s : SAFE) :
  combinations_mode s = "random"%string ->
  is_ok (fst (scan RandomState train_test_split g mdl X0 y0 aim0 s)) = false /\
  (n_points s = None ->
   exists s',
     scan RandomState train_test_split g mdl X0 y0 aim0 s = (Raise NameError, s') /\
     X s' = Some (arr_rows X0) /\
     combinations s' = Some (itertools_product [0%Q; 1%Q] (ncols X0)) /\
     y_worst s' = Some (np_zeros2 (length (arr_rows X0)) (ncols X0)) /\
     y_better s' = Some (np_zeros2 (length (arr_rows X0)) (ncols X0)) /\
     model s' = model s /\ aim s' = aim s).
Proof.
  intros Hm. split.
  - unfold scan. cbv [bind modify get ret lift raise].
    cbn [n_points set_n_features].
    destruct (n_points s) as [k|].
    + destruct (length (arr_rows X0) =? 0); [reflexivity|].
      destruct (train_test_split _ _ _ _ _) as [[Xs ys]|e]; [|reflexivity].
      unfold _generate_combination. cbv [bind modify get ret lift raise].
      cbn [combinations_mode n_features set_y_worst set_y_better set_X
           set_n_features]. rewrite Hm. reflexivity.
    + unfold _generate_combination. cbv [bind modify get ret lift raise].
      cbn [combinations_mode n_features set_y_worst set_y_better set_X
           set_n_features]. rewrite Hm. reflexivity.
  - intros Hn. eexists. split.
    + unfold scan. cbv [bind modify get ret lift raise].
      cbn [n_points set_n_features]. rewrite Hn.
      unfold _generate_combination. cbv [bind modify get ret lift raise].
      cbn [combinations_mode n_features set_y_worst set_y_better set_X
           set_n_features fst snd]. rewrite Hm. reflexivity.
    + repeat split; reflexivity.
Qed.

(** X3: in mode ['genetic'] the loop body evaluates the unbound name
    [y_train]: a [scan] of an array with a row raises [NameError] with the
    masks still zero; a [scan] of an array with no row returns. *)
Theorem scan_genetic_raises_on_first_sample (g : RandomState) (mdl : Model)
  (X0 : ndarray) (y0 : row) (aim0 : string) (s : SAFE) :
  combinations_mode s = "genetic"%string -> n_points s = None ->
  exists s',
    scan RandomState train_test_split g mdl X0 y0 aim0 s =
      (match arr_rows X0 with [] => Ok tt | _ :: _ => Raise NameError end, s') /\
    combinations s' = Some (all_combinations (ncols X0)) /\
    y_worst s' = Some (np_zeros2 (length (arr_rows X0)) (ncols X0)) /\
    y_better s' = Some (np_zeros2 (length (arr_rows X0)) (ncols X0)) /\
    model s' = Some mdl /\ aim s' = Some aim0.
Proof.
  intros Hm Hn.
  exists (set_aim (Some aim0)
            (set_model (Some mdl)
               (set_combinations (Some (all_combinations (ncols X0)))
                  (set_y_worst
                     (Some (np_zeros2 (length (arr_rows X0)) (ncols X0)))
                     (set_y_better
                        (Some (np_zeros2 (length (arr_rows X0)) (ncols X0)))
                        (set_X (Some (arr_rows X0))
                           (set_n_features (Some (ncols X0)) s))))))).
  split.
  - unfold scan. cbv [bind modify get ret lift raise].
    cbn [n_points set_n_features]. rewrite Hn.
    unfold _generate_combination. cbv [bind modify get ret lift raise].
    cbn [combinations_mode n_features set_y_worst set_y_better set_X
         set_n_features fst snd]. rewrite Hm.
    cbn [String.eqb Ascii.eqb Bool.eqb orb].
    destruct (arr_rows X0) as [|x t]; reflexivity.
  - repeat split; reflexivity.
Qed.

(** X4: a mode the class does not know at all (the docstring's
    ['forward selection'], say) sends a first [scan] into the exhaustive
    branch with no combinations: it raises [AttributeError], after the model
    and the aim were stored. *)
Theorem scan_unknown_mode_raises (g : RandomState) (mdl : Model)
  (X0 : ndarray) (y0 : row) (aim0 : string) (s : SAFE) :
  ~ known_mode (combinations_mode s) ->
  combinations_mode s <> "forward_selection"%string ->
  combinations s = None -> n_points s = None ->
  exists s',
    scan RandomState train_test_split g mdl X0 y0 aim0 s =
      (Raise AttributeError, s') /\
    combinations s' = None /\ X s' = Some (arr_rows X0) /\
    model s' = Some mdl /\ aim s' = Some aim0.
Proof.
  intros Hk Hf Hc Hn.
  assert (String.eqb (combinations_mode s) "genetic" = false) as Hg
    by (apply eqb_of_neq; unfold known_mode in Hk; tauto).
  apply eqb_of_neq in Hf.
  eexists. split.
  - unfold scan. cbv [bind modify get ret lift raise].
    cbn [n_points set_n_features]. rewrite Hn. cbn [fst snd].
    rewrite generate_unknown_mode by exact Hk.
    cbn [combinations_mode set_n_features]. rewrite Hg, Hf.
    cbn [combinations set_aim set_model set_y_worst set_y_better set_X
         set_n_features]. rewrite Hc. reflexivity.
  - repeat split; try reflexivity. exact Hc.
Qed.

(** X7: subsampling and the exhaustive search do not go together. The loss
    matrix has one row per row of the input, a column of it is computed from
    the subsample: when [train_test_split] keeps [m] samples with [m] neither
    1 nor the number of input rows, storing the first column raises
    [ValueError]. *)
Theorem scan_subsampled_raises (g : RandomState) (mdl : Model)
  (X0 : ndarray) (y0 : row) (aim0 : string) (s : SAFE) (k : nat)
  (Xs : matrix) (ys : row) :
  exhaustive_mode s -> n_points s = Some k ->
  length (arr_rows X0) <> 0 ->
  train_test_split g (random_state s)
    (inject_Z (Z.of_nat k) / inject_Z (Z.of_nat (length (arr_rows X0))))%Q
    (arr_rows X0) y0 = Ok (Xs, ys) ->
  rectangular (ncols X0) Xs -> length ys = length Xs ->
  length Xs <> length (arr_rows X0) -> length Xs <> 1 ->
  scalar_model mdl ->
  fst (scan RandomState train_test_split g mdl X0 y0 aim0 s) = Raise ValueError.
Proof.
  intros Hmode Hn Hrows Htts Hrect Hlen Hm1 Hm2 Hmdl.
  assert (String.eqb (combinations_mode s) "genetic" = false /\
          String.eqb (combinations_mode s) "forward_selection" = false) as [Hg Hf]
    by (destruct Hmode as [-> | ->]; split; reflexivity).
  assert (exists p c,
            (forall pre, combinations_mode pre = combinations_mode s ->
                         n_features pre = Some (ncols X0) ->
                         _generate_combination pre =
                         (Ok tt, set_combinations (Some (p :: c)) pre)) /\
            length p = ncols X0) as (p & c & Hgen & Hp).
  { destruct Hmode as [Hall|Hone].
    - destruct (all_combinations (ncols X0)) as [|p c] eqn:E.
      + apply (f_equal (@length _)) in E. unfold all_combinations in E.
        rewrite np_flip_length, product01_length in E. simpl in E.
        pose proof (Nat.pow_nonzero 2 (ncols X0)). lia.
      + exists p, c. split.
        * intros pre Hpre Hnf. rewrite <- E. apply generate_all; congruence.
        * assert (In p (all_combinations (ncols X0))) as Hin
            by (rewrite E; now left).
          now apply all_combinations_In in Hin.
    - destruct (one_by_one_combinations (ncols X0)) as [|p c] eqn:E.
      + apply (f_equal (@length _)) in E. rewrite one_by_one_length in E.
        simpl in E. lia.
      + exists p, c. split.
        * intros pre Hpre Hnf. rewrite <- E. apply generate_one_by_one; congruence.
        * assert (In p (one_by_one_combinations (ncols X0))) as Hin
            by (rewrite E; now left).
          apply one_by_one_In in Hin.
          destruct Hin as [->|[i [_ ->]]]; unfold np_ones;
            now rewrite ?set_nth_length, repeat_length. }
  assert (loss_column mdl Xs ys (length (arr_rows X0)) p = Raise ValueError) as Hcol.
  { unfold loss_column.
    destruct (rmap_total (fun r => broadcast1 Qmult p r) Xs) as [px Hpx].
    { intros r Hr. unfold broadcast1.
      rewrite Hp, (proj1 (Forall_forall _ _) Hrect r Hr), Nat.eqb_refl. eauto. }
    unfold np_multiply_1_2. rewrite Hpx. cbn [rbind].
    destruct (Hmdl px) as [pr [Hpr Hfl]]. rewrite Hpr. cbn [rbind].
    assert (length px = length Xs) as Hpxl
      by (symmetry; apply (Forall2_length_eq _ _ _ (rmap_ok_inv _ _ _ Hpx))).
    unfold broadcast1. rewrite Hfl, Hpxl, Hlen, Nat.eqb_refl. cbn [rbind].
    unfold assign_column.
    assert (length (zip_with abs_diff (flatten pr) ys) = length Xs) as Hz
      by (rewrite zip_with_length, Hfl, Hpxl, Hlen; apply Nat.min_id).
    rewrite Hz. apply Nat.eqb_neq in Hm1. rewrite Hm1.
    destruct (zip_with abs_diff (flatten pr) ys) as [|v [|v' t]]; try reflexivity.
    simpl in Hz. congruence. }
  unfold scan. cbv [bind modify get ret lift raise].
  cbn [n_points set_n_features]. rewrite Hn.
  apply Nat.eqb_neq in Hrows. rewrite Hrows.
  cbn [random_state set_n_features]. rewrite Htts. cbn [fst snd].
  rewrite Hgen by reflexivity.
  cbn [combinations_mode set_n_features]. rewrite Hg, Hf.
  cbn [combinations set_aim set_model set_combinations].
  cbn [rmap]. rewrite Hcol. reflexivity.
Qed.

End ScanEdges.

(** ** The greedy search takes the best candidate and stops at a local
    optimum *)

Lemma candidates_In_conv (n i : nat) (m : row) :
  i < n -> Qeq_bool (nth i m 0%Q) 0%Q = false ->
  In (set_nth i 0%Q m) (candidates n m).
Proof.
  intros Hi Hnz. unfold candidates. apply in_flat_map. exists i. split.
  - apply in_seq. lia.
  - rewrite Hnz. now left.
Qed.

Lemma selected_none (n i : nat) (m : row) :
  selected n m = 0 -> i < n -> Qeq_bool (nth i m 0%Q) 0%Q = true.
Proof.
  unfold selected. intros H Hi. apply length_zero_iff_nil in H.
  destruct (Qeq_bool (nth i m 0%Q) 0%Q) eqn:E; [reflexivity|].
  assert (In i (filter (fun i => negb (Qeq_bool (nth i m 0%Q) 0%Q)) (seq 0 n))) as Hin.
  { apply filter_In. split; [apply in_seq; lia | now rewrite E]. }
  rewrite H in Hin. contradiction.
Qed.

Lemma Qeq_bool_false_neq (a b : Q) : Qeq_bool a b = false <-> ~ (a == b)%Q.
Proof.
  split.
  - intros H E. apply Qeq_bool_iff in E. congruence.
  - intros H. destruct (Qeq_bool a b) eqn:E; [|reflexivity].
    apply Qeq_bool_iff in E. contradiction.
Qed.

Section GreedyChoice.

Variable cmp : Q -> Q -> bool.
Variable better : row -> row -> result bool.
Hypothesis better_cmp : forall a b : Q, better [a] [b] = Ok (cmp a b).
Hypothesis cmp_compat :
  forall a a' b b', (a == a')%Q -> (b == b')%Q -> cmp a b = cmp a' b'.
Hypothesis cmp_trans :
  forall a b c, cmp a b = false -> cmp c b = true -> cmp c a = true.
Hypothesis cmp_asym : forall a b, cmp b a = true -> cmp a b = false.

Lemma cmp_false_trans (a b c : Q) :
  cmp a b = false -> cmp b c = false -> cmp a c = false.
Proof.
  intros Hab Hbc. destruct (cmp a c) eqn:E; [|reflexivity].
  rewrite (cmp_trans b c a Hbc E) in Hab. discriminate.
Qed.

Lemma py_extremum_best (vs : row) (cur : Q) :
  exists w, py_extremum better [cur] (map (fun x => [x]) vs) = Ok [w] /\
            In w (cur :: vs) /\ forall v, In v (cur :: vs) -> cmp v w = false.
Proof.
  revert cur. induction vs as [|x t IH]; intros cur; simpl.
  - exists cur. split; [reflexivity|]. split; [now left|].
    intros v [<-|[]]. destruct (cmp cur cur) eqn:E; [|reflexivity].
    now rewrite (cmp_asym _ _ E) in E.
  - rewrite better_cmp. simpl. destruct (cmp x cur) eqn:E.
    + destruct (IH x) as [w [H1 [H2 H3]]]. exists w.
      split; [exact H1|]. split; [simpl in *; tauto|].
      intros v [<-|Hv]; [|now apply H3].
      destruct (cmp cur w) eqn:Ec; [|reflexivity].
      pose proof (cmp_trans x w cur (H3 x ltac:(now left)) Ec) as Hcx.
      rewrite (cmp_asym _ _ E) in Hcx. discriminate.
    + destruct (IH cur) as [w [H1 [H2 H3]]]. exists w.
      split; [exact H1|]. split; [simpl in *; tauto|].
      intros v [Hv|[Hv|Hv]].
      * apply H3. now left.
      * subst v. destruct (cmp x w) eqn:Ex; [|reflexivity].
        pose proof (cmp_trans cur w x (H3 cur ltac:(now left)) Ex) as Hxc.
        congruence.
      * apply H3. now right.
Qed.

Variable n : nat.
Variable lossf : row -> result row.
Variable loss : row -> Q.
Hypothesis lossf_value : forall c, length c = n -> lossf c = Ok [loss c].

Lemma fs_loop_greedy (k : nat) (best : row) (bl : Q) :
  length best = n -> selected n best = k -> (bl == loss best)%Q ->
  exists moves,
    fs_loop better (py_pick better) lossf n k best [bl] = Ok (last moves best) /\
    chain (best_move n (fun a b => cmp b a = false) loss) best moves /\
    local_optimum n (fun a b => cmp b a = false) loss (last moves best).
Proof.
  revert best bl. induction k as [|k IH]; intros best bl Hlen Hsel Hbl.
  - exists []. simpl. split; [reflexivity|]. split; [exact I|].
    intros i Hi Hnz. exfalso. apply Hnz. apply Qeq_bool_iff.
    now apply (selected_none n).
  - simpl fs_loop.
    assert (forall c, In c (candidates n best) -> length c = n) as Hcl.
    { intros c Hc. apply candidates_In in Hc. destruct Hc as [i [_ [_ ->]]].
      now rewrite set_nth_length. }
    rewrite (rmap_ok_map lossf (fun c => [loss c]))
      by (intros c Hc; apply lossf_value; auto).
    simpl rbind.
    rewrite <- (map_map loss (fun x => [x])).
    destruct (map loss (candidates n best)) as [|v vs] eqn:Ev.
    { apply (f_equal (@length Q)) in Ev. rewrite length_map, candidates_length in Ev.
      simpl in Ev. lia. }
    destruct (py_extremum_best vs v) as [w [Hpick [Hw Hbest]]].
    destruct (py_index_from_spec (v :: vs) 0 w Hw) as [idx [Hidx [Hlt Hnth]]].
    fold (py_index [w] (map (fun x => [x]) (v :: vs))) in Hidx.
    assert (py_pick better (map (fun x => [x]) (v :: vs)) = Ok [w]) as Hpick'
      by exact Hpick.
    remember (map (fun x => [x]) (v :: vs)) as losses eqn:El.
    rewrite Hpick'. simpl rbind.
    rewrite better_cmp. simpl rbind.
    assert (forall i, i < n -> ~ (nth i best 0 == 0)%Q ->
                      cmp (loss (set_nth i 0%Q best)) w = false) as Hall.
    { intros i Hi Hnz. apply Hbest. rewrite <- Ev. apply in_map.
      apply candidates_In_conv; [exact Hi|]. now apply Qeq_bool_false_neq. }
    destruct (cmp w bl) eqn:Ecmp.
    + rewrite Hidx. simpl rbind.
      assert (idx < length (candidates n best)) as Hlt'.
      { rewrite <- (length_map loss), Ev. exact Hlt. }
      unfold index. destruct (nth_error (candidates n best) idx) as [c|] eqn:Ec;
        [|apply nth_error_None in Ec; lia].
      simpl rbind.
      assert (In c (candidates n best)) as Hcin by (eapply nth_error_In; eauto).
      assert (loss c == w)%Q as Hcw.
      { rewrite <- Hnth, <- Ev.
        rewrite (nth_map_lt loss _ c) by exact Hlt'.
        now rewrite (nth_error_nth _ _ c Ec). }
      destruct (candidates_In _ _ _ Hcin) as [i [Hi [Hnz Hc]]].
      destruct (IH c w) as [moves [Hm1 [Hm2 Hm3]]].
      * now apply Hcl.
      * pose proof (selected_set_nth n i best Hi Hlen Hnz). subst c. lia.
      * now symmetry.
      * exists (c :: moves). rewrite last_cons_default.
        split; [exact Hm1|]. split; [|exact Hm3].
        split; [|exact Hm2]. split.
        -- exists i. repeat split; auto. now apply Qeq_bool_false_neq.
        -- intros j Hj Hjnz.
           rewrite (cmp_compat _ (loss (set_nth j 0%Q best)) _ w);
             [now apply Hall | reflexivity | exact Hcw].
    + exists []. simpl. split; [reflexivity|]. split; [exact I|].
      intros i Hi Hnz.
      rewrite (cmp_compat _ (loss (set_nth i 0%Q best)) _ bl);
        [|reflexivity | now symmetry].
      apply (cmp_false_trans _ w); [now apply Hall | exact Ecmp].
Qed.

End GreedyChoice.

Lemma chain_impl {A} (R R' : A -> A -> Prop) (a : A) (l : list A) :
  (forall x z, R x z -> R' x z) -> chain R a l -> chain R' a l.
Proof.
  intros H. revert a. induction l as [|b t IH]; intros a; simpl; auto.
  intros [Hab Ht]. split; auto.
Qed.

Lemma forward_selection_greedy_run (cmp : Q -> Q -> bool)
  (better : row -> row -> result bool) (s : SAFE) (n : nat) (mdl : Model)
  (data : row) (label : Q) :
  (forall a b : Q, better [a] [b] = Ok (cmp a b)) ->
  (forall a a' b b', (a == a')%Q -> (b == b')%Q -> cmp a b = cmp a' b') ->
  (forall a b c, cmp a b = false -> cmp c b = true -> cmp c a = true) ->
  (forall a b, cmp b a = true -> cmp a b = false) ->
  n_features s = Some n -> model s = Some mdl ->
  scalar_model mdl -> length data = n ->
  exists moves,
    forward_selection better (py_pick better) data label s =
      (Ok (last moves (np_ones n)), s) /\
    chain (best_move n (fun a b => cmp b a = false) (loss_value mdl data label))
          (np_ones n) moves /\
    local_optimum n (fun a b => cmp b a = false) (loss_value mdl data label)
                  (last moves (np_ones n)).
Proof.
  intros Hb Hc Ht Ha Hn Hmdl Hm Hlen.
  assert (length (np_ones n) = n) as Hones by apply repeat_length.
  destruct (fs_loop_greedy cmp better Hb Hc Ht Ha n (sample_loss mdl data label)
              (loss_value mdl data label)
              (fun c Hcl => sample_loss_value mdl data label c Hm
                              (eq_trans Hcl (eq_sym Hlen)))
              n (np_ones n) (loss_value mdl data label (np_ones n)))
    as [moves [H1 [H2 H3]]]; auto.
  - apply selected_ones.
  - reflexivity.
  - exists moves. split; [|split; assumption].
    unfold forward_selection, bind, get, lift. rewrite Hn, Hmdl.
    rewrite (sample_loss_value mdl data label (np_ones n) Hm)
      by (now rewrite Hones, Hlen).
    now rewrite H1.
Qed.

(** X6: the searches are greedy and end at a local optimum. Every round of
    the min search moves to a mask whose loss is the smallest among all masks
    with one more feature set to 0, and no mask with one more feature of the
    result set to 0 has a smaller loss than the result; the max search does
    the same with the largest loss. *)
Theorem forward_selection_takes_best (s : SAFE) (n : nat) (mdl : Model)
  (data : row) (label : Q) :
  n_features s = Some n -> model s = Some mdl ->
  scalar_model mdl -> length data = n ->
  let loss := loss_value mdl data label in
  (exists moves,
     __combination_search_forward_selection_min data label s =
       (Ok (last moves (np_ones n)), s) /\
     chain (best_move n Qle loss) (np_ones n) moves /\
     local_optimum n Qle loss (last moves (np_ones n))) /\
  (exists moves,
     __combination_search_forward_selection_max data label s =
       (Ok (last moves (np_ones n)), s) /\
     chain (best_move n (fun a b => (b <= a)%Q) loss) (np_ones n) moves /\
     local_optimum n (fun a b => (b <= a)%Q) loss (last moves (np_ones n))).
Proof.
  intros Hn Hmdl Hm Hlen loss. split.
  - destruct (forward_selection_greedy_run Qltb arr_lt s n mdl data label)
      as [moves [H1 [H2 H3]]]; auto using Qltb_compat.
    + intros a b c Hab Hcb. apply Qltb_ge in Hab. apply Qltb_lt in Hcb.
      apply Qltb_lt. eapply Qlt_le_trans; eauto.
    + intros a b Hab. apply Qltb_lt in Hab. apply Qltb_ge. now apply Qlt_le_weak.
    + exists moves. split; [exact H1|]. split.
      * eapply chain_impl; [|exact H2].
        intros x z [Hex Hall]. split; [exact Hex|].
        intros i Hi Hnz. apply Qltb_ge. now apply Hall.
      * intros i Hi Hnz. apply Qltb_ge. now apply H3.
  - destruct (forward_selection_greedy_run (fun a b => Qltb b a) arr_gt s n mdl
                data label) as [moves [H1 [H2 H3]]]; auto.
    + intros a a' b b' Ha Hb. now apply Qltb_compat.
    + intros a b c Hab Hcb. apply Qltb_ge in Hab. apply Qltb_lt in Hcb.
      apply Qltb_lt. eapply Qle_lt_trans; eauto.
    + intros a b Hab. apply Qltb_lt in Hab. apply Qltb_ge. now apply Qlt_le_weak.
    + exists moves. split; [exact H1|]. split.
      * eapply chain_impl; [|exact H2].
        intros x z [Hex Hall]. split; [exact Hex|].
        intros i Hi Hnz. apply Qltb_ge. now apply Hall.
      * intros i Hi Hnz. apply Qltb_ge. now apply H3.
Qed.

(** ** scan in mode 'forward_selection' *)

Lemma forward_selection_eval (better : row -> row -> result bool)
  (pick : list row -> result row) (data : row) (label : Q) (s : SAFE)
  (n : nat) (mdl : Model) :
  n_features s = Some n -> model s = Some mdl ->
  forward_selection better pick data label s =
  (search_result better pick n mdl data label, s).
Proof.
  intros Hn Hm. unfold forward_selection, search_result, bind, get, lift.
  rewrite Hn, Hm. destruct (sample_loss mdl data label (np_ones n)); reflexivity.
Qed.

Lemma nth_error_set_nth_eq {A} (i : nat) (v : A) (l : list A) :
  i < length l -> nth_error (set_nth i v l) i = Some v.
Proof.
  revert i; induction l as [|a t IH]; intros [|i] H; simpl in *; try lia; auto.
  apply IH. lia.
Qed.

Lemma nth_error_set_nth_neq {A} (i j : nat) (v : A) (l : list A) :
  i <> j -> nth_error (set_nth i v l) j = nth_error l j.
Proof.
  revert i j; induction l as [|a t IH]; intros [|i] [|j] H; simpl; auto; try lia.
Qed.

Section StoreSearch.

Variable field : SAFE -> option matrix.
Variable set_field : option matrix -> SAFE -> SAFE.
Hypothesis field_set : forall v s, field (set_field v s) = v.
Hypothesis set_set : forall v w s, set_field v (set_field w s) = set_field v s.
Hypothesis set_same : forall s, set_field (field s) s = s.
Hypothesis n_features_set : forall v s, n_features (set_field v s) = n_features s.
Hypothesis model_set : forall v s, model (set_field v s) = model s.

Variable better : row -> row -> result bool.
Variable pick : list row -> result row.
Variable n : nat.
Variable mdl : Model.
Variable ys : row.

Lemma for_each_store_search (l : matrix) (i0 : nat) (st : SAFE) (a : matrix) :
  n_features st = Some n -> model st = Some mdl -> field st = Some a ->
  i0 + length l <= length a ->
  (forall j x, nth_error l j = Some x ->
     exists lab m, nth_error ys (i0 + j) = Some lab /\
                   search_result better pick n mdl x lab = Ok m) ->
  exists a',
    for_each (enumerate_from i0 l)
             (store_search field set_field (forward_selection better pick) ys) st
    = (Ok tt, set_field (Some a') st) /\
    length a' = length a /\
    (forall j, j < i0 \/ i0 + length l <= j -> nth_error a' j = nth_error a j) /\
    (forall j x lab, nth_error l j = Some x -> nth_error ys (i0 + j) = Some lab ->
       exists m, search_result better pick n mdl x lab = Ok m /\
                 nth_error a' (i0 + j) = Some m).
Proof.
  revert i0 st a. induction l as [|x l IH]; intros i0 st a Hn Hm Hf Hlen Hok.
  - exists a. simpl. unfold ret. rewrite <- Hf, set_same.
    repeat split; auto. intros j x lab Hj. destruct j; discriminate.
  - destruct (Hok 0 x eq_refl) as [lab [m [Hlab Hres]]].
    rewrite Nat.add_0_r in Hlab.
    simpl in Hlen.
    set (st1 := set_field (Some (set_nth i0 m a)) st).
    destruct (IH (S i0) st1 (set_nth i0 m a)) as [a' [Hrun [Hl' [Hout Hin]]]].
    + unfold st1. now rewrite n_features_set.
    + unfold st1. now rewrite model_set.
    + unfold st1. apply field_set.
    + rewrite set_nth_length. lia.
    + intros j z Hz. destruct (Hok (S j) z Hz) as [lab' [m' [H1 H2]]].
      exists lab', m'. split; [|exact H2]. now rewrite Nat.add_succ_l, <- Nat.add_succ_r.
    + exists a'. split; [|split; [|split]].
      * simpl for_each. unfold bind at 1.
        assert (store_search field set_field (forward_selection better pick) ys
                  (i0, x) st = (Ok tt, st1)) as Hbody.
        { unfold store_search, bind, lift, get, modify. cbn [fst snd].
          unfold index. rewrite Hlab.
          rewrite (forward_selection_eval better pick x lab st n mdl Hn Hm), Hres.
          rewrite Hf. unfold assign_row.
          replace (i0 <? length a) with true
            by (symmetry; apply Nat.ltb_lt; lia).
          reflexivity. }
        rewrite Hbody, Hrun. unfold st1. now rewrite set_set.
      * now rewrite Hl', set_nth_length.
      * intros j Hj. simpl in Hj. rewrite Hout by lia.
        apply nth_error_set_nth_neq. lia.
      * intros [|j] z lab' Hz Hlab'.
        -- simpl in Hz. injection Hz as <-. rewrite Nat.add_0_r in *.
           assert (lab' = lab) as -> by congruence.
           exists m. split; [exact Hres|].
           rewrite Hout by lia.
           apply nth_error_set_nth_eq. lia.
        -- simpl in Hz. rewrite Nat.add_succ_r, <- Nat.add_succ_l in Hlab' |- *.
           eapply Hin; eauto.
Qed.

End StoreSearch.

Lemma set_y_better_same (s : SAFE) : set_y_better (y_better s) s = s.
Proof. now destruct s. Qed.

Lemma set_y_worst_same (s : SAFE) : set_y_worst (y_worst s) s = s.
Proof. now destruct s. Qed.

Lemma enumerate_nth_error {A} (l : list A) (j : nat) (x : A) :
  nth_error l j = Some x -> j < length l.
Proof. intros H. apply nth_error_Some. congruence. Qed.

Section ScanForwardSelection.

Variable RandomState : Type.
Variable train_test_split :
  RandomState -> option Z -> Q -> matrix -> row -> result (matrix * row).

Lemma scan_forward_selection_loop (g : RandomState) (mdl : Model)
  (X0 : ndarray) (y0 : row) (aim0 : string) (s : SAFE) :
  combinations_mode s = "forward_selection"%string -> n_points s = None ->
  scan RandomState train_test_split g mdl X0 y0 aim0 s =
  for_each (enumerate (arr_rows X0))
    (if String.eqb aim0 "better"
     then store_search y_better set_y_better
            __combination_search_forward_selection_min y0
     else store_search y_worst set_y_worst
            __combination_search_forward_selection_max y0)
    (before_search mdl X0 aim0 s).
Proof.
  intros Hm Hn.
  assert (~ known_mode (combinations_mode s)) as Hk.
  { rewrite Hm. unfold known_mode. intros [H|[H|[H|H]]]; discriminate. }
  unfold scan. unfold bind at 1. unfold modify at 1.
  unfold bind at 1. unfold get at 1.
  unfold bind at 1. cbn [n_points set_n_features]. rewrite Hn. unfold ret at 1.
  cbn [fst snd].
  unfold bind at 1. unfold modify at 1.
  unfold bind at 1. unfold modify at 1.
  unfold bind at 1. unfold modify at 1.
  unfold bind at 1. rewrite generate_unknown_mode by exact Hk.
  unfold bind at 1. unfold modify at 1.
  unfold bind at 1. unfold modify at 1.
  cbn [combinations_mode set_n_features]. rewrite Hm.
  cbn [String.eqb Ascii.eqb Bool.eqb].
  unfold before_search.
  destruct (String.eqb aim0 "better"); reflexivity.
Qed.

Lemma search_result_ok (cmp : Q -> Q -> bool)
  (better : row -> row -> result bool) (n : nat) (mdl : Model) (x : row)
  (lab : Q) :
  (forall a b : Q, better [a] [b] = Ok (cmp a b)) ->
  (forall a a' b b', (a == a')%Q -> (b == b')%Q -> cmp a b = cmp a' b') ->
  scalar_model mdl -> length x = n ->
  exists m, search_result better (py_pick better) n mdl x lab = Ok m.
Proof.
  intros Hb Hc Hm Hlen.
  set (s0 := set_model (Some mdl) (set_n_features (Some n) (__init__ "" 0 None None))).
  destruct (forward_selection_run cmp better s0 n mdl x lab Hb Hc eq_refl eq_refl
              Hm Hlen) as [moves [Hrun _]].
  rewrite (forward_selection_eval better (py_pick better) x lab s0 n mdl eq_refl eq_refl)
    in Hrun.
  exists (last moves (np_ones n)). now inversion Hrun.
Qed.

(** X5: in mode ['forward_selection'] without subsampling, a [scan] of a
    rectangular array with as many labels as rows returns. With aim
    ['better'], row [i] of [y_better] is the mask the min search returns for
    sample [i] and its label, and [y_worst] is all zeros; with any other aim,
    row [i] of [y_worst] is the mask of the max search and [y_better] is all
    zeros. [combinations] is not touched. *)
Theorem scan_forward_selection_stores_searches (g : RandomState) (mdl : Model)
  (X0 : ndarray) (y0 : row) (aim0 : string) (s : SAFE) :
  combinations_mode s = "forward_selection"%string -> n_points s = None ->
  scalar_model mdl -> rectangular (ncols X0) (arr_rows X0) ->
  length y0 = length (arr_rows X0) ->
  exists s' masks,
    scan RandomState train_test_split g mdl X0 y0 aim0 s = (Ok tt, s') /\
    length masks = length (arr_rows X0) /\
    combinations s' = combinations s /\
    (aim0 = "better"%string ->
     y_better s' = Some masks /\
     y_worst s' = Some (np_zeros2 (length (arr_rows X0)) (ncols X0)) /\
     forall i x lab,
       nth_error (arr_rows X0) i = Some x -> nth_error y0 i = Some lab ->
       exists m, nth_error masks i = Some m /\
                 __combination_search_forward_selection_min x lab s' = (Ok m, s')) /\
    (aim0 <> "better"%string ->
     y_worst s' = Some masks /\
     y_better s' = Some (np_zeros2 (length (arr_rows X0)) (ncols X0)) /\
     forall i x lab,
       nth_error (arr_rows X0) i = Some x -> nth_error y0 i = Some lab ->
       exists m, nth_error masks i = Some m /\
                 __combination_search_forward_selection_max x lab s' = (Ok m, s')).
Proof.
  intros Hm Hn Hmdl Hrect Hlen.
  rewrite (scan_forward_selection_loop g mdl X0 y0 aim0 s Hm Hn).
  set (st := before_search mdl X0 aim0 s).
  set (zeros := np_zeros2 (length (arr_rows X0)) (ncols X0)).
  assert (length zeros = length (arr_rows X0)) as Hz
    by (unfold zeros, np_zeros2; apply repeat_length).
  assert (forall (cmp : Q -> Q -> bool) (better : row -> row -> result bool),
            (forall a b : Q, better [a] [b] = Ok (cmp a b)) ->
            (forall a a' b b', (a == a')%Q -> (b == b')%Q -> cmp a b = cmp a' b') ->
            forall j x, nth_error (arr_rows X0) j = Some x ->
              exists lab m, nth_error y0 (0 + j) = Some lab /\
                search_result better (py_pick better) (ncols X0) mdl x lab = Ok m)
    as Hok.
  { intros cmp better Hb Hc j x Hx.
    assert (j < length y0) as Hj
      by (rewrite Hlen; eapply enumerate_nth_error; eauto).
    destruct (nth_error y0 j) as [lab|] eqn:E; [|apply nth_error_None in E; lia].
    destruct (search_result_ok cmp better (ncols X0) mdl x lab Hb Hc Hmdl) as [m Hres].
    { apply (proj1 (Forall_forall _ _) Hrect). eapply nth_error_In; eauto. }
    exists lab, m. auto. }
  destruct (String.eqb_spec aim0 "better") as [Haim|Haim].
  - destruct (for_each_store_search y_better set_y_better
                (fun v s => eq_refl) (fun v w s => eq_refl) set_y_better_same
                (fun v s => eq_refl) (fun v s => eq_refl)
                arr_lt py_min (ncols X0) mdl y0 (arr_rows X0) 0 st zeros)
      as [a' [Hrun [Hl [_ Hin]]]]; try reflexivity.
    + rewrite Hz. simpl. lia.
    + apply (Hok Qltb arr_lt); auto using Qltb_compat.
    + exists (set_y_better (Some a') st), a'.
      split; [exact Hrun|]. split; [congruence|]. split; [reflexivity|].
      split; [|intros; contradiction].
      intros _. split; [reflexivity|]. split; [reflexivity|].
      intros i x lab Hx Hlab.
      destruct (Hin i x lab Hx Hlab) as [m [Hres Hm']].
      exists m. split; [exact Hm'|].
      unfold __combination_search_forward_selection_min.
      rewrite (forward_selection_eval arr_lt py_min x lab _ (ncols X0) mdl)
        by reflexivity.
      now rewrite Hres.
  - destruct (for_each_store_search y_worst set_y_worst
                (fun v s => eq_refl) (fun v w s => eq_refl) set_y_worst_same
                (fun v s => eq_refl) (fun v s => eq_refl)
                arr_gt py_max (ncols X0) mdl y0 (arr_rows X0) 0 st zeros)
      as [a' [Hrun [Hl [_ Hin]]]]; try reflexivity.
    + rewrite Hz. simpl. lia.
    + apply (Hok (fun a b => Qltb b a) arr_gt); auto.
      intros a a0 b b0 Ha Hb. now apply Qltb_compat.
    + exists (set_y_worst (Some a') st), a'.
      split; [exact Hrun|]. split; [congruence|]. split; [reflexivity|].
      split; [intros; contradiction|].
      intros _. split; [reflexivity|]. split; [reflexivity|].
      intros i x lab Hx Hlab.
      destruct (Hin i x lab Hx Hlab) as [m [Hres Hm']].
      exists m. split; [exact Hm'|].
      unfold __combination_search_forward_selection_max.
      rewrite (forward_selection_eval arr_gt py_max x lab _ (ncols X0) mdl)
        by reflexivity.
      now rewrite Hres.
Qed.

End ScanForwardSelection.

Lemma take_rows_arg_In (arg : row -> nat) (combs : matrix) (cols : list row)
  (rows : nat) (m : row) :
  (forall l : row, l <> [] -> arg l < length l) ->
  combs <> [] -> length cols = length combs ->
  In m (take_rows combs (map arg (rows_of_columns rows cols))) -> In m combs.
Proof.
  intros Harg Hne Hlen Hin.
  unfold take_rows, rows_of_columns in Hin.
  rewrite !map_map in Hin. apply in_map_iff in Hin.
  destruct Hin as [i [<- _]].
  apply nth_In.
  rewrite <- Hlen.
  assert (map (fun c : row => nth i c 0%Q) cols <> []) as Hr.
  { destruct cols; [|discriminate].
    destruct combs; [congruence|discriminate]. }
  pose proof (Harg _ Hr) as H. now rewrite length_map in H.
Qed.

Lemma rmap_length {A B} (f : A -> result B) (l : list A) (l' : list B) :
  rmap f l = Ok l' -> length l' = length l.
Proof.
  intros H. apply rmap_ok_inv in H.
  induction H; simpl; congruence.
Qed.

Section ScanExhaustive.

Variable RandomState : Type.
Variable train_test_split :
  RandomState -> option Z -> Q -> matrix -> row -> result (matrix * row).

Lemma scan_exhaustive_run (g : RandomState) (mdl : Model)
  (X0 : ndarray) (y0 : row) (aim0 : string) (s : SAFE) :
  exhaustive_mode s -> n_points s = None -> scalar_model mdl ->
  rectangular (ncols X0) (arr_rows X0) -> length y0 = length (arr_rows X0) ->
  exists s' combs yw yb,
    scan RandomState train_test_split g mdl X0 y0 aim0 s = (Ok tt, s') /\
    X s' = Some (arr_rows X0) /\ combinations s' = Some combs /\
    y_worst s' = Some yw /\ y_better s' = Some yb /\
    length yw = length (arr_rows X0) /\ length yb = length (arr_rows X0) /\
    (forall m, In m yw \/ In m yb -> In m combs) /\
    (combinations_mode s = "all"%string -> combs = all_combinations (ncols X0)) /\
    (combinations_mode s = "one-by-one"%string ->
     combs = one_by_one_combinations (ncols X0)).
Proof.
  intros Hmode Hn Hmdl Hrect Hlen.
  destruct (scan_returns RandomState train_test_split g mdl X0 y0 aim0 s
              Hmode Hn Hmdl Hrect Hlen) as [s' Hrun].
  assert (combinations_mode s <> "genetic"%string /\
          combinations_mode s <> "forward_selection"%string) as [Hg Hf]
    by (destruct Hmode as [E|E]; rewrite E; split; discriminate).
  destruct (scan_search_inv _ _ _ _ _ _ _ _ _ Hg Hf Hrun)
    as (Xs & ys & combs & cols & HXy & Hne & Hcols & HX & Hcombs & Hw & Hb & Hall & Hone).
  rewrite Hn in HXy. destruct HXy as [-> ->].
  pose proof (rmap_length _ _ _ Hcols) as Hcl.
  assert (forall m,
            In m (take_rows combs
                    (map argmax (rows_of_columns (length (arr_rows X0)) cols))) \/
            In m (take_rows combs
                    (map argmin (rows_of_columns (length (arr_rows X0)) cols))) ->
            In m combs) as Hin.
  { intros m [H|H].
    - apply (take_rows_arg_In argmax combs cols _ m) in H; auto.
      intros l Hl. apply (argmax_spec l Hl).
    - apply (take_rows_arg_In argmin combs cols _ m) in H; auto.
      intros l Hl. apply (argmin_spec l Hl). }
  exists s', combs. eexists. eexists.
  split; [exact Hrun|]. split; [exact HX|]. split; [exact Hcombs|].
  split; [exact Hw|]. split; [exact Hb|].
  split; [|split; [|split; [|split]]].
  - unfold take_rows, rows_of_columns. now rewrite !length_map, length_seq.
  - unfold take_rows, rows_of_columns. now rewrite !length_map, length_seq.
  - exact Hin.
  - exact Hall.
  - exact Hone.
Qed.

(** X1: in the modes ['all'] and ['one-by-one'], without subsampling, a
    [scan] of a rectangular array with as many labels as rows, with a model
    that answers one value per sample, returns. [y_worst] and [y_better] then
    hold one mask per sample, every mask a row of [combinations]; in mode
    ['one-by-one'] a mask therefore drops at most one feature and never
    feature 0. *)
Theorem scan_exhaustive_returns_masks (g : RandomState) (mdl : Model)
  (X0 : ndarray) (y0 : row) (aim0 : string) (s : SAFE) :
  exhaustive_mode s -> n_points s = None -> scalar_model mdl ->
  rectangular (ncols X0) (arr_rows X0) -> length y0 = length (arr_rows X0) ->
  exists s' combs yw yb,
    scan RandomState train_test_split g mdl X0 y0 aim0 s = (Ok tt, s') /\
    combinations s' = Some combs /\
    y_worst s' = Some yw /\ y_better s' = Some yb /\
    length yw = length (arr_rows X0) /\ length yb = length (arr_rows X0) /\
    (forall m, In m yw \/ In m yb -> In m combs) /\
    (combinations_mode s = "one-by-one"%string ->
     forall m, In m yw \/ In m yb ->
       m = np_ones (ncols X0) \/
       exists i, 1 <= i < ncols X0 /\ m = set_nth i 0%Q (np_ones (ncols X0))).
Proof.
  intros Hmode Hn Hmdl Hrect Hlen.
  destruct (scan_exhaustive_run g mdl X0 y0 aim0 s Hmode Hn Hmdl Hrect Hlen)
    as (s' & combs & yw & yb & Hrun & _ & Hcombs & Hw & Hb & Hlw & Hlb & Hin & _ & Hone).
  exists s', combs, yw, yb.
  repeat (split; [assumption|]).
  intros E m Hm. apply one_by_one_In. rewrite <- (Hone E). now apply Hin.
Qed.

Lemma exhaustive_mask_shape (n : nat) (mode : string) (combs : matrix) (m : row) :
  (mode = "all"%string -> combs = all_combinations n) ->
  (mode = "one-by-one"%string -> combs = one_by_one_combinations n) ->
  mode = "all"%string \/ mode = "one-by-one"%string ->
  In m combs -> length m = n /\ binary_row m.
Proof.
  intros Hall Hone [E|E] Hin.
  - rewrite (Hall E) in Hin. now apply all_combinations_In in Hin.
  - rewrite (Hone E) in Hin. split.
    + apply one_by_one_In in Hin.
      destruct Hin as [->|[i [_ ->]]].
      * apply repeat_length.
      * rewrite set_nth_length. apply repeat_length.
    + exact (proj1 (Forall_forall _ _) (binary_one_by_one n) m Hin).
Qed.

End ScanExhaustive.

Lemma for_each_invariant {A} (P : SAFE -> Prop) (l : list A)
  (body : A -> M unit) :
  (forall a s r s', P s -> body a s = (r, s') -> P s') ->
  forall s r s', P s -> for_each l body s = (r, s') -> P s'.
Proof.
  intros Hbody. induction l as [|a l IH]; intros s r s' HP H; simpl in H.
  - inv_prims. exact HP.
  - bsplit H.
    + eapply IH; [|exact H]. eapply Hbody; eauto.
    + eapply Hbody; eauto.
Qed.

Lemma forward_selection_frame (better : row -> row -> result bool)
  (pick : list row -> result row) (data : row) (label : Q) (s s' : SAFE)
  (r : result row) :
  forward_selection better pick data label s = (r, s') -> s' = s.
Proof.
  intros H. unfold forward_selection in H.
  bsplit H. bsplit H; [|reflexivity]. bsplit H; [|reflexivity].
  bsplit H; [|reflexivity]. reflexivity.
Qed.

Section ScanLearn.

Variable RandomState : Type.
Variable train_test_split :
  RandomState -> option Z -> Q -> matrix -> row -> result (matrix * row).
Variable KDTree : option matrix -> result KDTreeObj.

Lemma scan_ok_scanned_with (g : RandomState) (mdl : Model) (X0 : ndarray)
  (y0 : row) (aim0 : string) (s s' : SAFE) :
  scan RandomState train_test_split g mdl X0 y0 aim0 s = (Ok tt, s') ->
  scanned_with mdl (ncols X0) aim0 s'.
Proof.
  intros H. unfold scan in H.
  step H. apply modify_inv in Hc. destruct Hc as [_ ->].
  step H. apply get_inv in Hc. destruct Hc as [-> ->].
  step H. rename a0 into Xy. simpl in Hc.
  assert (s0 = set_n_features (Some (ncols X0)) s) as ->.
  { destruct (n_points s) as [k|].
    - destruct (length (arr_rows X0) =? 0); inv_prims; reflexivity.
    - inv_prims. reflexivity. }
  clear Hc.
  step H. apply modify_inv in Hc. destruct Hc as [_ ->].
  step H. apply modify_inv in Hc. destruct Hc as [_ ->].
  step H. apply modify_inv in Hc. destruct Hc as [_ ->].
  step H. apply generate_frame in Hc.
  step H. apply modify_inv in Hc0. destruct Hc0 as [_ ->].
  step H. apply modify_inv in Hc0. destruct Hc0 as [_ ->].
  assert (scanned_with mdl (ncols X0) aim0
            (set_aim (Some aim0) (set_model (Some mdl) s0))) as HP.
  { unfold scanned_with. simpl.
    destruct Hc as [->|[c ->]]; simpl; auto. }
  clear Hc. simpl in H.
  set (st := set_aim (Some aim0) (set_model (Some mdl) s0)) in *.
  clearbody st.
  assert (forall (field : SAFE -> option matrix) set_field better pick,
            (forall v s1, scanned_with mdl (ncols X0) aim0 s1 ->
                          scanned_with mdl (ncols X0) aim0 (set_field v s1)) ->
            forall (ij : nat * row) s1 (r : result unit) s2,
              scanned_with mdl (ncols X0) aim0 s1 ->
              bind (lift (index (snd Xy) (fst ij))) (fun label =>
              bind (forward_selection better pick (snd ij) label) (fun m =>
              bind get (fun s3 =>
              bind (lift (assign_row (fst ij) m (field s3))) (fun v =>
              modify (set_field v))))) s1 = (r, s2) ->
              scanned_with mdl (ncols X0) aim0 s2) as Hbody.
  { intros field set_field better pick Hset ij s1 r s2 HP1 Hb.
    bsplit Hb; [|exact HP1].
    bsplit Hb; apply forward_selection_frame in Hc; subst; [|exact HP1].
    bsplit Hb. bsplit Hb; [|exact HP1]. now apply Hset. }
  destruct (String.eqb (combinations_mode s) "genetic").
  { revert H. apply for_each_invariant; [|exact HP].
    intros ij s1 r s2 HP1 Hb. bsplit Hb; exact HP1. }
  destruct (String.eqb (combinations_mode s) "forward_selection").
  { destruct (String.eqb aim0 "better").
    - revert H. apply for_each_invariant; [|exact HP].
      apply (Hbody y_better set_y_better).
      intros v s1 HP1. exact HP1.
    - revert H. apply for_each_invariant; [|exact HP].
      apply (Hbody y_worst set_y_worst).
      intros v s1 HP1. exact HP1. }
  step H. apply get_inv in Hc. destruct Hc as [-> ->].
  step H. apply lift_inv in Hc. destruct Hc as [_ ->].
  step H. apply lift_inv in Hc. destruct Hc as [_ ->].
  step H. apply lift_inv in Hc. destruct Hc as [_ ->].
  step H. apply modify_inv in Hc. destruct Hc as [_ ->].
  step H. apply lift_inv in Hc. destruct Hc as [_ ->].
  apply modify_inv in H. destruct H as [_ ->].
  exact HP.
Qed.

Lemma learn_frame (algorithm0 aim0 : string) (learner0 : option Learner)
  (train : bool) (s s' : SAFE) (r : result (option Learner)) :
  learn KDTree algorithm0 aim0 learner0 train s = (r, s') ->
  exists l, s' = learnt s algorithm0 aim0 l.
Proof.
  intros H. unfold learn in H.
  bsplit H. bsplit H. bsplit H. bsplit H. bsplit H.
  assert (forall (r0 : result unit) s1,
            (if String.eqb algorithm0 "knn" then
               match learner0 with
               | None => bind (lift (KDTree (X s))) (fun t =>
                         modify (set_learner (Some (KDTreeL t))))
               | Some _ => ret tt
               end
             else ret tt)
              (set_learner learner0
                 (set_algorithm (Some algorithm0)
                    (set_y (chosen_masks s aim0)
                       (set_aim (chosen_aim s aim0) s)))) = (r0, s1) ->
            exists l, s1 = learnt s algorithm0 aim0 l) as Hknn.
  { intros r0 s1 Hr0.
    destruct (String.eqb algorithm0 "knn"); [destruct learner0|];
      try bsplit Hr0; inv_prims; eexists; unfold learnt; reflexivity. }
  bsplit H; [|now apply Hknn in Hc].
  apply Hknn in Hc. destruct Hc as [l0 ->].
  assert (forall (r0 : result unit) s1,
            (if String.eqb algorithm0 "ann" then _ann train else ret tt)
              (learnt s algorithm0 aim0 l0) = (r0, s1) ->
            exists l, s1 = learnt s algorithm0 aim0 l) as Hann.
  { intros r0 s1 Hr0.
    destruct (String.eqb algorithm0 "ann"); [|inv_prims; eauto].
    unfold _ann in Hr0. bsplit Hr0.
    destruct (learner (learnt s algorithm0 aim0 l0)) as [[t|k]|].
    - destruct train; inv_prims; eauto.
    - destruct train; [|inv_prims; eauto].
      bsplit Hr0; eexists; unfold learnt; reflexivity.
    - bsplit Hr0; eauto. }
  bsplit H.
  - apply Hann in Hc. bsplit H. exact Hc.
  - now apply Hann in Hc.
Qed.

(** X8: once a [scan] has returned, [learn] keeps the aim of that [scan]
    unless it is the empty string: its own [aim] argument changes neither
    the outcome nor the object, and [y] becomes [y_better] for the scan's aim
    ['better'] and [y_worst] otherwise. After a [scan] with the empty aim,
    [learn] takes its own argument. The arrays of the [scan] stay as they
    are. *)
Theorem learn_keeps_scan_aim (g : RandomState) (mdl : Model) (X0 : ndarray)
  (y0 : row) (aim0 : string) (s s1 : SAFE) :
  scan RandomState train_test_split g mdl X0 y0 aim0 s = (Ok tt, s1) ->
  forall (algorithm0 aim1 : string) (learner0 : option Learner) (train : bool),
    let s2 := snd (learn KDTree algorithm0 aim1 learner0 train s1) in
    X s2 = X s1 /\ y_better s2 = y_better s1 /\ y_worst s2 = y_worst s1 /\
    combinations s2 = combinations s1 /\ algorithm s2 = Some algorithm0 /\
    (aim0 <> ""%string ->
     learn KDTree algorithm0 aim1 learner0 train s1 =
     learn KDTree algorithm0 aim0 learner0 train s1 /\
     aim s2 = Some aim0 /\
     y s2 = if String.eqb aim0 "better" then y_better s1 else y_worst s1) /\
    (aim0 = ""%string ->
     aim s2 = Some aim1 /\
     y s2 = if String.eqb aim1 "better" then y_better s1 else y_worst s1).
Proof.
  intros Hscan algorithm0 aim1 learner0 train s2.
  destruct (scan_ok_scanned_with _ _ _ _ _ _ _ Hscan) as (Haim & _ & _).
  destruct (learn KDTree algorithm0 aim1 learner0 train s1) as [r s2'] eqn:E.
  destruct (learn_frame _ _ _ _ _ _ _ E) as [l Hl].
  subst s2. simpl. subst s2'.
  repeat (split; [reflexivity|]).
  split.
  - intros Hne. apply String.eqb_neq in Hne.
    assert (chosen_aim s1 aim1 = Some aim0) as Hca
      by (unfold chosen_aim, truthy; rewrite Haim, Hne; reflexivity).
    split; [|split].
    + rewrite <- E. unfold learn, bind, get, modify, chosen_masks, chosen_aim, truthy.
      rewrite Haim, Hne. reflexivity.
    + simpl. exact Hca.
    + simpl. unfold chosen_masks. rewrite Hca. reflexivity.
  - intros ->.
    assert (chosen_aim s1 aim1 = Some aim1) as Hca
      by (unfold chosen_aim, truthy; rewrite Haim; reflexivity).
    split.
    + simpl. exact Hca.
    + simpl. unfold chosen_masks. rewrite Hca. reflexivity.
Qed.

(** X9: [learn('ann')] without an external learner never builds a network:
    it raises [NameError] at the name [Sequential], which the module does
    not bind. The object is left with [algorithm = 'ann'] and no learner, so
    a [get_selection] after it raises [AttributeError]. *)
Theorem learn_ann_without_learner_raises (aim0 : string) (train : bool)
  (s : SAFE) :
  learn KDTree "ann" aim0 None train s =
    (Raise NameError, learnt s "ann" aim0 None) /\
  forall data,
    get_selection data (learnt s "ann" aim0 None) =
      (Raise AttributeError, learnt s "ann" aim0 None).
Proof.
  split; [reflexivity|]. intros data. reflexivity.
Qed.

End ScanLearn.

Lemma np_multiply_2_2_same_shape (data sel : matrix) :
  Forall2 (fun d m => length d = length m) data sel ->
  np_multiply_2_2 data sel = Ok (zip_with (zip_with Qmult) data sel).
Proof.
  intros HF. unfold np_multiply_2_2, broadcast1 at 1.
  rewrite (Forall2_length_eq _ _ _ HF), Nat.eqb_refl. simpl.
  induction HF as [|d m data sel Hdm HF IH]; [reflexivity|].
  simpl. unfold broadcast1 at 1. rewrite Hdm, Nat.eqb_refl.
  rewrite IH. reflexivity.
Qed.

Lemma multiply_masked_row (d m : row) :
  length d = length m -> binary_row m -> masked_row m d (zip_with Qmult d m).
Proof.
  intros Hlen Hbin. split.
  - rewrite zip_with_length. lia.
  - intros j Hj.
    rewrite (zip_with_nth Qmult d m 0%Q 0%Q) by lia.
    assert (binary (nth j m 0%Q)) as [E|E].
    { apply (proj1 (Forall_forall _ _) Hbin). apply nth_In. lia. }
    + right. split; [exact E|]. rewrite E. ring.
    + left. split; [exact E|]. rewrite E. ring.
Qed.

Lemma multiply_masked (P : row -> row -> Prop) (data sel : matrix) :
  Forall2 (fun d m => P d m /\ length d = length m /\ binary_row m) data sel ->
  Forall2 (fun d c => exists m, P d m /\ masked_row m d c)
          data (zip_with (zip_with Qmult) data sel).
Proof.
  induction 1 as [|d m data sel (HP & Hlen & Hbin) _ IH]; simpl; constructor;
    auto.
  exists m. split; [exact HP|]. now apply multiply_masked_row.
Qed.

Lemma nearest_all_lt (pts data : matrix) (ind : list nat) :
  Forall2 (nearest pts) data ind -> Forall (fun k => k < length pts) ind.
Proof.
  induction 1; constructor; auto. eapply nearest_lt; eauto.
Qed.

Section CleanPipeline.

Variable RandomState : Type.
Variable train_test_split :
  RandomState -> option Z -> Q -> matrix -> row -> result (matrix * row).
Variable KDTree : option matrix -> result KDTreeObj.

(** X10: [scan] in mode ['all'] or ['one-by-one'], then [learn('knn')]
    without an external learner, then [clean_data] on data with at least one
    row: with a tree that answers with nearest neighbours, all three return,
    and every row of the cleaned array is the row of the data masked with
    [self.y[k]] for a scanned sample [k] nearest to it: the entries the mask
    selects are kept, the others are 0. [clean_data] leaves the object as
    [learn] left it. *)
Theorem clean_data_applies_nearest_mask (g : RandomState) (mdl : Model)
  (X0 : ndarray) (y0 : row) (aim0 aim1 : string) (train : bool) (s : SAFE)
  (data : matrix) :
  nearest_neighbour_tree KDTree ->
  exhaustive_mode s -> n_points s = None -> scalar_model mdl ->
  arr_rows X0 <> [] -> 0 < ncols X0 -> rectangular (ncols X0) (arr_rows X0) ->
  length y0 = length (arr_rows X0) ->
  data <> [] -> rectangular (ncols X0) data ->
  exists s1 l s2 ys cleaned,
    scan RandomState train_test_split g mdl X0 y0 aim0 s = (Ok tt, s1) /\
    learn KDTree "knn" aim1 None train s1 = (Ok l, s2) /\
    y s2 = Some ys /\
    clean_data data s2 = (Ok cleaned, s2) /\
    Forall2 (fun q c => exists m,
               (exists k, nearest (arr_rows X0) q k /\ nth_error ys k = Some m) /\
               masked_row m q c)
            data cleaned.
Proof.
  intros Htree Hmode Hn Hmdl Hne Hcols Hrect Hlen Hd Hdata.
  destruct (scan_exhaustive_run RandomState train_test_split g mdl X0 y0 aim0 s
              Hmode Hn Hmdl Hrect Hlen)
    as (s1 & combs & yw & yb & Hrun & HX & Hcombs & Hw & Hb & Hlw & Hlb & Hin
        & Hall & Hone).
  assert (exists ys, chosen_masks s1 aim1 = Some ys /\
                     length ys = length (arr_rows X0) /\
                     forall m, In m ys -> In m combs) as (ys & Hys & Hly & Hiny).
  { unfold chosen_masks. destruct (is_str (chosen_aim s1 aim1) "better").
    - exists yb. rewrite Hb. auto.
    - exists yw. rewrite Hw. auto. }
  destruct (Htree (arr_rows X0) (ncols X0) Hne Hcols Hrect) as [t [Ht Hquery]].
  destruct (Hquery data Hd Hdata) as [ind [Hq Hnear]].
  assert (Forall (fun k => k < length ys) ind) as Hind.
  { rewrite Hly. eapply nearest_all_lt; eauto. }
  destruct (get_selection_knn_run s1 aim1 t ys data ind Hys Hq Hind)
    as [sel [Hsel HF]].
  assert (Forall2 (fun (d m : row) =>
                     (exists k, nearest (arr_rows X0) d k /\
                                nth_error ys k = Some m) /\
                     length d = length m /\ binary_row m) data sel)
    as Hshape.
  { clear Hq Hsel Hind Hd. revert sel HF.
    induction Hnear as [|d k data ind Hk Hnear IH]; intros sel HF;
      inversion HF; subst; constructor.
    - inversion Hdata; subst.
      match goal with
      | E : nth_error ys k = Some ?y |- _ =>
          destruct (exhaustive_mask_shape (ncols X0) (combinations_mode s) combs y
                      Hall Hone Hmode) as [Hl Hbn];
            [apply Hiny; eapply nth_error_In; exact E
            | split; [eauto | split; [congruence|exact Hbn]]]
      end.
    - apply IH; [now inversion Hdata|assumption]. }
  exists s1, (Some (KDTreeL t)), (learnt_knn s1 aim1 t), ys,
         (zip_with (zip_with Qmult) data sel).
  split; [exact Hrun|].
  split; [apply learn_knn_run; now rewrite HX|].
  split; [exact Hys|].
  split.
  - unfold clean_data, bind. rewrite Hsel. unfold lift.
    rewrite np_multiply_2_2_same_shape; [reflexivity|].
    eapply Forall2_impl; [|exact Hshape]. now intros d m (_ & ? & _).
  - now apply multiply_masked.
Qed.

End CleanPipeline.

Lemma fl_total_finite (qs : row) (a : Q) :
  fold_left fl_add (map Finite qs) (Finite a) = Finite (fold_left Qplus qs a).
Proof.
  revert a. induction qs as [|q qs IH]; intros a; simpl; [reflexivity|apply IH].
Qed.

Lemma fold_left_Qplus_sum (qs : row) (a : Q) :
  (fold_left Qplus qs a == a + fold_right Qplus 0 qs)%Q.
Proof.
  revert a. induction qs as [|q qs IH]; intros a; simpl.
  - ring.
  - rewrite IH. ring.
Qed.

Lemma percent_finite (qs : row) :
  percent (score_list (map Finite qs)) =
  score_list (if Qeq_bool (fold_left Qplus qs 0%Q) 0%Q
              then map (fun _ => NotFinite) qs
              else map (fun q => Finite (q / fold_left Qplus qs 0%Q * 100)) qs).
Proof.
  unfold percent. rewrite fl_total_finite, map_map. simpl.
  destruct (Qeq_bool (fold_left Qplus qs 0%Q) 0%Q); reflexivity.
Qed.

Lemma sum_nonneg (qs : row) :
  Forall (fun q => (0 <= q)%Q) qs -> (0 <= fold_right Qplus 0 qs)%Q.
Proof.
  induction 1 as [|q qs Hq _ IH]; simpl; [apply Qle_refl | lra].
Qed.

Lemma nth_le_sum (qs : row) (i : nat) :
  Forall (fun q => (0 <= q)%Q) qs -> (nth i qs 0 <= fold_right Qplus 0 qs)%Q.
Proof.
  intros H. revert i. induction H as [|q qs Hq H IH]; intros [|i]; simpl;
    try apply Qle_refl.
  - pose proof (sum_nonneg qs H). lra.
  - specialize (IH i). lra.
Qed.

Lemma sum_zero_all (qs : row) (i : nat) :
  Forall (fun q => (0 <= q)%Q) qs -> (fold_right Qplus 0 qs == 0)%Q ->
  (nth i qs 0 == 0)%Q.
Proof.
  intros H Hs. pose proof (nth_le_sum qs i H) as Hle.
  assert (0 <= nth i qs 0)%Q as Hge.
  { destruct (Nat.lt_ge_cases i (length qs)) as [Hi|Hi].
    - apply (proj1 (Forall_forall _ _) H). now apply nth_In.
    - rewrite nth_overflow by exact Hi. apply Qle_refl. }
  lra.
Qed.

Lemma all_zero_sum (qs : row) :
  (forall i, i < length qs -> (nth i qs 0 == 0)%Q) ->
  (fold_right Qplus 0 qs == 0)%Q.
Proof.
  induction qs as [|q qs IH]; intros H; simpl; [reflexivity|].
  rewrite IH.
  - rewrite (H 0); [ring | simpl; lia].
  - intros i Hi. apply (H (S i)). simpl. lia.
Qed.

Lemma column_sums_nonneg (t : matrix) (r : row) :
  Forall (fun q => (0 <= q)%Q) r ->
  Forall (Forall (fun q => (0 <= q)%Q)) t ->
  Forall (fun q => (0 <= q)%Q) (fold_left (zip_with Qplus) t r).
Proof.
  intros Hr Ht. revert r Hr.
  induction Ht as [|x t Hx _ IH]; intros r Hr; simpl; [exact Hr|].
  apply IH. clear IH. revert x Hx.
  induction Hr as [|a r Ha _ IHr]; intros x Hx; simpl; [constructor|].
  destruct Hx as [|b x Hb Hx]; simpl; constructor.
  - rewrite <- (Qplus_0_r 0). now apply Qplus_le_compat.
  - now apply IHr.
Qed.

Lemma binary_row_nonneg (m : row) :
  binary_row m -> Forall (fun q => (0 <= q)%Q) m.
Proof.
  intros H. eapply Forall_impl; [|exact H].
  intros q [->| ->]; discriminate.
Qed.

Lemma column_sums_length (t : matrix) (r : row) (n : nat) :
  length r = n -> rectangular n t ->
  length (fold_left (zip_with Qplus) t r) = n.
Proof.
  revert r. induction t as [|x t IH]; intros r Hr Ht; simpl; [exact Hr|].
  inversion Ht as [|? ? Hx Ht']; subst.
  apply IH; [|exact Ht']. rewrite zip_with_length. lia.
Qed.

Lemma column_sums_nth (t : matrix) (r : row) (n j : nat) :
  length r = n -> rectangular n t -> j < n ->
  (nth j (fold_left (zip_with Qplus) t r) 0 == nth j r 0 + column_sum t j)%Q.
Proof.
  revert r. induction t as [|x t IH]; intros r Hr Ht Hj; simpl.
  - unfold column_sum. simpl. ring.
  - inversion Ht as [|? ? Hx Ht']; subst.
    rewrite IH; auto.
    + rewrite (zip_with_nth Qplus r x 0%Q 0%Q) by lia.
      unfold column_sum. simpl. ring.
    + rewrite zip_with_length. lia.
Qed.

(** The scores computed from a 0/1 mask array. *)
Lemma mean_percent_scores (n : nat) (a : matrix) :
  rectangular n a -> binary_matrix a ->
  exists m, np_mean0 (Some a) = Ok m /\ scores_of n a (percent m).
Proof.
  intros Hrect Hbin. destruct a as [|r t].
  - exists nan_per_column. split; reflexivity.
  - assert (length r = n /\ rectangular n t) as [Hr Ht]
      by (inversion Hrect; auto).
    assert (binary_row r /\ binary_matrix t) as [Br Bt]
      by (inversion Hbin; auto).
    set (a := r :: t) in *.
    set (N := inject_Z (Z.of_nat (length a))).
    assert (0 < N)%Q as HN by (unfold N, Qlt; simpl; lia).
    set (cs := fold_left (zip_with Qplus) t r).
    set (ms := map (fun c => c / N)%Q cs).
    assert (length cs = n /\
            forall j, j < n -> (nth j cs 0 == column_sum a j)%Q) as [Hlcs Hcs].
    { split.
      - now apply column_sums_length.
      - intros j Hj. unfold cs.
        rewrite (column_sums_nth t r n j Hr Ht Hj).
        unfold a, column_sum. simpl. ring. }
    assert (Forall (fun q => (0 <= q)%Q) cs) as Hcs0.
    { apply column_sums_nonneg.
      - now apply binary_row_nonneg.
      - eapply Forall_impl; [|exact Bt]. apply binary_row_nonneg. }
    assert (Forall (fun q => (0 <= q)%Q) ms) as Hms0.
    { unfold ms. rewrite Forall_map. eapply Forall_impl; [|exact Hcs0].
      intros q Hq. simpl. unfold Qdiv.
      apply Qmult_le_0_compat; [exact Hq|].
      apply Qinv_le_0_compat. lra. }
    assert (length ms = n) as Hlms by (unfold ms; now rewrite length_map).
    assert (forall j, j < n -> (nth j ms 0 == column_sum a j / N)%Q) as Hms.
    { intros j Hj. unfold ms.
      rewrite (nth_map_lt (fun c => c / N)%Q cs 0%Q 0%Q) by lia.
      now rewrite (Hcs j Hj). }
    set (T := fold_left Qplus ms 0%Q).
    assert (T == fold_right Qplus 0 ms)%Q as HT
      by (unfold T; rewrite fold_left_Qplus_sum; ring).
    exists (score_list (map Finite ms)). split.
    { unfold ms. simpl. now rewrite map_map. }
    rewrite percent_finite. fold T. unfold scores_of, a. fold a.
    eexists. split; [reflexivity|]. split; [|split].
    + destruct (Qeq_bool T 0); now rewrite length_map.
    + intros Hzero.
      assert (T == 0)%Q as HT0.
      { rewrite HT. apply all_zero_sum. intros i Hi. rewrite Hlms in Hi.
        rewrite (Hms i Hi), (Hzero i Hi). unfold Qdiv. ring. }
      apply Qeq_eq_bool in HT0. rewrite HT0.
      apply Forall_forall. intros x Hx.
      apply in_map_iff in Hx. now destruct Hx as [_ [<- _]].
    + intros [j0 [Hj0 Hnz]].
      assert (~ (T == 0)%Q) as HTnz.
      { intros HT0. apply Hnz. rewrite HT in HT0.
        pose proof (sum_zero_all ms j0 Hms0 HT0) as E.
        rewrite (Hms j0 Hj0) in E.
        assert (column_sum a j0 == column_sum a j0 / N * N)%Q as ->
          by (field; lra).
        rewrite E. ring. }
      assert (0 < T)%Q as HTpos.
      { pose proof (sum_nonneg ms Hms0). rewrite <- HT in H.
        apply Qle_lteq in H. destruct H as [H|H]; [exact H|].
        exfalso. apply HTnz. now symmetry. }
      destruct (Qeq_bool T 0) eqn:EB;
        [apply Qeq_bool_eq in EB; contradiction|].
      set (K := (/ N * / T * 100)%Q).
      assert (0 < K)%Q as HK.
      { unfold K. apply Qmult_lt_0_compat; [|reflexivity].
        apply Qmult_lt_0_compat; now apply Qinv_lt_0_compat. }
      exists (map (fun q => q / T * 100)%Q ms).
      split; [now rewrite map_map|].
      assert (forall i, i < n ->
                (nth i (map (fun q => q / T * 100) ms) 0 ==
                 column_sum a i * K)%Q) as Hq.
      { intros i Hi.
        rewrite (nth_map_lt (fun q => q / T * 100)%Q ms 0%Q 0%Q) by lia.
        rewrite (Hms i Hi). unfold K, Qdiv. ring. }
      assert (forall i, i < n -> (0 <= column_sum a i)%Q) as Hcol0.
      { intros i Hi. rewrite <- (Hcs i Hi).
        apply (proj1 (Forall_forall _ _) Hcs0). apply nth_In. lia. }
      intros i Hi. split; [split|split].
      * rewrite (Hq i Hi). apply Qmult_le_0_compat; [auto | lra].
      * rewrite (nth_map_lt (fun q => q / T * 100)%Q ms 0%Q 0%Q) by lia.
        pose proof (nth_le_sum ms i Hms0) as Hle. rewrite <- HT in Hle.
        assert (nth i ms 0 / T <= 1)%Q as H1.
        { apply Qle_shift_div_r; [exact HTpos | lra]. }
        lra.
      * rewrite (Hq i Hi). split; intros E.
        -- apply Qmult_integral in E. destruct E as [E|E]; [exact E | lra].
        -- rewrite E. ring.
      * intros j Hj Hle. rewrite (Hq i Hi), (Hq j Hj).
        apply Qmult_le_compat_r; [exact Hle | lra].
Qed.

(** X11: what the scores of [get_robustness] say about 0/1 masks. Without
    data, once a [scan] has filled [y_better] and [y_worst], the method
    returns one score list for each; with data, one for the selection
    [get_selection] gives. For an array with no row the scores are one [nan]
    per column. Otherwise every feature has a score: none is finite when no
    mask selects any feature; else all are numbers from 0 to 100, 0 for
    exactly the features that no mask selects, and a feature that more masks
    select never has the lower score. The object stays as it is. *)
Theorem get_robustness_scores (s : SAFE) (n : nat) :
  (forall yb yw,
     y_better s = Some yb -> y_worst s = Some yw ->
     rectangular n yb -> binary_matrix yb ->
     rectangular n yw -> binary_matrix yw ->
     exists b w,
       get_robustness None s = (Ok (robustness_better_worst b w), s) /\
       scores_of n yb b /\ scores_of n yw w) /\
  (forall data sel,
     get_selection data s = (Ok (Some sel), s) ->
     rectangular n sel -> binary_matrix sel ->
     exists r,
       get_robustness (Some data) s = (Ok (robustness r), s) /\
       scores_of n sel r).
Proof.
  split.
  - intros yb yw Hb Hw Rb Bb Rw Bw.
    destruct (mean_percent_scores n yb Rb Bb) as [mb [Eb Sb]].
    destruct (mean_percent_scores n yw Rw Bw) as [mw [Ew Sw]].
    exists (percent mb), (percent mw).
    split; [|split; assumption].
    unfold get_robustness, bind, get, lift, ret. rewrite Hb, Hw, Eb, Ew.
    reflexivity.
  - intros data sel Hsel Rs Bs.
    destruct (mean_percent_scores n sel Rs Bs) as [m [Es Ss]].
    exists (percent m). split; [|assumption].
    unfold get_robustness, bind. rewrite Hsel. unfold lift, ret.
    rewrite Es. reflexivity.
Qed.

Section Preserves.

Variable P : SAFE -> Prop.

Lemma preserves_bind {A B} (c : M A) (k : A -> M B) :
  preserves P c -> (forall a, preserves P (k a)) -> preserves P (bind c k).
Proof.
  intros Hc Hk s r s' HP H. apply bind_inv in H.
  destruct H as [(a & s1 & Ha & Hb)|(e & Ha & _)].
  - eapply Hk; [|exact Hb]. eapply Hc; eauto.
  - eapply Hc; eauto.
Qed.

Lemma preserves_ret {A} (a : A) : preserves P (ret a).
Proof. intros s r s' HP H. apply ret_inv in H. now destruct H as [_ ->]. Qed.

Lemma preserves_raise {A} (e : exn) : preserves P (@raise A e).
Proof. intros s r s' HP H. apply raise_inv in H. now destruct H as [_ ->]. Qed.

Lemma preserves_lift {A} (x : result A) : preserves P (lift x).
Proof. intros s r s' HP H. apply lift_inv in H. now destruct H as [_ ->]. Qed.

Lemma preserves_get : preserves P get.
Proof. intros s r s' HP H. apply prim_get in H. now destruct H as [_ ->]. Qed.

Lemma preserves_modify (f : SAFE -> SAFE) :
  (forall s, P s -> P (f s)) -> preserves P (modify f).
Proof.
  intros Hf s r s' HP H. apply modify_inv in H. destruct H as [_ ->]. auto.
Qed.

Lemma preserves_for_each {A} (l : list A) (body : A -> M unit) :
  (forall a, preserves P (body a)) -> preserves P (for_each l body).
Proof.
  intros Hb s r s' HP H. revert H. apply for_each_invariant; [|exact HP].
  intros a s1 r1 s2 HP1 H1. eapply Hb; eauto.
Qed.

Lemma preserves_forward_selection (better : row -> row -> result bool)
  (pick : list row -> result row) (data : row) (label : Q) :
  preserves P (forward_selection better pick data label).
Proof.
  intros s r s' HP H. apply forward_selection_frame in H. now subst.
Qed.

Lemma preserves_generate :
  (forall c s, P s -> P (set_combinations c s)) ->
  preserves P _generate_combination.
Proof.
  intros Hc s r s' HP H. apply generate_frame in H.
  destruct H as [->|[c ->]]; auto.
Qed.

End Preserves.

Section ScanFrame.

Variable RandomState : Type.
Variable train_test_split :
  RandomState -> option Z -> Q -> matrix -> row -> result (matrix * row).

Lemma scan_preserves (P : SAFE -> Prop) (g : RandomState) (mdl : Model)
  (X0 : ndarray) (y0 : row) (aim0 : string) :
  (forall v s, P s -> P (set_n_features v s)) ->
  (forall v s, P s -> P (set_X v s)) ->
  (forall v s, P s -> P (set_y_better v s)) ->
  (forall v s, P s -> P (set_y_worst v s)) ->
  (forall v s, P s -> P (set_combinations v s)) ->
  (forall v s, P s -> P (set_model v s)) ->
  (forall v s, P s -> P (set_aim v s)) ->
  preserves P (scan RandomState train_test_split g mdl X0 y0 aim0).
Proof.
  intros Hn HX Hb Hw Hc Hm Ha. unfold scan.
  apply preserves_bind; [apply preserves_modify; auto|intros _].
  apply preserves_bind; [apply preserves_get|intros s].
  apply preserves_bind.
  { destruct (n_points s); [|apply preserves_ret].
    destruct (length (arr_rows X0) =? 0);
      [apply preserves_raise|apply preserves_lift]. }
  intros Xy.
  apply preserves_bind; [apply preserves_modify; auto|intros _].
  apply preserves_bind; [apply preserves_modify; auto|intros _].
  apply preserves_bind; [apply preserves_modify; auto|intros _].
  apply preserves_bind; [apply preserves_generate; auto|intros _].
  apply preserves_bind; [apply preserves_modify; auto|intros _].
  apply preserves_bind; [apply preserves_modify; auto|intros _].
  destruct (String.eqb (combinations_mode s) "genetic").
  { apply preserves_for_each. intros ij.
    apply preserves_bind; [apply preserves_lift|intros _].
    apply preserves_raise. }
  destruct (String.eqb (combinations_mode s) "forward_selection").
  { destruct (String.eqb aim0 "better"); apply preserves_for_each; intros ij.
    - apply preserves_bind; [apply preserves_lift|intros label].
      apply preserves_bind; [apply preserves_forward_selection|intros m].
      apply preserves_bind; [apply preserves_get|intros s1].
      apply preserves_bind; [apply preserves_lift|intros v].
      apply preserves_modify; auto.
    - apply preserves_bind; [apply preserves_lift|intros label].
      apply preserves_bind; [apply preserves_forward_selection|intros m].
      apply preserves_bind; [apply preserves_get|intros s1].
      apply preserves_bind; [apply preserves_lift|intros v].
      apply preserves_modify; auto. }
  apply preserves_bind; [apply preserves_get|intros s2].
  apply preserves_bind; [apply preserves_lift|intros combs].
  apply preserves_bind; [apply preserves_lift|intros cols].
  apply preserves_bind; [apply preserves_lift|intros iw].
  apply preserves_bind; [apply preserves_modify; auto|intros _].
  apply preserves_bind; [apply preserves_lift|intros ib].
  apply preserves_modify; auto.
Qed.

(** X12: [scan] writes nothing that [learn] has written. Whatever its
    outcome, [algorithm], [learner] and [y] are as before, so
    [get_selection] answers every query as it did before the [scan]: the new
    scan shows in the selections only after another [learn]. *)
Theorem scan_leaves_learning (g : RandomState) (mdl : Model) (X0 : ndarray)
  (y0 : row) (aim0 : string) (s : SAFE) :
  let s' := snd (scan RandomState train_test_split g mdl X0 y0 aim0 s) in
  same_learning s s' /\
  forall data, fst (get_selection data s') = fst (get_selection data s).
Proof.
  intros s'.
  assert (same_learning s s') as HS.
  { destruct (scan RandomState train_test_split g mdl X0 y0 aim0 s) as [r s1] eqn:E.
    subst s'. simpl.
    apply (scan_preserves (same_learning s) g mdl X0 y0 aim0) in E;
      try (intros v s2 H; exact H); [exact E|].
    repeat split. }
  split; [exact HS|].
  intros data. destruct HS as (Ha & Hl & Hy).
  unfold get_selection, bind, get. rewrite Ha, Hl, Hy.
  destruct (is_str (algorithm s) "knn").
  - destruct (learner s) as [[t|k]|]; try reflexivity.
    unfold lift. destruct (query t data); [|reflexivity].
    destruct (y s); [|reflexivity].
    unfold ret. now destruct (rmap _ _).
  - destruct (is_str (algorithm s) "ann"); [|reflexivity].
    destruct (learner s) as [[t|k]|]; try reflexivity.
    unfold lift. now destruct (k_predict k data).
Qed.

End ScanFrame.

Lemma bind_eval {A B} (c : M A) (k : A -> M B) (s s1 : SAFE) (a : A) :
  c s = (Ok a, s1) -> bind c k s = k a s1.
Proof. intros H. unfold bind. now rewrite H. Qed.

Lemma bind_raise {A B} (c : M A) (k : A -> M B) (s s1 : SAFE) (e : exn) :
  c s = (Raise e, s1) -> bind c k s = (Raise e, s1).
Proof. intros H. unfold bind. now rewrite H. Qed.

Lemma has_entry_true (data : matrix) : has_entry data -> has_entryb data = true.
Proof.
  intros [r [Hin Hne]]. unfold has_entryb. apply existsb_exists.
  exists r. split; [exact Hin|]. destruct r; [congruence | reflexivity].
Qed.

(** X13: on an object [learn] was never called on ([algorithm] is still
    [None]), [get_selection] selects nothing and returns [None] without an
    exception, and [get_robustness] with data raises numpy's [AxisError].
    [get_behaviour] and [_get_clean] raise [AttributeError] when no model is
    stored yet. For data with at least one entry, [clean_data] raises
    [TypeError] at the product with [None], and so do [get_behaviour] and
    [_get_clean] when the stored model answers. The object stays as it
    is. *)
Theorem nothing_selected_before_learn (s : SAFE) (data : matrix) :
  algorithm s = None ->
  get_selection data s = (Ok None, s) /\
  get_robustness (Some data) s = (Raise AxisError, s) /\
  (model s = None ->
   get_behaviour data s = (Raise AttributeError, s) /\
   _get_clean data s = (Raise AttributeError, s)) /\
  (has_entry data ->
   clean_data data s = (Raise TypeError, s) /\
   forall m, model s = Some m ->
     (forall p, predict m data = Ok p ->
                get_behaviour data s = (Raise TypeError, s)) /\
     (forall c, predict_classes m data = Ok c ->
                _get_clean data s = (Raise TypeError, s))).
Proof.
  intros Ha.
  assert (get_selection data s = (Ok None, s)) as Hsel
    by (unfold get_selection, bind, get; rewrite Ha; reflexivity).
  split; [exact Hsel|]. split; [|split].
  - unfold get_robustness, bind. rewrite Hsel. reflexivity.
  - intros Hm. unfold get_behaviour, _get_clean, self_model, bind, get.
    rewrite Hm. split; reflexivity.
  - intros He.
    assert (clean_data data s = (Raise TypeError, s)) as Hclean
      by (unfold clean_data, bind; rewrite Hsel, (has_entry_true data He);
          reflexivity).
    split; [exact Hclean|]. intros m Hm.
    assert (self_model s = (Ok m, s)) as Hsm
      by (unfold self_model, bind, get; rewrite Hm; reflexivity).
    split.
    + intros p Hp. unfold get_behaviour.
      erewrite bind_eval by exact Hsm.
      erewrite bind_eval by (unfold lift; rewrite Hp; reflexivity).
      erewrite bind_eval by exact Hsm.
      erewrite bind_raise by exact Hclean. reflexivity.
    + intros c Hc. unfold _get_clean.
      erewrite bind_eval by exact Hsm.
      erewrite bind_eval by (unfold lift; rewrite Hc; reflexivity).
      erewrite bind_eval by exact Hsm.
      erewrite bind_raise by exact Hclean. reflexivity.
Qed.

(** * Further examples *)

Lemma example_X_rectangular : rectangular (ncols example_X) (arr_rows example_X).
Proof. repeat constructor. Qed.

(** The scan of the example in mode ['all']. *)
Lemma scan_exhaustive_returns_masks_witness :
  (exhaustive_mode example_object /\ n_points example_object = None /\
   scalar_model example_model /\
   rectangular (ncols example_X) (arr_rows example_X) /\
   length example_y = length (arr_rows example_X)) /\
  exists s' combs yw yb,
    scan unit no_split tt example_model example_X example_y "worst" example_object
      = (Ok tt, s') /\
    combinations s' = Some combs /\
    y_worst s' = Some yw /\ y_better s' = Some yb /\
    length yw = length (arr_rows example_X) /\
    length yb = length (arr_rows example_X) /\
    (forall m, In m yw \/ In m yb -> In m combs) /\
    (combinations_mode example_object = "one-by-one"%string ->
     forall m, In m yw \/ In m yb ->
       m = np_ones (ncols example_X) \/
       exists i, 1 <= i < ncols example_X /\
                 m = set_nth i 0%Q (np_ones (ncols example_X))).
Proof.
  split.
  - split; [left; reflexivity|]. split; [reflexivity|].
    split; [exact example_model_scalar|].
    split; [exact example_X_rectangular | reflexivity].
  - apply (scan_exhaustive_returns_masks unit no_split tt example_model example_X
             example_y "worst" example_object);
      [left; reflexivity | reflexivity | exact example_model_scalar
      | exact example_X_rectangular | reflexivity].
Defined.

Lemma scan_random_never_returns_witness :
  combinations_mode (__init__ "random" 10 None None) = "random"%string /\
  (is_ok (fst (scan unit no_split tt example_model example_X example_y "worst"
                 (__init__ "random" 10 None None))) = false /\
   (n_points (__init__ "random" 10 None None) = None ->
    exists s',
      scan unit no_split tt example_model example_X example_y "worst"
        (__init__ "random" 10 None None) = (Raise NameError, s') /\
      X s' = Some (arr_rows example_X) /\
      combinations s' = Some (itertools_product [0%Q; 1%Q] (ncols example_X)) /\
      y_worst s' = Some (np_zeros2 (length (arr_rows example_X)) (ncols example_X)) /\
      y_better s' = Some (np_zeros2 (length (arr_rows example_X)) (ncols example_X)) /\
      model s' = model (__init__ "random" 10 None None) /\
      aim s' = aim (__init__ "random" 10 None None))).
Proof.
  split; [reflexivity|].
  apply (scan_random_never_returns unit no_split tt example_model example_X
           example_y "worst" (__init__ "random" 10 None None)).
  reflexivity.
Defined.

Lemma scan_genetic_raises_on_first_sample_witness :
  (combinations_mode (__init__ "genetic" 10 None None) = "genetic"%string /\
   n_points (__init__ "genetic" 10 None None) = None) /\
  exists s',
    scan unit no_split tt example_model example_X example_y "worst"
      (__init__ "genetic" 10 None None) = (Raise NameError, s') /\
    combinations s' = Some (all_combinations (ncols example_X)) /\
    y_worst s' = Some (np_zeros2 (length (arr_rows example_X)) (ncols example_X)) /\
    y_better s' = Some (np_zeros2 (length (arr_rows example_X)) (ncols example_X)) /\
    model s' = Some example_model /\ aim s' = Some "worst"%string.
Proof.
  split; [split; reflexivity|].
  apply (scan_genetic_raises_on_first_sample unit no_split tt example_model
           example_X example_y "worst" (__init__ "genetic" 10 None None));
    reflexivity.
Defined.

(** The mode as the docstring of [__init__] spells it. *)
Lemma scan_unknown_mode_raises_witness :
  (~ known_mode (combinations_mode (__init__ "forward selection" 10 None None)) /\
   combinations_mode (__init__ "forward selection" 10 None None)
     <> "forward_selection"%string /\
   combinations (__init__ "forward selection" 10 None None) = None /\
   n_points (__init__ "forward selection" 10 None None) = None) /\
  exists s',
    scan unit no_split tt example_model example_X example_y "worst"
      (__init__ "forward selection" 10 None None) = (Raise AttributeError, s') /\
    combinations s' = None /\ X s' = Some (arr_rows example_X) /\
    model s' = Some example_model /\ aim s' = Some "worst"%string.
Proof.
  assert (~ known_mode (combinations_mode
                          (__init__ "forward selection" 10 None None))) as Hk
    by (intros [H|[H|[H|H]]]; discriminate H).
  split.
  - split; [exact Hk|]. split; [discriminate|]. split; reflexivity.
  - apply (scan_unknown_mode_raises unit no_split tt example_model example_X
             example_y "worst" (__init__ "forward selection" 10 None None));
      [exact Hk | discriminate | reflexivity | reflexivity].
Defined.

Lemma scan_forward_selection_stores_searches_witness :
  (combinations_mode (__init__ "forward_selection" 10 None None)
     = "forward_selection"%string /\
   n_points (__init__ "forward_selection" 10 None None) = None /\
   scalar_model example_model /\
   rectangular (ncols example_X) (arr_rows example_X) /\
   length example_y = length (arr_rows example_X)) /\
  exists s' masks,
    scan unit no_split tt example_model example_X example_y "better"
      (__init__ "forward_selection" 10 None None) = (Ok tt, s') /\
    length masks = length (arr_rows example_X) /\
    combinations s' = combinations (__init__ "forward_selection" 10 None None) /\
    ("better"%string = "better"%string ->
     y_better s' = Some masks /\
     y_worst s' = Some (np_zeros2 (length (arr_rows example_X)) (ncols example_X)) /\
     forall i x lab,
       nth_error (arr_rows example_X) i = Some x ->
       nth_error example_y i = Some lab ->
       exists m, nth_error masks i = Some m /\
                 __combination_search_forward_selection_min x lab s' = (Ok m, s')) /\
    ("better"%string <> "better"%string ->
     y_worst s' = Some masks /\
     y_better s' = Some (np_zeros2 (length (arr_rows example_X)) (ncols example_X)) /\
     forall i x lab,
       nth_error (arr_rows example_X) i = Some x ->
       nth_error example_y i = Some lab ->
       exists m, nth_error masks i = Some m /\
                 __combination_search_forward_selection_max x lab s' = (Ok m, s')).
Proof.
  split.
  - split; [reflexivity|]. split; [reflexivity|].
    split; [exact example_model_scalar|].
    split; [exact example_X_rectangular | reflexivity].
  - apply (scan_forward_selection_stores_searches unit no_split tt example_model
             example_X example_y "better"
             (__init__ "forward_selection" 10 None None));
      [reflexivity | reflexivity | exact example_model_scalar
      | exact example_X_rectangular | reflexivity].
Defined.

(** The two searches on the sample (1, 2) with label 0. *)
Lemma forward_selection_takes_best_witness :
  (n_features search_object = Some 2 /\ model search_object = Some example_model /\
   scalar_model example_model /\ length [1; 2]%Q = 2) /\
  (exists moves,
     __combination_search_forward_selection_min [1; 2]%Q 0%Q search_object =
       (Ok (last moves (np_ones 2)), search_object) /\
     chain (best_move 2 Qle (loss_value example_model [1; 2]%Q 0%Q))
           (np_ones 2) moves /\
     local_optimum 2 Qle (loss_value example_model [1; 2]%Q 0%Q)
                   (last moves (np_ones 2))) /\
  (exists moves,
     __combination_search_forward_selection_max [1; 2]%Q 0%Q search_object =
       (Ok (last moves (np_ones 2)), search_object) /\
     chain (best_move 2 (fun a b => (b <= a)%Q)
                      (loss_value example_model [1; 2]%Q 0%Q))
           (np_ones 2) moves /\
     local_optimum 2 (fun a b => (b <= a)%Q)
                   (loss_value example_model [1; 2]%Q 0%Q)
                   (last moves (np_ones 2))).
Proof.
  split.
  - split; [reflexivity|]. split; [reflexivity|].
    split; [exact example_model_scalar | reflexivity].
  - apply (forward_selection_takes_best search_object 2 example_model [1; 2]%Q 0%Q);
      [reflexivity | reflexivity | exact example_model_scalar | reflexivity].
Defined.

(** Two of three samples are kept. *)
Lemma scan_subsampled_raises_witness :
  (exhaustive_mode (__init__ "all" 10 (Some 2) None) /\
   n_points (__init__ "all" 10 (Some 2) None) = Some 2 /\
   length (arr_rows three_X) <> 0 /\
   keep_two tt (random_state (__init__ "all" 10 (Some 2) None))
     (inject_Z (Z.of_nat 2) / inject_Z (Z.of_nat (length (arr_rows three_X))))%Q
     (arr_rows three_X) three_y = Ok ([[1; 2]; [3; 4]]%Q, [0; 10]%Q) /\
   rectangular (ncols three_X) [[1; 2]; [3; 4]]%Q /\
   length [0; 10]%Q = length [[1; 2]; [3; 4]]%Q /\
   length [[1; 2]; [3; 4]]%Q <> length (arr_rows three_X) /\
   length [[1; 2]; [3; 4]]%Q <> 1 /\
   scalar_model example_model) /\
  fst (scan unit keep_two tt example_model three_X three_y "worst"
         (__init__ "all" 10 (Some 2) None)) = Raise ValueError.
Proof.
  split.
  - split; [left; reflexivity|]. split; [reflexivity|].
    split; [discriminate|]. split; [reflexivity|].
    split; [repeat constructor|]. split; [reflexivity|].
    split; [discriminate|]. split; [discriminate|].
    exact example_model_scalar.
  - apply (scan_subsampled_raises unit keep_two tt example_model three_X three_y
             "worst" (__init__ "all" 10 (Some 2) None) 2
             [[1; 2]; [3; 4]]%Q [0; 10]%Q);
      [left; reflexivity | reflexivity | discriminate | reflexivity
      | repeat constructor | reflexivity | discriminate | discriminate
      | exact example_model_scalar].
Defined.

Lemma example_scan_run :
  scan unit no_split tt example_model example_X example_y "worst" example_object
  = (Ok tt, example_scanned).
Proof. vm_compute. reflexivity. Qed.

(** [learn(aim='better')] after [scan(aim='worst')]. *)
Lemma learn_keeps_scan_aim_witness :
  scan unit no_split tt example_model example_X example_y "worst" example_object
    = (Ok tt, example_scanned) /\
  forall (algorithm0 aim1 : string) (learner0 : option Learner) (train : bool),
    let s2 := snd (learn linear_KDTree algorithm0 aim1 learner0 train
                     example_scanned) in
    X s2 = X example_scanned /\ y_better s2 = y_better example_scanned /\
    y_worst s2 = y_worst example_scanned /\
    combinations s2 = combinations example_scanned /\
    algorithm s2 = Some algorithm0 /\
    ("worst"%string <> ""%string ->
     learn linear_KDTree algorithm0 aim1 learner0 train example_scanned =
     learn linear_KDTree algorithm0 "worst" learner0 train example_scanned /\
     aim s2 = Some "worst"%string /\
     y s2 = if String.eqb "worst" "better" then y_better example_scanned
            else y_worst example_scanned) /\
    ("worst"%string = ""%string ->
     aim s2 = Some aim1 /\
     y s2 = if String.eqb aim1 "better" then y_better example_scanned
            else y_worst example_scanned).
Proof.
  split; [exact example_scan_run|].
  apply (learn_keeps_scan_aim unit no_split linear_KDTree tt example_model
           example_X example_y "worst" example_object example_scanned).
  exact example_scan_run.
Defined.

(** The pipeline on the example, cleaning the sample (3, 4). *)
Lemma clean_data_applies_nearest_mask_witness :
  (nearest_neighbour_tree linear_KDTree /\
   exhaustive_mode example_object /\ n_points example_object = None /\
   scalar_model example_model /\ arr_rows example_X <> [] /\
   0 < ncols example_X /\
   rectangular (ncols example_X) (arr_rows example_X) /\
   length example_y = length (arr_rows example_X) /\
   [[3; 4]]%Q <> [] /\
   rectangular (ncols example_X) [[3; 4]]%Q) /\
  exists s1 l s2 ys cleaned,
    scan unit no_split tt example_model example_X example_y "worst" example_object
      = (Ok tt, s1) /\
    learn linear_KDTree "knn" "worst" None false s1 = (Ok l, s2) /\
    y s2 = Some ys /\
    clean_data [[3; 4]]%Q s2 = (Ok cleaned, s2) /\
    Forall2 (fun q c => exists m,
               (exists k, nearest (arr_rows example_X) q k /\
                          nth_error ys k = Some m) /\
               masked_row m q c)
            [[3; 4]]%Q cleaned.
Proof.
  split.
  - split; [exact linear_KDTree_nearest|]. split; [left; reflexivity|].
    split; [reflexivity|]. split; [exact example_model_scalar|].
    split; [discriminate|]. split; [simpl; lia|].
    split; [exact example_X_rectangular|].
    split; [reflexivity|]. split; [discriminate | repeat constructor].
  - apply (clean_data_applies_nearest_mask unit no_split linear_KDTree tt
             example_model example_X example_y "worst" "worst" false
             example_object [[3; 4]]%Q);
      [exact linear_KDTree_nearest | left; reflexivity | reflexivity
      | exact example_model_scalar | discriminate | simpl; lia
      | exact example_X_rectangular | reflexivity | discriminate
      | repeat constructor].
Defined.

(** The sample (3, 4) is a scanned sample, its mask for the aim ['worst'] is
    (0, 0); the sample (1, 2) has the mask (1, 1). *)
Example clean_data_run :
  let s2 := snd (learn linear_KDTree "knn" "worst" None false example_scanned) in
  fst (clean_data [[3; 4]; [1; 2]]%Q s2) = Ok [[0; 0]; [1; 2]]%Q.
Proof. vm_compute. reflexivity. Qed.

(** A new object. *)
Lemma nothing_selected_before_learn_witness :
  algorithm example_object = None /\
  (get_selection [[1; 2]]%Q example_object = (Ok None, example_object) /\
   get_robustness (Some [[1; 2]]%Q) example_object
     = (Raise AxisError, example_object) /\
   (model example_object = None ->
    get_behaviour [[1; 2]]%Q example_object = (Raise AttributeError, example_object) /\
    _get_clean [[1; 2]]%Q example_object = (Raise AttributeError, example_object)) /\
   (has_entry [[1; 2]]%Q ->
    clean_data [[1; 2]]%Q example_object = (Raise TypeError, example_object) /\
    forall m, model example_object = Some m ->
      (forall p, predict m [[1; 2]]%Q = Ok p ->
                 get_behaviour [[1; 2]]%Q example_object
                 = (Raise TypeError, example_object)) /\
      (forall c, predict_classes m [[1; 2]]%Q = Ok c ->
                 _get_clean [[1; 2]]%Q example_object
                 = (Raise TypeError, example_object)))).
Proof.
  split; [reflexivity|].
  apply (nothing_selected_before_learn example_object [[1; 2]]%Q).
  reflexivity.
Defined.

Lemma example_masks_shape :
  rectangular 2 [[0; 0]; [1; 1]]%Q /\ binary_matrix [[0; 0]; [1; 1]]%Q /\
  rectangular 2 [[1; 1]; [0; 0]]%Q /\ binary_matrix [[1; 1]; [0; 0]]%Q.
Proof.
  repeat split; repeat constructor; (left; reflexivity) || (right; reflexivity).
Qed.

(** The scores of the scanned example. *)
Lemma get_robustness_scores_witness :
  (y_better example_scanned = Some [[0; 0]; [1; 1]]%Q /\
   y_worst example_scanned = Some [[1; 1]; [0; 0]]%Q /\
   rectangular 2 [[0; 0]; [1; 1]]%Q /\ binary_matrix [[0; 0]; [1; 1]]%Q /\
   rectangular 2 [[1; 1]; [0; 0]]%Q /\ binary_matrix [[1; 1]; [0; 0]]%Q) /\
  exists b w,
    get_robustness None example_scanned
      = (Ok (robustness_better_worst b w), example_scanned) /\
    scores_of 2 [[0; 0]; [1; 1]]%Q b /\ scores_of 2 [[1; 1]; [0; 0]]%Q w.
Proof.
  destruct example_masks_shape as (Rb & Bb & Rw & Bw).
  split.
  - split; [reflexivity|]. split; [reflexivity|]. auto.
  - apply (proj1 (get_robustness_scores example_scanned 2)); auto.
Defined.

(** The scores of the scanned example: 50 for each feature, as the
    unreduced fraction 400/8. *)
Example get_robustness_run :
  fst (get_robustness None example_scanned)
  = Ok (robustness_better_worst
          (score_list [Finite (400 # 8); Finite (400 # 8)])
          (score_list [Finite (400 # 8); Finite (400 # 8)])).
Proof. vm_compute. reflexivity. Qed.

(** A model that raises on the fourth combination of the scan: the scan
    raises the model's exception. *)
Example scan_raises_the_models_exception :
  model_or ZeroDivisionError strict_model example_model /\
  fst (scan unit no_split tt example_model example_X example_y "worst"
         example_object) = Ok tt /\
  fst (scan unit no_split tt strict_model example_X example_y "worst"
         example_object) = Raise ZeroDivisionError.
Proof.
  split; [|split; reflexivity].
  split; intros a; simpl; [|destruct (predict_classes example_model a); simpl; auto].
  destruct (existsb _ a); simpl; auto.
Qed.

(** If [accuracy_score] were bound: its exception in the multiclass block is
    caught, the binary block prints and the call returns. *)
Example get_accuracy_catches :
  let s2 := snd (learn linear_KDTree "knn" "worst" None false example_scanned) in
  get_accuracy_with (Ok picky_accuracy) [[1; 2]]%Q (Labels2 [[0; 1]]%Q) s2
  = ([Accuracy_before 0; Accuracy_after 0], (Ok tt, s2)).
Proof. vm_compute. reflexivity. Qed.
